(** * carta-backend: region statistics cache and DS9 region import/export

    A shallow embedding of [RegionStats.cc] (histogram cache and statistics
    filling) and of [Region/Ds9ImportExport.cc] (DS9 region text import and
    export), with the properties of the backend specification stated and
    proved over it.

    Numbers.  The C++ code computes with IEEE [float] and [double].  Every
    finite float is a rational number, and the embedding computes on these
    exact values in [Q]: comparisons, sums and the decimal text produced for
    a value are those of the exact value.  In [Ds9ImportExport.cc] a value
    that the code stores in a [float] (the coordinates of a [CARTA::Point],
    the rotation of a RegionState, the [float] locals) is rounded to the
    nearest single-precision number by [to_float].  The rounding of [double]
    results to the double grid, and the rounding in [RegionStats.cc], is not
    modelled.  Integers ([int], [size_t]) are in [Z]. *)

From Stdlib Require Import ZArith NArith QArith Qabs Qround Qpower.
From Stdlib Require Import String Ascii List Lia Lqa Bool.
Import ListNotations.

Local Open Scope Z_scope.

(* ===================================================================== *)
(** * Part I: RegionStats.cc                                              *)
(* ===================================================================== *)

Module RegionStats.

(** [CARTA::Histogram], the protobuf message filled by [fillHistogram]
    (the fields the code sets). *)
Record Histogram := mkHistogram {
  channel : Z;
  num_bins : Z;
  bin_width : Q;
  first_bin_center : Q;
  bins : list Z
}.

(** [CARTA::StatsType].  [m_regionStats] stores plain [int]s which are
    [static_cast] to this enumeration; an integer that names no enumerator
    is kept as [Unknown]. *)
Inductive StatsType :=
| None_ | Sum | FluxDensity | Mean | RMS | Sigma | SumSq | Min | Max
| Blc | Trc | MinPos | MaxPos | Unknown (n : Z).

(** [CARTA::StatisticsValue]: a fresh entry returned by [add_statistics ()]
    carries the protobuf defaults until its setters are called. *)
Record StatisticsValue := mkStatisticsValue {
  stats_type : StatsType;
  value : Q
}.

(** [CARTA::RegionStatsData]: the repeated field [statistics]. *)
Definition RegionStatsData := list StatisticsValue.

(** [casacore::LatticeStatsBase::StatisticsTypes], as far as the code names
    them; [NSTATS] is the "no lattice statistic" marker. *)
Inductive LatticeStatsType :=
| L_SUM | L_FLUX | L_MEAN | L_RMS | L_SIGMA | L_SUMSQ | L_MIN | L_MAX | NSTATS.

(** ** The [Histogram] reduction class *)

Module HistogramClass.

(** Modelled from the spec: the class [Histogram] of [Histogram.h] (its
    constructor, [getBinWidth] and [getHistogram]) is used by
    [fillHistogram] but is not among the sources.  The spec gives
    "Bin width = (max−min)/numBins; bin [i] spans
    [[min + i*width, min + (i+1)*width)]". *)
Definition getBinWidth (nBins : Z) (minVal maxVal : Q) : Q :=
  (maxVal - minVal) / inject_Z nBins.

Definition in_bin (minVal width : Q) (i : Z) (v : Q) : bool :=
  Qle_bool (minVal + inject_Z i * width) v
  && negb (Qle_bool (minVal + inject_Z (i + 1) * width) v).

Definition count_bin (minVal width : Q) (data : list Q) (i : Z) : Z :=
  Z.of_nat (List.length (filter (in_bin minVal width i) data)).

Definition getHistogram (nBins : Z) (minVal maxVal : Q) (data : list Q) : list Z :=
  let w := getBinWidth nBins minVal maxVal in
  map (fun i => count_bin minVal w data (Z.of_nat i)) (seq 0 (Z.to_nat nBins)).

End HistogramClass.

(** ** The per-channel histogram store

    [m_channelHistograms] is a map from channel index to [CARTA::Histogram];
    the code uses [count], [operator[]] as an rvalue on present keys, and
    [operator[]] as an lvalue (insert or overwrite). *)
Definition ChannelMap := Z -> option Histogram.

Definition cm_empty : ChannelMap := fun _ => None.

Definition cm_count (m : ChannelMap) (k : Z) : bool :=
  match m k with Some _ => true | None => false end.

Definition cm_assign (m : ChannelMap) (k : Z) (h : Histogram) : ChannelMap :=
  fun k' => if Z.eqb k' k then Some h else m k'.

(** The data members of [RegionStats] that the histogram and statistics
    code reads or writes.  [m_configs] holds the histogram configurations
    (channel, bin count). *)
Record RegionStats := mkRegionStats {
  m_configs : list (Z * Z);
  m_channelHistograms : ChannelMap;
  m_stokes : Z;
  m_bins : Z;
  m_regionStats : list Z
}.

(** A [CARTA::SetHistogramRequirements_HistogramConfig] is the pair
    (channel, bin count); the message as its default constructor leaves
    it: *)
Definition default_config : Z * Z := (0, 0).

(** [RegionStats::setHistogramRequirements]; it always returns [true]. *)
Definition setHistogramRequirements (rs : RegionStats) (histogramReqs : list (Z * Z))
    : bool * RegionStats :=
  (true,
   {| m_configs := histogramReqs;
      m_channelHistograms := m_channelHistograms rs;
      m_stokes := m_stokes rs;
      m_bins := m_bins rs;
      m_regionStats := m_regionStats rs |}).

Definition numHistogramConfigs (rs : RegionStats) : nat := List.length (m_configs rs).

(** [RegionStats::getHistogramConfig].  The comparison
    [histogramIndex < m_configs.size ()] is between an [int] and a [size_t]:
    the index is first converted to the unsigned 64-bit type, that is taken
    modulo [2^64]. *)
Definition getHistogramConfig (rs : RegionStats) (histogramIndex : Z) : Z * Z :=
  let index := histogramIndex mod 2 ^ 64 in
  if index <? Z.of_nat (List.length (m_configs rs))
  then nth (Z.to_nat index) (m_configs rs) default_config
  else default_config.

Definition stored (rs : RegionStats) (chan stokes nBins : Z) : bool :=
  cm_count (m_channelHistograms rs) chan
  && Z.eqb (m_stokes rs) stokes && Z.eqb (m_bins rs) nBins.

(** [RegionStats::fillHistogram]: the out-parameter [*histogram] is the
    first component of the result, the updated object the second. *)
Definition fillHistogram (rs : RegionStats) (data : list Q)
    (chanIndex stokesIndex nBins : Z) (minVal maxVal : Q)
    : option Histogram * RegionStats :=
  if stored rs chanIndex stokesIndex nBins then
    (m_channelHistograms rs chanIndex, rs)
  else
    let histogramBins := HistogramClass.getHistogram nBins minVal maxVal data in
    let binWidth := HistogramClass.getBinWidth nBins minVal maxVal in
    let histogram :=
      {| channel := chanIndex;
         num_bins := nBins;
         bin_width := binWidth;
         first_bin_center := minVal + (binWidth / 2);
         bins := histogramBins |} in
    (Some histogram,
     {| m_configs := m_configs rs;
        m_channelHistograms := cm_assign (m_channelHistograms rs) chanIndex histogram;
        m_stokes := stokesIndex;
        m_bins := nBins;
        m_regionStats := m_regionStats rs |}).

(** [RegionStats::getChannelHistogram]: [Some h] when the function returns
    [true] with [*histogram = h], [None] when it returns [false]. *)
Definition getChannelHistogram (rs : RegionStats) (channel stokes numBins : Z)
    : option Histogram :=
  if stored rs channel stokes numBins then m_channelHistograms rs channel
  else None.

Definition setStatsRequirements (rs : RegionStats) (statsTypes : list Z) : RegionStats :=
  {| m_configs := m_configs rs;
     m_channelHistograms := m_channelHistograms rs;
     m_stokes := m_stokes rs;
     m_bins := m_bins rs;
     m_regionStats := statsTypes |}.

Definition numStats (rs : RegionStats) : nat := List.length (m_regionStats rs).

(** ** Statistics

    The statistics themselves come from [casacore::LatticeStatistics] over a
    [casacore::SubLattice<float>].  Both are collaborators: the section
    takes the sub-lattice type and the engine's answers as variables.  Each
    use of the engine is recorded in a ghost trace, so that "no statistics
    computation" is a statement about the code's run. *)
Inductive EngineCall :=
| NewLatticeStatistics
| GetStatistic (t : LatticeStatsType)
| GetMinMaxPos.

Section Statistics.

Variable SubLattice : Type.
(** [static_cast<CARTA::StatsType>] of a stored requirement. *)
Variable cast_StatsType : Z -> StatsType.
(** [latticeStats.getStatistic (result, type)]: the resulting array,
    possibly empty. *)
Variable getStatistic : SubLattice -> LatticeStatsType -> list Q.
(** [latticeStats.getMinMaxPos (minPos, maxPos)]. *)
Variable getMinMaxPos : SubLattice -> list Z * list Z.
(** [subLattice.getRegionPtr ()->slicer ()]: its [start ()] and [end ()]. *)
Variable slicer_start : SubLattice -> list Z.
Variable slicer_end : SubLattice -> list Z.

Definition lattice_stat_of (t : StatsType) : LatticeStatsType :=
  match t with
  | Sum => L_SUM
  | FluxDensity => L_FLUX
  | Mean => L_MEAN
  | RMS => L_RMS
  | Sigma => L_SIGMA
  | SumSq => L_SUMSQ
  | Min => L_MIN
  | Max => L_MAX
  | _ => NSTATS
  end.

Definition add_positions (a b : list Z) : list Z :=
  map (fun p => fst p + snd p) (combine a b).

(** The body of the loop of [getStatsValues] for one requested statistic:
    the values pushed for it and the engine calls made. *)
Definition stat_values (subLattice : SubLattice) (req : Z) : list Q * list EngineCall :=
  let statType := cast_StatsType req in
  let positional :=
    match statType with
    | Blc => (map inject_Z (slicer_start subLattice), [])
    | Trc => (map inject_Z (slicer_end subLattice), [])
    | MinPos =>
        (map inject_Z (add_positions (slicer_start subLattice) (fst (getMinMaxPos subLattice))),
         [GetMinMaxPos])
    | MaxPos =>
        (map inject_Z (add_positions (slicer_start subLattice) (snd (getMinMaxPos subLattice))),
         [GetMinMaxPos])
    | _ => ([], [])
    end in
  match lattice_stat_of statType with
  | NSTATS => positional
  | t => (fst positional ++ getStatistic subLattice t, snd positional ++ [GetStatistic t])
  end.

(** [RegionStats::getStatsValues]; it always returns [true]. *)
Definition getStatsValues (requestedStats : list Z) (subLattice : SubLattice)
    : list (list Q) * list EngineCall :=
  let per := map (stat_values subLattice) requestedStats in
  (map fst per, NewLatticeStatistics :: concat (map snd per)).

(** The loop of [fillStatsData] over the results: [values[0]] on an empty
    vector has no defined behaviour, which is [None] here. *)
Fixpoint add_stats (statsData : RegionStatsData) (reqs : list Z) (results : list (list Q))
    : option RegionStatsData :=
  match reqs, results with
  | [], _ => Some statsData
  | r :: reqs', (v0 :: _) :: results' =>
      add_stats (statsData ++ [ {| stats_type := cast_StatsType r; value := v0 |} ]) reqs' results'
  | _ :: _, _ => None
  end.

(** [RegionStats::fillStatsData]: the message [statsData] is passed by
    reference and appended to; the result is the message after the call
    ([None]: undefined behaviour) and the trace of engine calls. *)
Definition fillStatsData (rs : RegionStats) (statsData : RegionStatsData)
    (subLattice : SubLattice) : option RegionStatsData * list EngineCall :=
  match m_regionStats rs with
  | [] => (Some (statsData ++ [ {| stats_type := None_; value := 0 |} ]), [])
  | _ :: _ =>
      let '(results, calls) := getStatsValues (m_regionStats rs) subLattice in
      (add_stats statsData (m_regionStats rs) results, calls)
  end.

End Statistics.

(** A run of the histogram interface: the calls a client can make. *)
Inductive HistCall :=
| CallFill (data : list Q) (chan stokes nBins : Z) (minVal maxVal : Q)
| CallGet (chan stokes nBins : Z).

Definition run_call (rs : RegionStats) (c : HistCall) : option Histogram * RegionStats :=
  match c with
  | CallFill data chan stokes nBins lo hi => fillHistogram rs data chan stokes nBins lo hi
  | CallGet chan stokes nBins => (getChannelHistogram rs chan stokes nBins, rs)
  end.

Definition run_calls (rs : RegionStats) (cs : list HistCall) : RegionStats :=
  fold_left (fun s c => snd (run_call s c)) cs rs.

End RegionStats.

(* ===================================================================== *)
(** * Part II: Region/Ds9ImportExport.cc                                  *)
(* ===================================================================== *)

Module Ds9.

Local Open Scope string_scope.

(** ** Characters and strings ([std::string]) *)

Definition nl : string := String (ascii_of_nat 10) "".
Definition dquote_char : ascii := ascii_of_nat 34.
Definition squote_char : ascii := ascii_of_nat 39.
Definition dquote : string := String dquote_char "".

(** [s[0]]: for [std::string] the index [size ()] is the terminating null. *)
Definition first_char (s : string) : ascii :=
  match s with
  | String c _ => c
  | EmptyString => zero
  end.

(** [s.substr (1)] on a string that is not empty. *)
Definition substr1 (s : string) : string :=
  match s with
  | String _ t => t
  | EmptyString => EmptyString
  end.

(** [s.back ()] and [s.pop_back ()] on a string that is not empty. *)
Fixpoint back (s : string) : ascii :=
  match s with
  | EmptyString => zero
  | String c EmptyString => c
  | String _ t => back t
  end.

Fixpoint pop_back (s : string) : string :=
  match s with
  | EmptyString => EmptyString
  | String _ EmptyString => EmptyString
  | String c t => String c (pop_back t)
  end.

(** [hay.find (needle) != std::string::npos]. *)
Fixpoint str_find (needle hay : string) : bool :=
  String.prefix needle hay
  || match hay with
     | EmptyString => false
     | String _ t => str_find needle t
     end.

Definition is_empty (s : string) : bool :=
  match s with EmptyString => true | _ => false end.

Definition tolower_char (c : ascii) : ascii :=
  let n := N_of_ascii c in
  if ((65 <=? n) && (n <=? 90))%N then ascii_of_N (n + 32) else c.

Fixpoint tolower (s : string) : string :=
  match s with
  | EmptyString => EmptyString
  | String c t => String (tolower_char c) (tolower t)
  end.

Fixpoint str_forall (P : ascii -> bool) (s : string) : bool :=
  match s with
  | EmptyString => true
  | String c t => P c && str_forall P t
  end.

Fixpoint mem_char (c : ascii) (s : string) : bool :=
  match s with
  | EmptyString => false
  | String d t => Ascii.eqb c d || mem_char c t
  end.

(** ** Decimal text of numbers

    [fmt::format ("{:.2f}", v)] and [os << std::fixed << std::setprecision (2) << v]
    print the exact value of [v] correctly rounded (ties to even) to the
    requested number of decimals, with a leading minus sign for a negative
    value. *)

Definition pow10 (n : nat) : N := (10 ^ N.of_nat n)%N.

Definition digit_char (d : N) : ascii := ascii_of_N (48 + d).

(** The last [w] decimal digits of [v], most significant first. *)
Fixpoint digits_fixed (w : nat) (v : N) : string :=
  match w with
  | O => EmptyString
  | S w' => String (digit_char ((v / pow10 w') mod 10)%N) (digits_fixed w' v)
  end.

Fixpoint ndigits (fuel : nat) (v : N) : nat :=
  match fuel with
  | O => 1
  | S f => if (v <? 10)%N then 1%nat else S (ndigits f (v / 10)%N)
  end.

(** The decimal digits of [v] without leading zeros ("0" for zero). *)
Definition digits_of_N (v : N) : string :=
  digits_fixed (ndigits (N.to_nat (N.log2 v)) v) v.

(** [a / d] rounded to the nearest integer, ties to even. *)
Definition round_half_even (a d : N) : N :=
  let q := (a / d)%N in
  let r := (a mod d)%N in
  match (2 * r ?= d)%N with
  | Lt => q
  | Gt => (q + 1)%N
  | Eq => if N.even q then q else (q + 1)%N
  end.

(** [|v| * 10^n] rounded to an integer. *)
Definition scaled (n : nat) (v : Q) : N :=
  round_half_even (Z.abs_N (Qnum v) * pow10 n) (Npos (Qden v)).

Definition fmt_fixed (n : nat) (v : Q) : string :=
  let m := scaled n v in
  (if (Qnum v <? 0)%Z then "-" else "")
  ++ digits_of_N (m / pow10 n)
  ++ match n with
     | O => ""
     | S _ => "." ++ digits_fixed n (m mod pow10 n)
     end.

Definition Qlt_bool (a b : Q) : bool := negb (Qle_bool b a).

(** ** Single precision

    The conversion of a [double] to [float]: to the nearest of the binary32
    numbers, ties to the one with an even significand.  The model has no
    infinity: a value beyond [FLT_MAX], for which the conversion has no
    defined result in C++, is rounded as if the exponent had no upper
    bound. *)

(** [floor (log2 |q|)] for [q] other than 0. *)
Definition ilog2 (q : Q) : Z :=
  let e := (Z.log2 (Z.abs (Qnum q)) - Z.log2 (Zpos (Qden q)))%Z in
  if Qle_bool (2 ^ e) (Qabs q) then e else (e - 1)%Z.

(** The nearest integer, ties to even. *)
Definition rne (v : Q) : Z :=
  let f := Qfloor v in
  match (2 * (v - inject_Z f) ?= 1)%Q with
  | Lt => f
  | Gt => (f + 1)%Z
  | Eq => if Z.even f then f else (f + 1)%Z
  end.

(** The exponent of the last place of the binary32 numbers around [q]:
    24 significant bits, and [2^-149] for the subnormal numbers. *)
Definition ulp_exp (q : Q) : Z := Z.max (ilog2 q - 23) (-149).

(** [m / 2^j] in lowest terms. *)
Fixpoint dyadic (m : Z) (j : nat) : Q :=
  match j with
  | O => inject_Z m
  | S j' => if Z.even m then dyadic (m / 2)%Z j' else (m # Pos.pow 2 (Pos.of_succ_nat j'))%Q
  end.

(** [static_cast<float> (q)]: the multiple of the last place nearest to
    [q], as a fraction in lowest terms. *)
Definition to_float (q : Q) : Q :=
  if Qeq_bool q 0 then 0%Q
  else
    let e := ulp_exp q in
    let m := rne (q / 2 ^ e) in
    if (0 <=? e)%Z then inject_Z (m * 2 ^ e) else dyadic m (Z.to_nat (- e)).

(** The largest binary32 number, [(2^24 - 1) * 2^104]. *)
Definition FLT_MAX : Q := inject_Z ((2 ^ 24 - 1) * 2 ^ 104).

(** [q] is the value of a finite [float]. *)
Definition is_float (q : Q) : bool :=
  Qeq_bool (to_float q) q && Qle_bool (Qabs q) FLT_MAX.

(** ** Data *)

(** [CARTA::RegionType]. *)
Inductive RegionType := POINT | LINE | POLYLINE | RECTANGLE | ELLIPSE | ANNULUS | POLYGON.

(** [CARTA::Point]: two [float]s. *)
Record Point := mkPoint { x : Q; y : Q }.

(** [point.set_x (vx); point.set_y (vy)] with [double] arguments. *)
Definition set_xy (vx vy : Q) : Point := mkPoint (to_float vx) (to_float vy).

(** [RegionState]; the fields in the order of the constructor the importer
    calls. *)
Record RegionState := mkRegionState {
  reference_file_id : Z;
  name : string;
  type : RegionType;
  control_points : list Point;
  rotation : Q
}.

(** [casacore::Quantity]: a value with its unit. *)
Record Quantity := mkQuantity { getValue : Q; getUnit : string }.

Definition setUnit (q : Quantity) (u : string) : Quantity :=
  {| getValue := getValue q; getUnit := u |}.

(** [Ds9Properties]: the defaults written in the file header, each as the
    text that [operator<<] prints for it. *)
Record Ds9Properties := mkDs9Properties {
  color : string;
  delete_region : string;
  edit_region : string;
  fixed_region : string;
  font : string;
  highlite_region : string;
  include_region : string;
  move_region : string;
  select_region : string
}.

(** The outcome of [std::stod (parameter, &idx)]. *)
Inductive StodResult :=
| StodIdx (idx : nat)
| StodInvalidArgument
| StodOutOfRange.

(** ** Collaborators

    What the translation unit calls and does not define: the base class
    [RegionImportExport] (tokenising, file reading, coordinate conversion),
    casacore ([readQuantity], unit conversion, the image's direction frame),
    the C++ library ([std::stod], [sscanf]) and fmt's default float format. *)
Class Collaborators := {
  VERSION_ID : string;
  globals : Ds9Properties;
  (** the frame name that [SetImageReferenceFrame] finds for the image *)
  image_reference_frame : string;
  (** [ReadRegionFile (file, file_is_filename, delim)] *)
  ReadRegionFile : string -> bool -> ascii -> list string;
  (** [ParseRegionParameters (definition, parameters, properties)] under
      the parser delimiters set by [SetParserDelim] *)
  ParseRegionParameters : string -> string -> list string * list (string * string);
  stod : string -> StodResult;
  (** whether one of the three [sscanf] patterns of
      [CheckAndConvertParameter] reads three numbers *)
  sscanf_hms : string -> bool;
  readQuantity : string -> option Quantity;
  ConvertPointToPixels : string -> list Quantity -> option (Q * Q);
  WorldToPixelLength : Quantity -> nat -> Q;
  (** [q.get (unit)] *)
  Quantity_get : Quantity -> string -> Quantity;
  (** [fmt::format ("{}", v)] for a [float] *)
  fmt_general : Q -> string
}.

(** ** The object and the effects of its methods *)

(** The data members of [Ds9ImportExport] (with those inherited from
    [RegionImportExport]).  [_coord_map] is kept in insertion order. *)
Record Ds9ImportExport := mkDs9 {
  _file_id : Z;
  _parser_delim : string;
  _image_ref_frame : string;
  _file_ref_frame : string;
  _pixel_coord : bool;
  _coord_map : list (string * string);
  _import_regions : list RegionState;
  _import_errors : string;
  _export_regions : list string
}.

Definition set_image_ref_frame (v : string) (this : Ds9ImportExport) : Ds9ImportExport :=
  mkDs9 (_file_id this) (_parser_delim this) v (_file_ref_frame this) (_pixel_coord this)
    (_coord_map this) (_import_regions this) (_import_errors this) (_export_regions this).

Definition set_file_ref_frame (v : string) (this : Ds9ImportExport) : Ds9ImportExport :=
  mkDs9 (_file_id this) (_parser_delim this) (_image_ref_frame this) v (_pixel_coord this)
    (_coord_map this) (_import_regions this) (_import_errors this) (_export_regions this).

Definition set_pixel_coord (v : bool) (this : Ds9ImportExport) : Ds9ImportExport :=
  mkDs9 (_file_id this) (_parser_delim this) (_image_ref_frame this) (_file_ref_frame this) v
    (_coord_map this) (_import_regions this) (_import_errors this) (_export_regions this).

Definition set_coord_map (v : list (string * string)) (this : Ds9ImportExport) : Ds9ImportExport :=
  mkDs9 (_file_id this) (_parser_delim this) (_image_ref_frame this) (_file_ref_frame this)
    (_pixel_coord this) v (_import_regions this) (_import_errors this) (_export_regions this).

Definition push_export (line : string) (this : Ds9ImportExport) : Ds9ImportExport :=
  mkDs9 (_file_id this) (_parser_delim this) (_image_ref_frame this) (_file_ref_frame this)
    (_pixel_coord this) (_coord_map this) (_import_regions this) (_import_errors this)
    (_export_regions this ++ [line]).

(** A call either returns, or indexes a vector out of range (no defined
    behaviour), or is left by an exception. *)
Inductive Res (A : Type) : Type :=
| Ok (a : A)
| Undefined
| Thrown (what : string).

Arguments Ok {A} a.
Arguments Undefined {A}.
Arguments Thrown {A} what.

(** The import methods below [SetRegion] read the object and only ever
    append to [_import_regions] and [_import_errors]; what they append is
    their effect. *)
Record Emit := mkEmit {
  new_regions : list RegionState;
  new_errors : string
}.

Definition M (A : Type) : Type := Res (A * Emit).

Definition ret {A : Type} (a : A) : M A := Ok (a, mkEmit [] "").

Definition bind {A B : Type} (m : M A) (k : A -> M B) : M B :=
  match m with
  | Ok (a, e1) =>
      match k a with
      | Ok (b, e2) =>
          Ok (b, mkEmit (new_regions e1 ++ new_regions e2) (new_errors e1 ++ new_errors e2))
      | Undefined => Undefined
      | Thrown w => Thrown w
      end
  | Undefined => Undefined
  | Thrown w => Thrown w
  end.

Notation "x <- m ;; k" := (bind m (fun x => k))
  (at level 61, m at next level, right associativity).

(** [_import_errors.append (msg)] and [_import_regions.push_back (r)]. *)
Definition append_error (msg : string) : M unit := Ok (tt, mkEmit [] msg).
Definition push_region (r : RegionState) : M unit := Ok (tt, mkEmit [r] "").

Definition commit (this : Ds9ImportExport) (e : Emit) : Ds9ImportExport :=
  mkDs9 (_file_id this) (_parser_delim this) (_image_ref_frame this) (_file_ref_frame this)
    (_pixel_coord this) (_coord_map this)
    (_import_regions this ++ new_regions e) (_import_errors this ++ new_errors e)
    (_export_regions this).

Definition run (this : Ds9ImportExport) (m : M unit) : Res Ds9ImportExport :=
  match m with
  | Ok (_, e) => Ok (commit this e)
  | Undefined => Undefined
  | Thrown w => Thrown w
  end.

(** [std::map] lookups on an association list. *)
Fixpoint map_find (k : string) (m : list (string * string)) : option string :=
  match m with
  | [] => None
  | (k', v) :: m' => if String.eqb k k' then Some v else map_find k m'
  end.

Definition map_count (k : string) (m : list (string * string)) : bool :=
  match map_find k m with Some _ => true | None => false end.

(** [m[k] = v]. *)
Fixpoint map_assign (k v : string) (m : list (string * string)) : list (string * string) :=
  match m with
  | [] => [(k, v)]
  | (k', v') :: m' => if String.eqb k k' then (k, v) :: m' else (k', v') :: map_assign k v m'
  end.

(** [Ds9ImportExport::ConvertTimeFormatToDeg]. *)
Fixpoint ConvertTimeFormatToDeg (parameter : string) : string :=
  match parameter with
  | EmptyString => EmptyString
  | String c t => String (if Ascii.eqb c ":" then "."%char else c) (ConvertTimeFormatToDeg t)
  end.

(** [Ds9ImportExport::InitDs9CoordMap]. *)
Definition InitDs9CoordMap (this : Ds9ImportExport) : Ds9ImportExport :=
  set_coord_map
    (map_assign "linear" "UNSUPPORTED"
    (map_assign "wcsa" "UNSUPPORTED"
    (map_assign "wcs" "UNSUPPORTED"
    (map_assign "icrs" "ICRS"
    (map_assign "ecliptic" "ECLIPTIC"
    (map_assign "galactic" "GALACTIC"
    (map_assign "fk5" "J2000"
    (map_assign "j2000" "J2000"
    (map_assign "fk4" "B1950"
    (map_assign "b1950" "B1950"
    (map_assign "image" ""
    (map_assign "physical" "" (_coord_map this))))))))))))) this.

(** [Ds9ImportExport::IsDs9CoordSysKeyword]. *)
Definition IsDs9CoordSysKeyword (this : Ds9ImportExport) (input_line : string) : bool :=
  map_count (tolower input_line) (_coord_map this).

Section Methods.

Context {collab : Collaborators}.

(** [Ds9ImportExport::SetImageReferenceFrame]. *)
Definition SetImageReferenceFrame (this : Ds9ImportExport) : Ds9ImportExport :=
  set_image_ref_frame image_reference_frame this.

(** [Ds9ImportExport::SetFileReferenceFrame]: the result, the line as the
    call leaves it (lowercased in place), and the object. *)
Definition SetFileReferenceFrame (ds9_coord : string) (this : Ds9ImportExport)
    : bool * string * Ds9ImportExport :=
  let this := set_file_ref_frame "UNSUPPORTED" this in
  let ds9_coord := tolower ds9_coord in
  let this :=
    match map_find ds9_coord (_coord_map this) with
    | Some frame =>
        let this := set_file_ref_frame frame this in
        if negb (String.eqb ds9_coord "physical") && negb (String.eqb ds9_coord "image") then
          let this := set_pixel_coord false this in
          if is_empty (_image_ref_frame this) then SetImageReferenceFrame this else this
        else this
    | None => this
    end in
  if String.eqb (_file_ref_frame this) "UNSUPPORTED" then
    (false, ds9_coord, set_pixel_coord false this)
  else (true, ds9_coord, this).

(** [Ds9ImportExport::CheckAndConvertParameter]: the result and the
    parameter as the call leaves it. *)
Definition CheckAndConvertParameter (parameter region_type : string) : M (bool * string) :=
  let error_prefix := region_type ++ " invalid parameter " in
  match stod parameter with
  | StodInvalidArgument =>
      _ <- append_error (error_prefix ++ parameter ++ ", not a numeric value." ++ nl) ;;
      ret (false, parameter)
  | StodOutOfRange => Thrown "std::out_of_range"
  | StodIdx idx =>
      let param_length := String.length parameter in
      if (param_length =? idx)%nat then ret (true, parameter)
      else if (param_length =? idx + 1)%nat then
        let unit := back parameter in
        let '(casacore_unit, valid) :=
          if Ascii.eqb unit "d" then ("deg", true)
          else if Ascii.eqb unit "r" then ("rad", true)
          else if Ascii.eqb unit "p" then ("pixel", true)
          else if Ascii.eqb unit "i" then ("pixel", true)
          else if Ascii.eqb unit dquote_char || Ascii.eqb unit squote_char then ("", true)
          else ("", false) in
        _ <- (if valid then ret tt
              else append_error (error_prefix ++ "unit: " ++ parameter ++ "." ++ nl)) ;;
        ret (valid,
             if is_empty casacore_unit then parameter
             else pop_back parameter ++ casacore_unit)
      else
        let valid := sscanf_hms parameter in
        _ <- (if valid then ret tt
              else append_error (error_prefix ++ "unit: " ++ parameter ++ "." ++ nl)) ;;
        ret (valid, parameter)
  end.

(** The loop "convert strings to Quantities" that each of the import
    methods runs over [parameters[i]], [i] counting up from [first]: it
    differs between them in the index whose text goes through
    [ConvertTimeFormatToDeg], in the unit given to a bare number, and in the
    wording of the message.  [None]: the method has returned from inside the
    loop. *)
Fixpoint param_loop (region_type : string) (is_time : nat -> bool)
    (default_unit : nat -> string) (invalid : string -> string)
    (params : list string) (i : nat) : M (option (list Quantity)) :=
  match params with
  | [] => ret (Some [])
  | p :: rest =>
      c <- CheckAndConvertParameter p region_type ;;
      let '(valid, param) := c in
      if valid then
        let param := if is_time i then ConvertTimeFormatToDeg param else param in
        match readQuantity param with
        | Some param_quantity =>
            let param_quantity :=
              if is_empty (getUnit param_quantity)
              then setUnit param_quantity (default_unit i)
              else param_quantity in
            r <- param_loop region_type is_time default_unit invalid rest (S i) ;;
            ret (option_map (cons param_quantity) r)
        | None =>
            _ <- append_error (invalid param) ;;
            ret None
        end
      else ret None
  end.

Definition point_of (qx qy : Quantity) : Point :=
  set_xy (getValue qx) (getValue qy).

(** [Ds9ImportExport::ImportPointRegion]. *)
Definition ImportPointRegion (this : Ds9ImportExport) (parameters : list string)
    (name : string) (exclude_region : bool) : M unit :=
  let nparam := List.length parameters in
  if (nparam <? 3)%nat
     || (negb (String.eqb (nth 0 parameters "") "point")
         && negb (String.eqb (nth 1 parameters "") "point"))
  then append_error ("point syntax error." ++ nl)
  else
    let first_param := if String.eqb (nth 1 parameters "") "point" then 2%nat else 1%nat in
    r <- param_loop "point"
           (fun i => (i =? first_param + 1)%nat)
           (fun _ => if _pixel_coord this then "pixel" else "deg")
           (fun param => "Invalid point parameter: " ++ param ++ "." ++ nl)
           (skipn first_param parameters) first_param ;;
    match r with
    | None => ret tt
    | Some param_quantities =>
        if _pixel_coord this then
          match param_quantities with
          | q0 :: q1 :: _ =>
              push_region (mkRegionState (_file_id this) name POINT [point_of q0 q1] 0)
          | _ => Undefined
          end
        else
          match ConvertPointToPixels (_file_ref_frame this) param_quantities with
          | Some (px, py) =>
              push_region (mkRegionState (_file_id this) name POINT [set_xy px py] 0)
          | None => append_error ("Failed to apply point to image." ++ nl)
          end
    end.

(** The DS9 default units of [ImportEllipseRegion] and
    [ImportRectangleRegion], by parameter index. *)
Definition ds9_units : list string := [""; "deg"; "deg"; "arcsec"; "arcsec"; "deg"].

(** The "control points in pixel coordinates" block shared, word for word,
    by [ImportEllipseRegion] and [ImportRectangleRegion]; [failed] is the
    message of the method.  [None]: the method has returned. *)
Definition center_and_size (this : Ds9ImportExport) (failed : string)
    (param_quantities : list Quantity) : M (option (list Point)) :=
  match param_quantities with
  | q0 :: q1 :: q2 :: q3 :: _ =>
      if _pixel_coord this then ret (Some [point_of q0 q1; point_of q2 q3])
      else
        match ConvertPointToPixels (_file_ref_frame this) [q0; q1] with
        | Some (px, py) =>
            ret (Some [set_xy px py;
                       set_xy (WorldToPixelLength q2 0) (WorldToPixelLength q3 1)])
        | None =>
            _ <- append_error failed ;;
            ret None
        end
  | _ => Undefined
  end.

(** [Ds9ImportExport::ImportEllipseRegion]. *)
Definition ImportEllipseRegion (this : Ds9ImportExport) (parameters : list string)
    (name : string) (exclude_region : bool) : M unit :=
  let nparam := List.length parameters in
  if (nparam =? 5)%nat || (nparam =? 6)%nat then
    let is_circle := String.eqb (nth 3 parameters "") (nth 4 parameters "") in
    r <- param_loop "ellipse"
           (fun i => (i =? 2)%nat)
           (fun i => if (i =? nparam - 1)%nat || negb (_pixel_coord this)
                     then nth i ds9_units "" else "pixel")
           (fun param => "Invalid ellipse parameter " ++ param ++ "." ++ nl)
           (skipn 1 parameters) 1 ;;
    match r with
    | None => ret tt
    | Some param_quantities =>
        c <- center_and_size this ("Failed to apply ellipse to image." ++ nl) param_quantities ;;
        match c with
        | None => ret tt
        | Some control_points =>
            let rotation :=
              if (5 <? nparam)%nat
              then match nth_error param_quantities 4 with
                   | Some q4 => to_float (getValue q4)
                   | None => 0%Q
                   end
              else 0%Q in
            let rotation :=
              if negb is_circle then
                let rotation := to_float (rotation - 90) in
                if Qlt_bool rotation 0 then to_float (rotation + 360) else rotation
              else rotation in
            push_region (mkRegionState (_file_id this) name ELLIPSE control_points rotation)
        end
    end
  else if (6 <? nparam)%nat then append_error ("Unsupported ellipse definition." ++ nl)
  else append_error ("ellipse syntax error." ++ nl).

(** [Ds9ImportExport::ImportCircleRegion]. *)
Definition ImportCircleRegion (this : Ds9ImportExport) (parameters : list string)
    (name : string) (exclude_region : bool) : M unit :=
  if (4 <=? List.length parameters)%nat then
    let ellipse_params :=
      ["ellipse"; nth 1 parameters ""; nth 2 parameters ""; nth 3 parameters "";
       nth 3 parameters ""] in
    ImportEllipseRegion this ellipse_params name exclude_region
  else append_error ("circle syntax error." ++ nl).

(** [Ds9ImportExport::ImportRectangleRegion]. *)
Definition ImportRectangleRegion (this : Ds9ImportExport) (parameters : list string)
    (name : string) (exclude_region : bool) : M unit :=
  let nparam := List.length parameters in
  if (nparam =? 5)%nat || (nparam =? 6)%nat then
    r <- param_loop "box"
           (fun i => (i =? 2)%nat)
           (fun i => if (i =? nparam - 1)%nat || negb (_pixel_coord this)
                     then nth i ds9_units "" else "pixel")
           (fun param => "Invalid box parameter: " ++ param ++ "." ++ nl)
           (skipn 1 parameters) 1 ;;
    match r with
    | None => ret tt
    | Some param_quantities =>
        c <- center_and_size this ("Failed to apply box to image." ++ nl) param_quantities ;;
        match c with
        | None => ret tt
        | Some control_points =>
            let rotation :=
              if (5 <? nparam)%nat
              then match nth_error param_quantities 4 with
                   | Some q4 => to_float (getValue q4)
                   | None => 0%Q
                   end
              else 0%Q in
            push_region (mkRegionState (_file_id this) name RECTANGLE control_points rotation)
        end
    end
  else if (6 <? nparam)%nat then append_error ("Unsupported box definition." ++ nl)
  else append_error ("box syntax error." ++ nl).

(** The "control points in pixel coordinates" loop of
    [ImportPolygonRegion], two quantities at a time.  [None]: the method has
    returned from inside the loop. *)
Fixpoint polygon_points (this : Ds9ImportExport) (param_quantities : list Quantity)
    : M (option (list Point)) :=
  match param_quantities with
  | [] => ret (Some [])
  | [_] => Undefined
  | q0 :: q1 :: rest =>
      if _pixel_coord this then
        r <- polygon_points this rest ;;
        ret (option_map (cons (point_of q0 q1)) r)
      else
        match ConvertPointToPixels (_file_ref_frame this) [q0; q1] with
        | Some (px, py) =>
            r <- polygon_points this rest ;;
            ret (option_map (cons (set_xy px py)) r)
        | None =>
            _ <- append_error ("Failed to apply polygon to image." ++ nl) ;;
            ret None
        end
  end.

(** [Ds9ImportExport::ImportPolygonRegion]. *)
Definition ImportPolygonRegion (this : Ds9ImportExport) (parameters : list string)
    (name : string) (exclude_region : bool) : M unit :=
  let nparam := List.length parameters in
  if negb (nparam mod 2 =? 1)%nat then
    append_error ("polygon syntax error, odd number of arguments." ++ nl)
  else
    r <- param_loop "polygon"
           (fun i => (i mod 2 =? 0)%nat)
           (fun _ => if _pixel_coord this then "pixel" else "deg")
           (fun param => "Invalid polygon parameter " ++ param ++ "." ++ nl)
           (skipn 1 parameters) 1 ;;
    match r with
    | None => ret tt
    | Some param_quantities =>
        c <- polygon_points this param_quantities ;;
        match c with
        | None => ret tt
        | Some control_points =>
            push_region (mkRegionState (_file_id this) name POLYGON control_points 0)
        end
    end.

(** [Ds9ImportExport::SetRegion]; [parameters[0]] of an empty vector has no
    defined behaviour. *)
Definition SetRegion (this : Ds9ImportExport) (region_definition : string) : M unit :=
  let '(parameters, properties) :=
    ParseRegionParameters (_parser_delim this) region_definition in
  match parameters with
  | [] => Undefined
  | parameters0 :: _ =>
      let region_type := parameters0 in
      let '(region_type, exclude_region) :=
        if Ascii.eqb (first_char region_type) "+" then (substr1 region_type, false)
        else if Ascii.eqb (first_char region_type) "-" then (substr1 region_type, true)
        else (region_type, false) in
      let region_name :=
        match map_find "text" properties with
        | Some v => v
        | None => ""
        end in
      if str_find "point" region_type then
        ImportPointRegion this parameters region_name exclude_region
      else if str_find "circle" region_type then
        ImportCircleRegion this parameters region_name exclude_region
      else if str_find "ellipse" region_type then
        ImportEllipseRegion this parameters region_name exclude_region
      else if str_find "box" region_type then
        ImportRectangleRegion this parameters region_name exclude_region
      else if str_find "polygon" region_type then
        ImportPolygonRegion this parameters region_name exclude_region
      else if str_find "line" region_type then
        append_error ("DS9 line region not supported." ++ nl)
      else if str_find "vector" region_type then
        append_error ("DS9 vector region not supported." ++ nl)
      else if str_find "text" region_type then
        append_error ("DS9 text not supported." ++ nl)
      else if str_find "annulus" region_type then
        append_error ("DS9 annulus region not supported." ++ nl)
      else ret tt
  end.

Definition add_import_error (msg : string) (this : Ds9ImportExport) : Ds9ImportExport :=
  commit this (mkEmit [] msg).

(** The loop of [Ds9ImportExport::ProcessFileLines], with its flag
    [ds9_coord_sys_ok]. *)
Fixpoint process_lines (lines : list string) (ds9_coord_sys_ok : bool)
    (this : Ds9ImportExport) : Res Ds9ImportExport :=
  match lines with
  | [] => Ok this
  | line :: rest =>
      if is_empty line then process_lines rest ds9_coord_sys_ok this
      else if Ascii.eqb (first_char line) "#" then process_lines rest ds9_coord_sys_ok this
      else if Ascii.eqb (first_char line) "-" then process_lines rest ds9_coord_sys_ok this
      else if str_find "global" line then process_lines rest ds9_coord_sys_ok this
      else if IsDs9CoordSysKeyword this line then
        let '(ok, line, this) := SetFileReferenceFrame line this in
        if ok then process_lines rest ok this
        else
          process_lines rest ok
            (add_import_error ("coord sys " ++ line ++ " not supported." ++ nl) this)
      else if ds9_coord_sys_ok then
        match run this (SetRegion this line) with
        | Ok this => process_lines rest ds9_coord_sys_ok this
        | Undefined => Undefined
        | Thrown w => Thrown w
        end
      else process_lines rest ds9_coord_sys_ok this
  end.

(** [Ds9ImportExport::ProcessFileLines]. *)
Definition ProcessFileLines (lines : list string) (this : Ds9ImportExport)
    : Res Ds9ImportExport :=
  match lines with
  | [] => Ok this
  | _ :: _ => process_lines lines true (InitDs9CoordMap this)
  end.

(** The members as the base-class constructor [RegionImportExport] leaves
    them: empty. *)
Definition RegionImportExport_init (file_id : Z) : Ds9ImportExport :=
  mkDs9 file_id "" "" "" false [] [] "" [].

(** The importing constructor. *)
Definition new_import (file_id : Z) (file : string) (file_is_filename : bool)
    : Res Ds9ImportExport :=
  let this := RegionImportExport_init file_id in
  let this := set_pixel_coord true (set_file_ref_frame "physical" this) in
  let this :=
    mkDs9 (_file_id this) " ,()#" (_image_ref_frame this) (_file_ref_frame this)
      (_pixel_coord this) (_coord_map this) (_import_regions this) (_import_errors this)
      (_export_regions this) in
  let lines := ReadRegionFile file file_is_filename ";" in
  ProcessFileLines lines this.

(** *** Export *)

Definition Res_bind {A B : Type} (r : Res A) (k : A -> Res B) : Res B :=
  match r with
  | Ok a => k a
  | Undefined => Undefined
  | Thrown w => Thrown w
  end.

(** [Ds9ImportExport::AddHeader]. *)
Definition AddHeader (this : Ds9ImportExport) : Ds9ImportExport :=
  let header :=
    "# Region file format: DS9 CARTA " ++ VERSION_ID ++ nl
    ++ "global color=" ++ color globals ++ " delete=" ++ delete_region globals
    ++ " edit=" ++ edit_region globals ++ " fixed=" ++ fixed_region globals
    ++ " font=" ++ dquote ++ font globals ++ dquote
    ++ " highlite=" ++ highlite_region globals ++ " include=" ++ include_region globals
    ++ " move=" ++ move_region globals ++ " select=" ++ select_region globals ++ nl in
  let this := push_export header this in
  let csys :=
    if is_empty (_file_ref_frame this) then "image" ++ nl
    else _file_ref_frame this ++ nl in
  push_export csys this.

(** The exporting constructor.  [file_id] stands for what the base-class
    constructor leaves in [_file_id]; no export method reads it.  The loop
    over [_coord_map] stops at the first entry whose value is the image
    frame; for B1950 and J2000, the only frames with several entries, the
    choice is then overwritten. *)
Definition new_export (file_id : Z) (pixel_coord : bool) : Ds9ImportExport :=
  let this := set_pixel_coord pixel_coord (RegionImportExport_init file_id) in
  let this :=
    if pixel_coord then set_file_ref_frame "physical" this
    else
      let this := SetImageReferenceFrame this in
      let this := InitDs9CoordMap this in
      let this :=
        match find (fun coord => String.eqb (snd coord) (_image_ref_frame this))
                   (_coord_map this) with
        | Some coord => set_file_ref_frame (fst coord) this
        | None => this
        end in
      if String.eqb (_image_ref_frame this) "B1950" then set_file_ref_frame "fk4" this
      else if String.eqb (_image_ref_frame this) "J2000" then set_file_ref_frame "fk5" this
      else this in
  AddHeader this.

(** The tail of both overloads of [AddExportRegion]: name, line end,
    [push_back]. *)
Definition finish_export_line (region_line name : string) (this : Ds9ImportExport)
    : bool * Ds9ImportExport :=
  let region_line :=
    if negb (is_empty name) then region_line ++ " # text={" ++ name ++ "}"
    else region_line in
  if negb (is_empty region_line) then (true, push_export (region_line ++ nl) this)
  else (false, this).

(** The [switch] of [AddExportRegion (const RegionState&)]: the text of the
    region before its name. *)
Definition region_line_of (region_state : RegionState) : Res string :=
  let points := control_points region_state in
  let angle := rotation region_state in
  let angle :=
    match type region_state with
    | ELLIPSE =>
        let angle := to_float (angle + 90) in
        if Qlt_bool 360 angle then to_float (angle - 360) else angle
    | _ => angle
    end in
  match type region_state with
  | POINT =>
      match points with
      | p0 :: _ => Ok ("point(" ++ fmt_fixed 2 (x p0) ++ ", " ++ fmt_fixed 2 (y p0) ++ ")")
      | _ => Undefined
      end
  | RECTANGLE =>
      match points with
      | p0 :: p1 :: _ =>
          Ok ("box(" ++ fmt_fixed 2 (x p0) ++ ", " ++ fmt_fixed 2 (y p0) ++ ", "
              ++ fmt_fixed 2 (x p1) ++ ", " ++ fmt_fixed 2 (y p1) ++ ", "
              ++ fmt_general angle ++ ")")
      | _ => Undefined
      end
  | ELLIPSE =>
      match points with
      | p0 :: p1 :: _ =>
          if Qeq_bool (x p1) (y p1) then
            Ok ("circle(" ++ fmt_fixed 2 (x p0) ++ ", " ++ fmt_fixed 2 (y p0) ++ ", "
                ++ fmt_fixed 2 (x p1) ++ ")")
          else if Qlt_bool 0 angle then
            Ok ("ellipse(" ++ fmt_fixed 2 (x p0) ++ ", " ++ fmt_fixed 2 (y p0) ++ ", "
                ++ fmt_fixed 2 (x p1) ++ ", " ++ fmt_fixed 2 (y p1) ++ ", "
                ++ fmt_general angle ++ ")")
          else
            Ok ("ellipse(" ++ fmt_fixed 2 (x p0) ++ ", " ++ fmt_fixed 2 (y p0) ++ ", "
                ++ fmt_fixed 2 (x p1) ++ ", " ++ fmt_fixed 2 (y p1) ++ ")")
      | _ => Undefined
      end
  | POLYGON =>
      match points with
      | p0 :: rest =>
          Ok ("polygon(" ++ fmt_fixed 2 (x p0) ++ ", " ++ fmt_fixed 2 (y p0)
              ++ String.concat ""
                   (map (fun p => "," ++ fmt_fixed 2 (x p) ++ "," ++ fmt_fixed 2 (y p)) rest)
              ++ ")")
      | _ => Undefined
      end
  | _ => Ok ""
  end.

(** [Ds9ImportExport::AddExportRegion (const RegionState&)]. *)
Definition AddExportRegion (region_state : RegionState) (this : Ds9ImportExport)
    : Res (bool * Ds9ImportExport) :=
  Res_bind (region_line_of region_state)
    (fun region_line => Ok (finish_export_line region_line (name region_state) this)).

Definition value_at (control_points : list Quantity) (i : nat) : Res Q :=
  match nth_error control_points i with
  | Some q => Ok (getValue q)
  | None => Undefined
  end.

(** The loop of the POLYGON case of [AddExportRegionPixel], from [i = 2]. *)
Fixpoint polygon_pairs (control_points : list Quantity) : Res string :=
  match control_points with
  | [] => Ok ""
  | [_] => Undefined
  | q0 :: q1 :: rest =>
      Res_bind (polygon_pairs rest)
        (fun s => Ok (", " ++ fmt_fixed 4 (getValue q0) ++ ", " ++ fmt_fixed 4 (getValue q1) ++ s))
  end.

(** [Ds9ImportExport::AddExportRegionPixel]. *)
Definition AddExportRegionPixel (type : RegionType) (control_points : list Quantity)
    (angle : Q) : Res string :=
  let v := value_at control_points in
  match type with
  | POINT =>
      Res_bind (v 0%nat) (fun v0 => Res_bind (v 1%nat) (fun v1 =>
        Ok ("point(" ++ fmt_fixed 4 v0 ++ ", " ++ fmt_fixed 4 v1 ++ ")")))
  | RECTANGLE =>
      Res_bind (v 0%nat) (fun v0 => Res_bind (v 1%nat) (fun v1 =>
      Res_bind (v 2%nat) (fun v2 => Res_bind (v 3%nat) (fun v3 =>
        Ok ("box(" ++ fmt_fixed 4 v0 ++ ", " ++ fmt_fixed 4 v1 ++ ", " ++ fmt_fixed 4 v2
            ++ ", " ++ fmt_fixed 4 v3 ++ ", " ++ fmt_general angle ++ ")")))))
  | ELLIPSE =>
      Res_bind (v 0%nat) (fun v0 => Res_bind (v 1%nat) (fun v1 =>
      Res_bind (v 2%nat) (fun v2 => Res_bind (v 3%nat) (fun v3 =>
        if Qeq_bool v2 v3 then
          Ok ("circle(" ++ fmt_fixed 4 v0 ++ ", " ++ fmt_fixed 4 v1 ++ ", " ++ fmt_fixed 4 v2
              ++ dquote ++ ")")
        else if Qeq_bool angle 0 then
          Ok ("ellipse(" ++ fmt_fixed 4 v0 ++ ", " ++ fmt_fixed 4 v1 ++ ", " ++ fmt_fixed 4 v2
              ++ ", " ++ fmt_fixed 4 v3 ++ ")")
        else
          Ok ("ellipse(" ++ fmt_fixed 4 v0 ++ ", " ++ fmt_fixed 4 v1 ++ ", " ++ fmt_fixed 4 v2
              ++ ", " ++ fmt_fixed 4 v3 ++ ", " ++ fmt_general angle ++ ")")))))
  | POLYGON =>
      Res_bind (v 0%nat) (fun v0 => Res_bind (v 1%nat) (fun v1 =>
      Res_bind (polygon_pairs (skipn 2 control_points)) (fun s =>
        Ok ("polygon(" ++ fmt_fixed 4 v0 ++ ", " ++ fmt_fixed 4 v1 ++ s ++ ")"))))
  | _ => Ok ""
  end.

(** [Ds9ImportExport::AddExportRegionWorld]: in linear coordinates (empty
    [_file_ref_frame]) the values are printed as they are, otherwise after
    conversion to degrees (positions) or arc seconds (sizes). *)
Definition AddExportRegionWorld (this : Ds9ImportExport) (type : RegionType)
    (control_points : list Quantity) (angle : Q) : Res string :=
  let conv (u : string) (q : Quantity) : Quantity :=
    if is_empty (_file_ref_frame this) then q else Quantity_get q u in
  let pos := value_at (map (conv "deg") control_points) in
  let len := value_at (map (conv "arcsec") control_points) in
  match type with
  | POINT =>
      Res_bind (pos 0%nat) (fun v0 => Res_bind (pos 1%nat) (fun v1 =>
        Ok ("point(" ++ fmt_fixed 6 v0 ++ ", " ++ fmt_fixed 6 v1 ++ ")")))
  | RECTANGLE =>
      Res_bind (pos 0%nat) (fun v0 => Res_bind (pos 1%nat) (fun v1 =>
      Res_bind (len 2%nat) (fun v2 => Res_bind (len 3%nat) (fun v3 =>
        Ok ("box(" ++ fmt_fixed 6 v0 ++ ", " ++ fmt_fixed 6 v1 ++ ", " ++ fmt_fixed 4 v2
            ++ dquote ++ ", " ++ fmt_fixed 4 v3 ++ dquote ++ ", " ++ fmt_general angle
            ++ ")")))))
  | ELLIPSE =>
      Res_bind (value_at control_points 2%nat) (fun r2 =>
      Res_bind (value_at control_points 3%nat) (fun r3 =>
      Res_bind (pos 0%nat) (fun v0 => Res_bind (pos 1%nat) (fun v1 =>
      Res_bind (len 2%nat) (fun v2 => Res_bind (len 3%nat) (fun v3 =>
        if Qeq_bool r2 r3 then
          Ok ("circle(" ++ fmt_fixed 6 v0 ++ ", " ++ fmt_fixed 6 v1 ++ ", " ++ fmt_fixed 4 v2
              ++ dquote ++ ")")
        else
          Ok ("ellipse(" ++ fmt_fixed 6 v0 ++ ", " ++ fmt_fixed 6 v1 ++ ", " ++ fmt_fixed 4 v2
              ++ dquote ++ ", " ++ fmt_fixed 4 v3 ++ dquote ++ ", " ++ fmt_general angle
              ++ ")")))))))
  | POLYGON =>
      Res_bind (pos 0%nat) (fun v0 =>
        Ok ("polygon(" ++ fmt_fixed 6 v0
            ++ String.concat ""
                 (map (fun q => "," ++ fmt_fixed 6 (getValue (conv "deg" q)))
                      (skipn 1 control_points))
            ++ ")"))
  | _ => Ok ""
  end.

(** [Ds9ImportExport::AddExportRegion (name, type, control_points, rotation)]. *)
Definition AddExportRegion_Quantity (name : string) (type : RegionType)
    (control_points : list Quantity) (rotation : Quantity) (this : Ds9ImportExport)
    : Res (bool * Ds9ImportExport) :=
  let angle := to_float (getValue (Quantity_get rotation "deg")) in
  Res_bind
    (if _pixel_coord this then AddExportRegionPixel type control_points angle
     else AddExportRegionWorld this type control_points angle)
    (fun region => Ok (finish_export_line region name this)).

(** [Ds9ImportExport::ExportRegions (std::vector<std::string>& contents,
    std::string& error)]: the result with [contents] and [error] as the call
    leaves them. *)
Definition ExportRegions (this : Ds9ImportExport) (contents : list string) (error : string)
    : bool * list string * string :=
  match _export_regions this with
  | [] => (false, contents, "Export region failed: no regions to export.")
  | _ :: _ => (true, _export_regions this, error)
  end.

(** [Ds9ImportExport::ExportRegions (std::string& filename, std::string&
    error)]: the result, the text sent to the file stream ([None]: none
    opened) and [error]. *)
Definition ExportRegions_file (this : Ds9ImportExport) (filename : string) (error : string)
    : bool * option string * string :=
  match _export_regions this with
  | [] => (false, None, "Export region failed: no regions to export.")
  | _ :: _ => (true, Some (String.concat "" (_export_regions this)), error)
  end.

(** The calls a client makes on an exporter between construction and
    [ExportRegions]. *)
Inductive ExportCall :=
| CallAddState (region_state : RegionState)
| CallAddQuantity (name : string) (type : RegionType)
    (control_points : list Quantity) (rotation : Quantity).

Definition export_call (this : Ds9ImportExport) (c : ExportCall) : Res (bool * Ds9ImportExport) :=
  match c with
  | CallAddState region_state => AddExportRegion region_state this
  | CallAddQuantity name type control_points rotation =>
      AddExportRegion_Quantity name type control_points rotation this
  end.

Fixpoint export_calls (this : Ds9ImportExport) (cs : list ExportCall) : Res Ds9ImportExport :=
  match cs with
  | [] => Ok this
  | c :: cs' => Res_bind (export_call this c) (fun r => export_calls (snd r) cs')
  end.

End Methods.

(** ** A reference set of collaborators

    A concrete instance on which the translation unit runs: files are given
    as text, region lines follow the DS9 layout "definition # properties",
    numbers are plain decimal numerals, and the image has no celestial
    coordinate system.  *)

Module Plain.

Definition is_digit (c : ascii) : bool :=
  ((48 <=? N_of_ascii c) && (N_of_ascii c <=? 57))%N.

Definition digit_val (c : ascii) : N := (N_of_ascii c - 48)%N.

(** Reads a run of digits: the number read after [acc], how many digits,
    and the rest. *)
Fixpoint scan_digits (s : string) (acc : N) (cnt : nat) : N * nat * string :=
  match s with
  | String c rest =>
      if is_digit c then scan_digits rest (10 * acc + digit_val c)%N (S cnt)
      else (acc, cnt, s)
  | EmptyString => (acc, cnt, s)
  end.

Definition is_space (c : ascii) : bool :=
  let n := N_of_ascii c in ((n =? 32) || ((9 <=? n) && (n <=? 13)))%N.

Fixpoint skip_spaces (s : string) : string :=
  match s with
  | String c rest => if is_space c then skip_spaces rest else s
  | EmptyString => s
  end.

Definition scan_sign (s : string) : bool * string :=
  match s with
  | String c rest =>
      if Ascii.eqb c "-" then (true, rest)
      else if Ascii.eqb c "+" then (false, rest)
      else (false, s)
  | EmptyString => (false, s)
  end.

Definition scan_exponent (s : string) : Z * string :=
  match s with
  | String c rest =>
      if Ascii.eqb c "e" || Ascii.eqb c "E" then
        let '(neg, r1) := scan_sign rest in
        let '(ev, ne, r2) := scan_digits r1 0 0 in
        if (ne =? 0)%nat then (0, s)
        else ((if neg then - Z.of_N ev else Z.of_N ev), r2)
      else (0, s)
  | EmptyString => (0, s)
  end.

Definition decimal_value (neg : bool) (mantissa : N) (nfrac : nat) (e : Z) : Q :=
  ((if neg then -1 else 1)
   * (inject_Z (Z.of_N mantissa) / inject_Z (Z.of_N (pow10 nfrac)))
   * Qpower 10 e)%Q.

(** The longest decimal numeral at the head of [s] (after white space), as
    [strtod] reads it: its value and what follows it. *)
Definition scan_number (s : string) : option (Q * string) :=
  let '(neg, s1) := scan_sign (skip_spaces s) in
  let '(ip, ni, s2) := scan_digits s1 0 0 in
  let '(fp, nf, s3) :=
    match s2 with
    | String c rest => if Ascii.eqb c "." then scan_digits rest 0 0 else (0%N, 0%nat, s2)
    | EmptyString => (0%N, 0%nat, s2)
    end in
  if (ni + nf =? 0)%nat then None
  else
    let '(e, s4) := scan_exponent s3 in
    Some (decimal_value neg (ip * pow10 nf + fp) nf e, s4).

(** [std::stod] on decimal numerals ([strtod]'s "inf", "nan" and hexadecimal
    forms, and its range errors, are outside this instance). *)
Definition stod (s : string) : StodResult :=
  match scan_number s with
  | Some (_, rest) => StodIdx (String.length s - String.length rest)
  | None => StodInvalidArgument
  end.

(** The units this instance accepts after a number. *)
Definition known_units : list string :=
  [""; "deg"; "rad"; "pixel"; "arcsec"; "arcmin"; dquote; String squote_char ""].

Definition readQuantity (s : string) : option Quantity :=
  match scan_number s with
  | Some (v, rest) =>
      if existsb (String.eqb rest) known_units then Some (mkQuantity v rest) else None
  | None => None
  end.

(** Three numbers separated by [sep1] and [sep2], and closed by [sep3] when
    it is given. *)
Definition three_numbers (sep1 sep2 : ascii) (s : string) : bool :=
  match scan_number s with
  | Some (_, String c1 r1) =>
      Ascii.eqb c1 sep1
      && match scan_number r1 with
         | Some (_, String c2 r2) =>
             Ascii.eqb c2 sep2
             && match scan_number r2 with Some _ => true | None => false end
         | _ => false
         end
  | _ => false
  end.

Definition sscanf_hms (s : string) : bool :=
  three_numbers ":" ":" s || three_numbers "h" "m" s || three_numbers "d" "m" s.

(** Splits at the delimiters, dropping empty items; [cur] is the item being
    read. *)
Fixpoint tokenize (delim : string) (s cur : string) : list string :=
  match s with
  | EmptyString => if is_empty cur then [] else [cur]
  | String c rest =>
      if mem_char c delim
      then (if is_empty cur then [] else [cur]) ++ tokenize delim rest ""
      else tokenize delim rest (cur ++ String c "")
  end.

Fixpoint before_hash (s : string) : string :=
  match s with
  | EmptyString => EmptyString
  | String c rest => if Ascii.eqb c "#" then EmptyString else String c (before_hash rest)
  end.

Fixpoint after_hash (s : string) : string :=
  match s with
  | EmptyString => EmptyString
  | String c rest => if Ascii.eqb c "#" then rest else after_hash rest
  end.

(** The reader of [keyword=value] properties: in a keyword, at the start of
    a value, in a value closed by a given character, or in a bare value. *)
Inductive PropState :=
| InKey (key : string)
| ValueStart (key : string)
| InValue (key : string) (close : ascii) (acc : string)
| InBare (key : string) (acc : string).

Fixpoint read_properties (s : string) (st : PropState) : list (string * string) :=
  match s with
  | EmptyString =>
      match st with
      | InValue key _ acc | InBare key acc => [(key, acc)]
      | ValueStart key => [(key, "")]
      | InKey _ => []
      end
  | String c rest =>
      match st with
      | InKey key =>
          if Ascii.eqb c "=" then read_properties rest (ValueStart key)
          else if is_space c then read_properties rest (InKey "")
          else read_properties rest (InKey (key ++ String c ""))
      | ValueStart key =>
          if Ascii.eqb c "{" then read_properties rest (InValue key "}" "")
          else if Ascii.eqb c dquote_char then read_properties rest (InValue key dquote_char "")
          else if Ascii.eqb c squote_char then read_properties rest (InValue key squote_char "")
          else if is_space c then (key, "") :: read_properties rest (InKey "")
          else read_properties rest (InBare key (String c ""))
      | InValue key close acc =>
          if Ascii.eqb c close then (key, acc) :: read_properties rest (InKey "")
          else read_properties rest (InValue key close (acc ++ String c ""))
      | InBare key acc =>
          if is_space c then (key, acc) :: read_properties rest (InKey "")
          else read_properties rest (InBare key (acc ++ String c ""))
      end
  end.

(** Modelled from the spec: [RegionImportExport::ParseRegionParameters] is
    not among the sources.  The spec calls the importer a "pure text ⇄
    RegionState translator"; the constructor sets the delimiters [" ,()#"]
    and [SetRegion] expects the region word first, the numbers after it and
    the [text] property apart.  A DS9 line is "definition # properties": the
    definition is split at the delimiters, the properties are read as
    [keyword=value]. *)
Definition ParseRegionParameters (delim region_definition : string)
    : list string * list (string * string) :=
  (tokenize delim (before_hash region_definition) "",
   read_properties (after_hash region_definition) (InKey "")).

(** Splits a text into lines at line feeds and at [delim]. *)
Fixpoint split_lines (delim : ascii) (s cur : string) : list string :=
  match s with
  | EmptyString => if is_empty cur then [] else [cur]
  | String c rest =>
      if Ascii.eqb c (ascii_of_nat 10) || Ascii.eqb c delim
      then cur :: split_lines delim rest ""
      else split_lines delim rest (cur ++ String c "")
  end.

(** Modelled from the spec: [RegionImportExport::ReadRegionFile] is not
    among the sources.  The importer "may report per-line parse errors": the
    file contents are cut into lines, and at the extra delimiter that the
    DS9 constructor passes.  This instance has no file system: a file name
    yields no lines. *)
Definition ReadRegionFile (file : string) (file_is_filename : bool) (delim : ascii)
    : list string :=
  if file_is_filename then [] else split_lines delim file "".

(** The least [k], from [k0] on and within [fuel] steps, for which
    [v * 10^k] is an integer. *)
Fixpoint find_scale (fuel k0 : nat) (v : Q) : nat :=
  match fuel with
  | O => k0
  | S f =>
      if ((Qnum v * Z.of_N (pow10 k0)) mod Zpos (Qden v) =? 0)%Z then k0
      else find_scale f (S k0) v
  end.

(** fmt's default format writes a float so that reading the text gives the
    float back.  On exact values this is the full decimal expansion, which
    every binary float has. *)
Definition fmt_general (v : Q) : string :=
  fmt_fixed (find_scale (Pos.size_nat (Qden v)) 0 v) v.

#[export] Instance collaborators : Collaborators := {|
  VERSION_ID := "1.2";
  globals :=
    mkDs9Properties "green" "1" "1" "0" "helvetica 10 normal roman" "1" "1" "1" "1";
  image_reference_frame := "physical";
  Ds9.ReadRegionFile := ReadRegionFile;
  Ds9.ParseRegionParameters := ParseRegionParameters;
  Ds9.stod := stod;
  Ds9.sscanf_hms := sscanf_hms;
  Ds9.readQuantity := readQuantity;
  ConvertPointToPixels := fun _ _ => None;
  WorldToPixelLength := fun _ _ => 0%Q;
  Quantity_get := fun q _ => q;
  Ds9.fmt_general := fmt_general
|}.

(** An importer as the importing constructor sets it up, before any line is
    processed. *)
Definition importer (file_id : Z) : Ds9ImportExport :=
  mkDs9 file_id " ,()#" "" "physical" true [] [] "" [].

End Plain.

End Ds9.

(* ===================================================================== *)
(** * Part III: properties of RegionStats                                 *)
(* ===================================================================== *)

Module RegionStatsProps.

Import RegionStats.

Lemma stored_lookup (rs : RegionStats) (chan stokes nBins : Z) :
  stored rs chan stokes nBins = true ->
  exists h, m_channelHistograms rs chan = Some h
            /\ m_stokes rs = stokes /\ m_bins rs = nBins.
Proof.
  unfold stored, cm_count. intros H.
  apply andb_prop in H. destruct H as [H Hb].
  apply andb_prop in H. destruct H as [Hc Hs].
  apply Z.eqb_eq in Hb. apply Z.eqb_eq in Hs.
  destruct (m_channelHistograms rs chan) as [h|]; [|discriminate].
  exists h. auto.
Qed.

(** Every histogram in the store sits under its own channel. *)
Definition keyed_by_channel (rs : RegionStats) : Prop :=
  forall c h, m_channelHistograms rs c = Some h -> channel h = c.

Lemma run_call_keyed (rs : RegionStats) (c : HistCall) :
  keyed_by_channel rs -> keyed_by_channel (snd (run_call rs c)).
Proof.
  intros Hk. destruct c as [data chan stokes nBins lo hi | chan stokes nBins]; simpl; [|exact Hk].
  unfold fillHistogram. destruct (stored rs chan stokes nBins); simpl; [exact Hk|].
  intros c h. unfold cm_assign. simpl.
  destruct (Z.eqb_spec c chan) as [->|Hne].
  - intros E. inversion E. reflexivity.
  - apply Hk.
Qed.

Lemma run_calls_keyed (cs : list HistCall) (rs : RegionStats) :
  keyed_by_channel rs -> keyed_by_channel (run_calls rs cs).
Proof.
  revert rs. induction cs as [|c cs IH]; intros rs Hk; simpl; [exact Hk|].
  apply IH. apply run_call_keyed. exact Hk.
Qed.

(** The channel part of the cache key does hold: after any run of calls, a
    histogram handed out for a channel was computed for that channel. *)
Lemma getChannelHistogram_channel (cs : list HistCall) (rs : RegionStats)
    (chan stokes nBins : Z) (h : Histogram) :
  keyed_by_channel rs ->
  getChannelHistogram (run_calls rs cs) chan stokes nBins = Some h ->
  channel h = chan.
Proof.
  intros Hk. unfold getChannelHistogram.
  destruct (stored (run_calls rs cs) chan stokes nBins); [|discriminate].
  apply (run_calls_keyed cs rs Hk).
Qed.

(** C1.  The stokes and bin-count parts of the cache key do not hold.  Start
    from an empty store (whatever [m_stokes] and [m_bins] hold); fill channel
    0 for stokes 0 with 10 bins, then channel 1 for stokes 1 with 20 bins.
    The query (channel 0, stokes 1, 20 bins) is then answered with the
    histogram of the first call, computed for stokes 0 with 10 bins: the
    second call replaced the side fields [m_stokes] and [m_bins] and left the
    entry of channel 0 in the map. *)
Theorem stale_histogram_after_stokes_and_bins_change :
  forall (stokes0 bins0 : Z) (data0 data1 : list Q),
    let rs0 := mkRegionStats [] cm_empty stokes0 bins0 [] in
    let first := fillHistogram rs0 data0 0 0 10 0 1 in
    let second := fillHistogram (snd first) data1 1 1 20 0 1 in
    getChannelHistogram (snd second) 0 1 20 = fst first
    /\ fst first
       = Some (mkHistogram 0 10 (HistogramClass.getBinWidth 10 0 1)
                 (0 + HistogramClass.getBinWidth 10 0 1 / 2)
                 (HistogramClass.getHistogram 10 0 1 data0))
    /\ option_map num_bins (getChannelHistogram (snd second) 0 1 20) = Some 10.
Proof.
  intros stokes0 bins0 data0 data1. cbv zeta.
  assert (E1 : stored (mkRegionStats [] cm_empty stokes0 bins0 []) 0 0 10 = false)
    by reflexivity.
  unfold fillHistogram at 2 4 6. rewrite E1. cbn [fst snd].
  unfold fillHistogram.
  match goal with |- context [stored ?s 1 1 20] =>
    assert (E2 : stored s 1 1 20 = false) by reflexivity; rewrite E2 end.
  cbn [fst snd]. unfold getChannelHistogram.
  match goal with |- context [stored ?s 0 1 20] =>
    assert (E3 : stored s 0 1 20 = true) by reflexivity; rewrite E3 end.
  repeat split; reflexivity.
Qed.

Section StatisticsProps.

Variable SubLattice : Type.
Variable cast_StatsType : Z -> StatsType.
Variable getStatistic : SubLattice -> LatticeStatsType -> list Q.
Variable getMinMaxPos : SubLattice -> list Z * list Z.
Variable slicer_start : SubLattice -> list Z.
Variable slicer_end : SubLattice -> list Z.

(** C5.  With no requirements set, [fillStatsData] returns for every
    sub-lattice: it appends the single entry of type [None] to the message
    (so a fresh message holds exactly that entry) and makes no call to the
    statistics engine. *)
Theorem fillStatsData_no_requirements :
  forall (rs : RegionStats) (statsData : RegionStatsData) (subLattice : SubLattice),
    m_regionStats rs = [] ->
    fillStatsData SubLattice cast_StatsType getStatistic getMinMaxPos slicer_start slicer_end
      rs statsData subLattice
    = (Some (statsData ++ [mkStatisticsValue None_ 0]), [])
    /\ fillStatsData SubLattice cast_StatsType getStatistic getMinMaxPos slicer_start slicer_end
         rs [] subLattice
       = (Some [mkStatisticsValue None_ 0], []).
Proof.
  intros rs statsData subLattice Hempty.
  unfold fillStatsData. rewrite Hempty. split; reflexivity.
Qed.

End StatisticsProps.

Lemma fillStatsData_no_requirements_witness :
  m_regionStats (setStatsRequirements (mkRegionStats [] cm_empty 0 0 [1; 3]) []) = []
  /\ fillStatsData unit (fun _ => Mean) (fun _ _ => [1%Q]) (fun _ => ([], []))
       (fun _ => []) (fun _ => [])
       (setStatsRequirements (mkRegionStats [] cm_empty 0 0 [1; 3]) []) [] tt
     = (Some [mkStatisticsValue None_ 0], []).
Proof.
  split; [reflexivity|].
  apply (fillStatsData_no_requirements unit (fun _ => Mean) (fun _ _ => [1%Q])
           (fun _ => ([], [])) (fun _ => []) (fun _ => [])
           (setStatsRequirements (mkRegionStats [] cm_empty 0 0 [1; 3]) []) [] tt).
  reflexivity.
Defined.

(** C7.  When [fillHistogram] computes a histogram (the store does not
    answer the request) for [nBins >= 1] bins over [[minVal, maxVal]], the
    histogram it reports has bin width [(maxVal - minVal) / nBins] and first
    bin centre [minVal + width / 2]; it carries the channel and bin count of
    the request, and it is the entry the store then holds for that request. *)
Theorem fillHistogram_bin_width_and_first_center :
  forall (rs : RegionStats) (data : list Q) (chan stokes nBins : Z) (minVal maxVal : Q),
    1 <= nBins ->
    stored rs chan stokes nBins = false ->
    exists h,
      fst (fillHistogram rs data chan stokes nBins minVal maxVal) = Some h
      /\ (bin_width h == (maxVal - minVal) / inject_Z nBins)%Q
      /\ (first_bin_center h == minVal + bin_width h / 2)%Q
      /\ num_bins h = nBins /\ channel h = chan
      /\ getChannelHistogram (snd (fillHistogram rs data chan stokes nBins minVal maxVal))
           chan stokes nBins = Some h.
Proof.
  intros rs data chan stokes nBins minVal maxVal Hbins Hmiss.
  unfold fillHistogram. rewrite Hmiss. cbn [fst snd].
  eexists. split; [reflexivity|]. cbn [bin_width first_bin_center num_bins channel].
  unfold HistogramClass.getBinWidth.
  repeat split; try reflexivity.
  unfold getChannelHistogram, stored, cm_count, cm_assign. cbn.
  rewrite !Z.eqb_refl. reflexivity.
Qed.

Lemma fillHistogram_bin_width_and_first_center_witness :
  exists h,
    fst (fillHistogram (mkRegionStats [] cm_empty 0 0 []) [1#2; 3#2; 7#4] 3 0 4 0 2) = Some h
    /\ (bin_width h == (2 - 0) / inject_Z 4)%Q
    /\ (first_bin_center h == 0 + bin_width h / 2)%Q
    /\ num_bins h = 4 /\ channel h = 3
    /\ getChannelHistogram
         (snd (fillHistogram (mkRegionStats [] cm_empty 0 0 []) [1#2; 3#2; 7#4] 3 0 4 0 2))
         3 0 4 = Some h.
Proof.
  apply (fillHistogram_bin_width_and_first_center
           (mkRegionStats [] cm_empty 0 0 []) [1#2; 3#2; 7#4] 3 0 4 0 2).
  - lia.
  - reflexivity.
Defined.

End RegionStatsProps.

(* ===================================================================== *)
(** * Part IV: properties of Ds9ImportExport                              *)
(* ===================================================================== *)

(** ** Single precision: what [to_float] does *)

Module SingleProps.

Import Ds9.

Local Open Scope Q_scope.

Lemma pow2_pos (e : Z) : 0 < 2 ^ e.
Proof. apply Qpower_0_lt. reflexivity. Qed.

Lemma pow2_plus (a b : Z) : 2 ^ (a + b) == 2 ^ a * 2 ^ b.
Proof. apply Qpower_plus. discriminate. Qed.

Lemma pow2_succ (a : Z) : 2 ^ (a + 1) == 2 * 2 ^ a.
Proof. rewrite pow2_plus. change (2 ^ 1) with 2. ring. Qed.

Lemma pow2_le (a b : Z) : (a <= b)%Z -> 2 ^ a <= 2 ^ b.
Proof. intros H. apply Qpower_le_compat_l; [exact H|]. discriminate. Qed.

Lemma pow2_lt (a b : Z) : (a < b)%Z -> 2 ^ a < 2 ^ b.
Proof. intros H. apply Qpower_lt_compat_l; [exact H|]. reflexivity. Qed.

Lemma pow2_lt_inv (a b : Z) : 2 ^ a < 2 ^ b -> (a < b)%Z.
Proof. intros H. apply (Qpower_lt_compat_l_inv 2); [exact H|reflexivity]. Qed.

Lemma pow2_inject (a : Z) : (0 <= a)%Z -> inject_Z (2 ^ a) == 2 ^ a.
Proof. intros H. rewrite (Zpower_Qpower 2 a H). reflexivity. Qed.

(** An integer multiple of [2^e]. *)
Definition on_grid (e : Z) (q : Q) : Prop := exists m : Z, q == inject_Z m * 2 ^ e.

(** A value that binary32 holds, but for the upper end of its range. *)
Definition representable (q : Q) : Prop :=
  exists (m e : Z), (Z.abs m <= 2 ^ 24)%Z /\ (-149 <= e)%Z /\ q == inject_Z m * 2 ^ e.


Lemma representable_comp (q q' : Q) : q == q' -> representable q -> representable q'.
Proof. intros E (m & e & H1 & H2 & H). exists m, e. rewrite <- E. auto. Qed.

Lemma on_grid_finer (e e' : Z) (q : Q) : (e' <= e)%Z -> on_grid e q -> on_grid e' q.
Proof.
  intros Hle [m H]. exists (m * 2 ^ (e - e'))%Z.
  rewrite H, inject_Z_mult, (pow2_inject (e - e')) by lia.
  replace e with ((e - e') + e')%Z at 1 by lia. rewrite pow2_plus. ring.
Qed.





Lemma Qabs_inject_Z (m : Z) : Qabs (inject_Z m) == inject_Z (Z.abs m).
Proof. reflexivity. Qed.

Lemma on_grid_representable (e : Z) (q : Q) :
  on_grid e q -> (-149 <= e)%Z -> Qabs q <= 2 ^ (e + 24) -> representable q.
Proof.
  intros [m H] He Hq. exists m, e. split; [|split; [exact He|exact H]].
  rewrite H, Qabs_Qmult, (Qabs_pos (2 ^ e)), pow2_plus in Hq
    by (apply Qlt_le_weak, pow2_pos).
  rewrite (Qmult_comm (2 ^ e)) in Hq.
  apply Qmult_le_r in Hq; [|apply pow2_pos].
  rewrite Qabs_inject_Z in Hq. rewrite <- (pow2_inject 24) in Hq by lia.
  rewrite <- Zle_Qle in Hq. exact Hq.
Qed.

(** *** Rounding to an integer *)

Lemma rne_cases (v : Q) :
  let f := Qfloor v in
  (rne v = f /\ 2 * (v - inject_Z f) <= 1) \/ (rne v = (f + 1)%Z /\ 1 <= 2 * (v - inject_Z f)).
Proof.
  cbv zeta. unfold rne.
  destruct (Qcompare_spec (2 * (v - inject_Z (Qfloor v))) 1) as [E|L|G].
  - destruct (Z.even (Qfloor v)); [left|right]; (split; [reflexivity|]); rewrite E;
      apply Qle_refl.
  - left. split; [reflexivity|apply Qlt_le_weak; exact L].
  - right. split; [reflexivity|apply Qlt_le_weak; exact G].
Qed.

Lemma rne_nearest (v : Q) (k : Z) :
  Qabs (inject_Z (rne v) - v) <= Qabs (inject_Z k - v).
Proof.
  pose proof (Qfloor_le v) as Hlo. pose proof (Qlt_floor v) as Hhi.
  rewrite inject_Z_plus in Hhi. change (inject_Z 1) with 1 in Hhi.
  assert (Hk : (k <= Qfloor v)%Z \/ (Qfloor v + 1 <= k)%Z) by lia.
  assert (Hk' : inject_Z k <= inject_Z (Qfloor v) \/ inject_Z (Qfloor v) + 1 <= inject_Z k).
  { destruct Hk as [Hk|Hk]; [left|right].
    - rewrite <- Zle_Qle. exact Hk.
    - change 1 with (inject_Z 1). rewrite <- inject_Z_plus, <- Zle_Qle. exact Hk. }
  destruct (rne_cases v) as [[-> H]|[-> H]].
  - rewrite (Qabs_neg (inject_Z (Qfloor v) - v)) by lra.
    destruct Hk' as [Hk'|Hk'].
    + rewrite (Qabs_neg (inject_Z k - v)) by lra. lra.
    + rewrite (Qabs_pos (inject_Z k - v)) by lra. lra.
  - rewrite inject_Z_plus. change (inject_Z 1) with 1.
    rewrite (Qabs_pos (inject_Z (Qfloor v) + 1 - v)) by lra.
    destruct Hk' as [Hk'|Hk'].
    + rewrite (Qabs_neg (inject_Z k - v)) by lra. lra.
    + rewrite (Qabs_pos (inject_Z k - v)) by lra. lra.
Qed.

Lemma rne_half (v : Q) : Qabs (inject_Z (rne v) - v) <= 1 # 2.
Proof.
  pose proof (Qfloor_le v) as Hlo. pose proof (Qlt_floor v) as Hhi.
  rewrite inject_Z_plus in Hhi. change (inject_Z 1) with 1 in Hhi.
  destruct (rne_cases v) as [[-> H]|[-> H]].
  - rewrite (Qabs_neg (inject_Z (Qfloor v) - v)) by lra. lra.
  - rewrite inject_Z_plus. change (inject_Z 1) with 1.
    rewrite (Qabs_pos (inject_Z (Qfloor v) + 1 - v)) by lra. lra.
Qed.

(** Rounding stays between the integers that bound the value. *)
Lemma rne_abs_le (v : Q) (k : Z) : Qabs v <= inject_Z k -> (Z.abs (rne v) <= k)%Z.
Proof.
  intros H. apply Qabs_Qle_condition in H. destruct H as [H1 H2].
  pose proof (rne_nearest v k) as Hk. pose proof (rne_nearest v (- k)) as Hk'.
  rewrite inject_Z_opp in Hk'.
  rewrite (Qabs_pos (inject_Z k - v)) in Hk by lra.
  rewrite (Qabs_neg (- inject_Z k - v)) in Hk' by lra.
  apply Qabs_Qle_condition in Hk. apply Qabs_Qle_condition in Hk'.
  assert (Hup : inject_Z (rne v) <= inject_Z k) by lra.
  assert (Hdn : inject_Z (- k) <= inject_Z (rne v)) by (rewrite inject_Z_opp; lra).
  rewrite <- Zle_Qle in Hup, Hdn. lia.
Qed.

(** *** The binary logarithm *)

Lemma Qabs_Qmake (q : Q) : Qabs q == inject_Z (Z.abs (Qnum q)) / inject_Z (Zpos (Qden q)).
Proof. destruct q as [n d]. cbn [Qabs Qnum Qden]. apply Qmake_Qdiv. Qed.

Lemma ilog2_spec (q : Q) : ~ q == 0 -> 2 ^ ilog2 q <= Qabs q /\ Qabs q < 2 ^ (ilog2 q + 1).
Proof.
  intros Hq. unfold ilog2.
  set (n := Z.abs (Qnum q)). set (d := Zpos (Qden q)).
  assert (Hn : (0 < n)%Z).
  { unfold n. destruct q as [qn qd]. unfold Qeq in Hq. cbn in *. lia. }
  assert (Hd : (0 < d)%Z) by reflexivity.
  destruct (Z.log2_spec n Hn) as [Hn1 Hn2]. destruct (Z.log2_spec d Hd) as [Hd1 Hd2].
  pose proof (Z.log2_nonneg n) as Hln. pose proof (Z.log2_nonneg d) as Hld.
  set (a := Z.log2 n) in *. set (b := Z.log2 d) in *.
  rewrite Zle_Qle, (pow2_inject a Hln) in Hn1.
  rewrite Zlt_Qlt, (pow2_inject (Z.succ a)) in Hn2 by lia.
  rewrite Zle_Qle, (pow2_inject b Hld) in Hd1.
  rewrite Zlt_Qlt, (pow2_inject (Z.succ b)) in Hd2 by lia.
  unfold Z.succ in Hn2, Hd2. rewrite pow2_succ in Hn2, Hd2.
  assert (Hnq : 0 < inject_Z n)
    by (change (inject_Z 0 < inject_Z n); rewrite <- Zlt_Qlt; exact Hn).
  assert (Hdq : 0 < inject_Z d)
    by (change (inject_Z 0 < inject_Z d); rewrite <- Zlt_Qlt; exact Hd).
  assert (Habs : Qabs q * inject_Z d == inject_Z n).
  { rewrite Qabs_Qmake. fold n d. field. lra. }
  assert (He : 2 ^ (a - b) * 2 ^ b == 2 ^ a).
  { rewrite <- pow2_plus. replace (a - b + b)%Z with a by lia. reflexivity. }
  pose proof (pow2_pos a) as Ha. pose proof (pow2_pos b) as Hb.
  pose proof (pow2_pos (a - b)) as Hab.
  pose proof (Qabs_nonneg q) as Hq0.
  assert (Hbounds : Qabs q < 2 * 2 ^ (a - b) /\ 2 ^ (a - b) <= 2 * Qabs q).
  { revert Habs He Hn1 Hn2 Hd1 Hd2 Ha Hb Hab Hq0 Hnq Hdq.
    generalize (Qabs q) (inject_Z n) (inject_Z d) (2 ^ a) (2 ^ b) (2 ^ (a - b)).
    intros X N D A B C Habs He Hn1 Hn2 Hd1 Hd2 Ha Hb Hab Hq0 Hnq Hdq.
    split.
    - apply Qnot_le_lt. intros Hc.
      assert (H1 : 2 * C * B <= X * D).
      { apply Qmult_le_compat_nonneg; split; lra. }
      lra.
    - apply Qnot_lt_le. intros Hc.
      assert (H1 : 2 * X * D <= C * D) by (apply Qmult_le_compat_r; lra).
      assert (H2 : C * D < C * (2 * B)) by (apply Qmult_lt_l; lra).
      lra. }
  destruct Hbounds as [Hup' Hlow'].
  assert (Hup : Qabs q < 2 ^ (a - b + 1)) by (rewrite pow2_succ; exact Hup').
  assert (Hlow : 2 ^ (a - b - 1) <= Qabs q).
  { apply (Qmult_le_l _ _ 2); [reflexivity|]. rewrite <- pow2_succ.
    replace (a - b - 1 + 1)%Z with (a - b)%Z by lia. exact Hlow'. }
  destruct (Qle_bool (2 ^ (a - b)) (Qabs q)) eqn:Htest.
  - apply Qle_bool_iff in Htest. split; [exact Htest|exact Hup].
  - split; [exact Hlow|]. replace (a - b - 1 + 1)%Z with (a - b)%Z by lia.
    apply Qnot_le_lt. intros Hle. apply Qle_bool_iff in Hle. congruence.
Qed.

Lemma ilog2_lt (q : Q) (k : Z) : ~ q == 0 -> Qabs q < 2 ^ k -> (ilog2 q < k)%Z.
Proof.
  intros Hq Hk. destruct (ilog2_spec q Hq) as [H1 _].
  apply pow2_lt_inv. apply (Qle_lt_trans _ (Qabs q)); assumption.
Qed.

Lemma ilog2_ge (q : Q) (k : Z) : ~ q == 0 -> 2 ^ k <= Qabs q -> (k <= ilog2 q)%Z.
Proof.
  intros Hq Hk. destruct (ilog2_spec q Hq) as [_ H2].
  assert (H : (k < ilog2 q + 1)%Z)
    by (apply pow2_lt_inv; apply (Qle_lt_trans _ (Qabs q)); assumption).
  lia.
Qed.

(** *** Rounding to binary32 *)

Lemma dyadic_eq (j : nat) : forall m : Z, dyadic m j == inject_Z m * 2 ^ (- Z.of_nat j).
Proof.
  induction j as [|j IH]; intros m.
  - cbn [dyadic]. change (2 ^ (- Z.of_nat 0)) with 1. ring.
  - cbn [dyadic].
    assert (Hp : 2 ^ (- Z.of_nat (S j)) * 2 == 2 ^ (- Z.of_nat j)).
    { replace (- Z.of_nat j)%Z with (- Z.of_nat (S j) + 1)%Z by lia. rewrite pow2_succ. ring. }
    destruct (Z.even m) eqn:Hev.
    + rewrite IH. apply Z.even_spec in Hev. destruct Hev as [k ->].
      replace (2 * k / 2)%Z with k by (rewrite Z.mul_comm, Z.div_mul; [reflexivity|lia]).
      rewrite inject_Z_mult, <- Hp. change (inject_Z 2) with 2. ring.
    + rewrite Qmake_Qdiv.
      assert (E : inject_Z (Z.pos (2 ^ Pos.of_succ_nat j)) == 2 ^ Z.of_nat (S j)).
      { rewrite Pos2Z.inj_pow, Zpos_P_of_succ_nat, <- Nat2Z.inj_succ.
        apply pow2_inject. lia. }
      rewrite E, Qpower_opp. reflexivity.
Qed.

Lemma to_float_0 (q : Q) : q == 0 -> to_float q = 0.
Proof. intros H. unfold to_float. rewrite (Qeq_eq_bool _ _ H). reflexivity. Qed.

Lemma to_float_eq (q : Q) :
  ~ q == 0 -> to_float q == inject_Z (rne (q / 2 ^ ulp_exp q)) * 2 ^ ulp_exp q.
Proof.
  intros Hq. unfold to_float.
  destruct (Qeq_bool q 0) eqn:E; [apply Qeq_bool_eq in E; contradiction|].
  cbv zeta. destruct (Z.leb_spec 0 (ulp_exp q)) as [H|H].
  - rewrite inject_Z_mult, (pow2_inject _ H). reflexivity.
  - rewrite dyadic_eq, Z2Nat.id by lia. rewrite Z.opp_involutive. reflexivity.
Qed.

Lemma ulp_exp_ge (q : Q) : (-149 <= ulp_exp q)%Z.
Proof. unfold ulp_exp. lia. Qed.

Lemma scaled_abs (q : Q) :
  ~ q == 0 -> Qabs (q / 2 ^ ulp_exp q) <= inject_Z (2 ^ 24).
Proof.
  intros Hq. destruct (ilog2_spec q Hq) as [_ Hup].
  pose proof (pow2_pos (ulp_exp q)) as HP.
  unfold Qdiv. rewrite Qabs_Qmult, (Qabs_pos (/ 2 ^ ulp_exp q))
    by (apply Qlt_le_weak, Qinv_lt_0_compat, HP).
  apply (Qmult_le_r _ _ (2 ^ ulp_exp q) HP).
  rewrite <- Qmult_assoc, (Qmult_comm (/ _)), Qmult_inv_r, Qmult_1_r by lra.
  rewrite (pow2_inject 24) by lia. rewrite <- pow2_plus.
  apply Qlt_le_weak. apply (Qlt_le_trans _ _ _ Hup). apply pow2_le. unfold ulp_exp. lia.
Qed.

(** The result is on the grid of the last place and within the binade. *)
Lemma to_float_grid (q : Q) :
  ~ q == 0 ->
  on_grid (ulp_exp q) (to_float q) /\ Qabs (to_float q) <= 2 ^ (ulp_exp q + 24).
Proof.
  intros Hq. split; [eexists; apply to_float_eq; exact Hq|].
  rewrite (to_float_eq q Hq).
  pose proof (pow2_pos (ulp_exp q)) as HP.
  rewrite Qabs_Qmult, (Qabs_pos (2 ^ ulp_exp q)) by lra.
  rewrite pow2_plus, (Qmult_comm (2 ^ ulp_exp q)).
  apply Qmult_le_compat_r; [|lra].
  rewrite Qabs_inject_Z, <- (pow2_inject 24), <- Zle_Qle by lia.
  apply rne_abs_le. apply scaled_abs. exact Hq.
Qed.

Lemma to_float_representable (q : Q) : representable (to_float q).
Proof.
  destruct (Qeq_dec q 0) as [E|Hq].
  - rewrite (to_float_0 q E). exists 0%Z, 0%Z. split; [lia|]. split; [lia|reflexivity].
  - destruct (to_float_grid q Hq) as [Hg Hb].
    exact (on_grid_representable _ _ Hg (ulp_exp_ge q) Hb).
Qed.

(** The distance to the value is at most the distance of any other multiple
    of the last place, and at most half a unit of it. *)
Lemma to_float_grid_nearest (q : Q) (k : Z) :
  ~ q == 0 ->
  Qabs (to_float q - q) <= Qabs (inject_Z k * 2 ^ ulp_exp q - q).
Proof.
  intros Hq. rewrite (to_float_eq q Hq).
  pose proof (pow2_pos (ulp_exp q)) as HP. set (P := 2 ^ ulp_exp q) in *.
  assert (E : forall z : Z, inject_Z z * P - q == (inject_Z z - q / P) * P)
    by (intros z; field; lra).
  rewrite !E, !Qabs_Qmult, (Qabs_pos P) by lra.
  apply Qmult_le_compat_r; [apply rne_nearest|lra].
Qed.

Lemma to_float_half_ulp (q : Q) :
  ~ q == 0 -> Qabs (to_float q - q) <= 2 ^ (ulp_exp q - 1).
Proof.
  intros Hq. rewrite (to_float_eq q Hq).
  pose proof (pow2_pos (ulp_exp q)) as HP.
  assert (Hh : 2 ^ (ulp_exp q - 1) == (1 # 2) * 2 ^ ulp_exp q).
  { replace (ulp_exp q) with (ulp_exp q - 1 + 1)%Z at 2 by lia. rewrite pow2_succ. ring. }
  rewrite Hh. set (P := 2 ^ ulp_exp q) in *.
  assert (E : inject_Z (rne (q / P)) * P - q == (inject_Z (rne (q / P)) - q / P) * P)
    by (field; lra).
  rewrite E, Qabs_Qmult, (Qabs_pos P) by lra.
  apply Qmult_le_compat_r; [apply rne_half|lra].
Qed.

(** The rounding error below [2^k]. *)
Lemma to_float_error (q : Q) (k : Z) :
  (-125 <= k)%Z -> Qabs q < 2 ^ k -> Qabs (to_float q - q) <= 2 ^ (k - 25).
Proof.
  intros Hk Hq. destruct (Qeq_dec q 0) as [E|Hne].
  - rewrite (to_float_0 q E), E. change (Qabs (0 - 0)) with 0.
    apply Qlt_le_weak, pow2_pos.
  - apply (Qle_trans _ _ _ (to_float_half_ulp q Hne)). apply pow2_le.
    pose proof (ilog2_lt q k Hne Hq). unfold ulp_exp. lia.
Qed.

(** The significand [2^24] is [2^23] at the next exponent. *)
Lemma representable_strict (q : Q) :
  representable q ->
  exists (m e : Z), (Z.abs m < 2 ^ 24)%Z /\ (-149 <= e)%Z /\ q == inject_Z m * 2 ^ e.
Proof.
  intros (m & e & Hm & He & Hq).
  destruct (Z.eq_dec (Z.abs m) (2 ^ 24)) as [E|E].
  - exists (m / 2)%Z, (e + 1)%Z.
    assert (Hm2 : (m = 2 * (m / 2))%Z).
    { change (2 ^ 24)%Z with 16777216%Z in E.
      assert (Hc : m = 16777216%Z \/ m = (-16777216)%Z) by lia.
      destruct Hc as [-> | ->]; reflexivity. }
    split; [|split; [lia|]].
    + change (2 ^ 24)%Z with 16777216%Z in *. lia.
    + rewrite Hq, pow2_succ. rewrite Hm2 at 1. rewrite inject_Z_mult.
      change (inject_Z 2) with 2. ring.
  - exists m, e. split; [lia|]. split; [exact He|exact Hq].
Qed.

(** A representable value is kept. *)
Lemma to_float_fixes (q : Q) : representable q -> to_float q == q.
Proof.
  intros Hrep. destruct (representable_strict q Hrep) as (m & e & Hm & He & Hq).
  destruct (Qeq_dec q 0) as [E|Hne].
  - rewrite (to_float_0 q E), E. reflexivity.
  - pose proof (pow2_pos e) as HPe.
    assert (Hle : (ulp_exp q <= e)%Z).
    { assert (Hlt : Qabs q < 2 ^ (e + 24)).
      { rewrite Hq, Qabs_Qmult, (Qabs_pos (2 ^ e)), Qabs_inject_Z by lra.
        rewrite pow2_plus, (Qmult_comm (2 ^ e)). apply Qmult_lt_compat_r; [exact HPe|].
        rewrite <- (pow2_inject 24), <- Zlt_Qlt by lia. exact Hm. }
      pose proof (ilog2_lt q _ Hne Hlt). unfold ulp_exp. lia. }
    assert (Hg : on_grid (ulp_exp q) q)
      by (apply (on_grid_finer e); [exact Hle|exists m; exact Hq]).
    destruct Hg as [k Hk].
    pose proof (to_float_grid_nearest q k Hne) as Hn.
    rewrite <- Hk in Hn. setoid_replace (q - q) with 0 in Hn by ring.
    change (Qabs 0) with 0 in Hn.
    apply Qabs_Qle_condition in Hn. lra.
Qed.

Lemma to_float_idem (q : Q) : to_float (to_float q) == to_float q.
Proof. apply to_float_fixes, to_float_representable. Qed.

(** Rounding is to the nearest: no representable value is closer. *)
Lemma to_float_nearest (q f : Q) :
  representable f -> Qabs (to_float q - q) <= Qabs (f - q).
Proof.
  intros (m & e & Hm & He & Hf). destruct (Qeq_dec q 0) as [E|Hne].
  - rewrite (to_float_0 q E), E. change (Qabs (0 - 0)) with 0. apply Qabs_nonneg.
  - pose proof (pow2_pos (ulp_exp q)) as HP.
    destruct (Z.le_gt_cases (ulp_exp q) e) as [Hle|Hgt].
    + destruct (on_grid_finer e (ulp_exp q) f Hle (ex_intro _ m Hf)) as [k Hk].
      rewrite Hk. apply to_float_grid_nearest. exact Hne.
    + (* [f] lies below the binade of [q] *)
      assert (Hu : ulp_exp q = (ilog2 q - 23)%Z) by (unfold ulp_exp in *; lia).
      destruct (ilog2_spec q Hne) as [Hlo _].
      assert (Hfabs : Qabs f <= 2 ^ ilog2 q).
      { pose proof (pow2_pos e) as HPe.
        rewrite Hf, Qabs_Qmult, (Qabs_pos (2 ^ e)), Qabs_inject_Z by lra.
        apply (Qle_trans _ (2 ^ 24 * 2 ^ e)).
        - apply Qmult_le_compat_r; [|lra].
          rewrite <- (pow2_inject 24), <- Zle_Qle by lia. exact Hm.
        - rewrite <- pow2_plus. apply pow2_le. lia. }
      assert (Hb : 2 ^ ilog2 q == inject_Z (2 ^ 23) * 2 ^ ulp_exp q).
      { rewrite (pow2_inject 23), <- pow2_plus, Hu by lia.
        replace (23 + (ilog2 q - 23))%Z with (ilog2 q) by lia. reflexivity. }
      apply Qabs_Qle_condition in Hfabs. destruct Hfabs as [Hf1 Hf2].
      destruct (Qlt_le_dec q 0) as [Hneg|Hpos].
      * rewrite (Qabs_neg q) in Hlo by lra.
        pose proof (to_float_grid_nearest q (- 2 ^ 23) Hne) as Hn.
        rewrite inject_Z_opp in Hn.
        apply (Qle_trans _ _ _ Hn).
        rewrite (Qabs_pos (- inject_Z (2 ^ 23) * 2 ^ ulp_exp q - q)) by lra.
        rewrite (Qabs_pos (f - q)) by lra. lra.
      * rewrite (Qabs_pos q) in Hlo by lra.
        pose proof (to_float_grid_nearest q (2 ^ 23) Hne) as Hn.
        apply (Qle_trans _ _ _ Hn).
        rewrite (Qabs_neg (inject_Z (2 ^ 23) * 2 ^ ulp_exp q - q)) by lra.
        rewrite (Qabs_neg (f - q)) by lra. lra.
Qed.



Lemma is_float_fixes (q : Q) : is_float q = true -> to_float q == q.
Proof.
  unfold is_float. intros H. apply andb_prop in H. apply Qeq_bool_eq. exact (proj1 H).
Qed.

Lemma is_float_representable (q : Q) : is_float q = true -> representable q.
Proof.
  intros H. apply (representable_comp (to_float q)); [exact (is_float_fixes q H)|].
  apply to_float_representable.
Qed.


(** Rounding depends on the value only, not on the fraction that holds
    it. *)
Lemma ilog2_comp (q q' : Q) : ~ q == 0 -> q == q' -> ilog2 q = ilog2 q'.
Proof.
  intros Hq E. assert (Hq' : ~ q' == 0) by (rewrite <- E; exact Hq).
  destruct (ilog2_spec q Hq) as [H1 H2]. destruct (ilog2_spec q' Hq') as [H1' H2'].
  assert (Eabs : Qabs q == Qabs q') by (rewrite E; reflexivity).
  rewrite Eabs in H1, H2.
  assert (Ha : (ilog2 q < ilog2 q' + 1)%Z)
    by (apply pow2_lt_inv; apply (Qle_lt_trans _ (Qabs q')); assumption).
  assert (Hb : (ilog2 q' < ilog2 q + 1)%Z)
    by (apply pow2_lt_inv; apply (Qle_lt_trans _ (Qabs q')); assumption).
  lia.
Qed.

Lemma rne_comp (v v' : Q) : v == v' -> rne v = rne v'.
Proof.
  intros E. unfold rne. rewrite (Qfloor_comp v v' E).
  assert (Ec : (2 * (v - inject_Z (Qfloor v')) ?= 1) = (2 * (v' - inject_Z (Qfloor v')) ?= 1))
    by (rewrite E; reflexivity).
  rewrite Ec. reflexivity.
Qed.

Lemma to_float_comp (q q' : Q) : q == q' -> to_float q == to_float q'.
Proof.
  intros E. destruct (Qeq_dec q 0) as [E0|Hq].
  - rewrite (to_float_0 q E0), (to_float_0 q') by (rewrite <- E; exact E0). reflexivity.
  - assert (Hq' : ~ q' == 0) by (rewrite <- E; exact Hq).
    rewrite (to_float_eq q Hq), (to_float_eq q' Hq'). unfold ulp_exp.
    rewrite <- (ilog2_comp q q' Hq E). generalize (2 ^ Z.max (ilog2 q - 23) (-149)).
    intros P. rewrite (rne_comp (q / P) (q' / P)) by (rewrite E; reflexivity).
    reflexivity.
Qed.

End SingleProps.

Module Ds9Props.

Import Ds9 SingleProps.

Local Open Scope string_scope.

(** *** Strings *)

Lemma append_nil_r (s : string) : s ++ "" = s.
Proof. induction s as [|c s IH]; simpl; [reflexivity|]. rewrite IH. reflexivity. Qed.

Lemma append_assoc (a b c : string) : (a ++ b) ++ c = a ++ (b ++ c).
Proof. induction a as [|ch a IH]; simpl; [reflexivity|]. rewrite IH. reflexivity. Qed.

Lemma length_append (a b : string) :
  String.length (a ++ b) = (String.length a + String.length b)%nat.
Proof. induction a as [|ch a IH]; simpl; [reflexivity|]. rewrite IH. reflexivity. Qed.

Lemma append_nonempty_l (a b : string) : a <> "" -> a ++ b <> "".
Proof. destruct a; [congruence|discriminate]. Qed.

Lemma append_nonempty_r (a b : string) : b <> "" -> a ++ b <> "".
Proof. destruct a; simpl; [auto|discriminate]. Qed.

Lemma nl_nonempty : nl <> "".
Proof. discriminate. Qed.

Lemma message_nonempty (a : string) : a ++ nl <> "".
Proof. apply append_nonempty_r, nl_nonempty. Qed.

Section Generic.

Context {collab : Collaborators}.

(** *** Export *)

Lemma push_export_regions (line : string) (this : Ds9ImportExport) :
  _export_regions (push_export line this) = (_export_regions this ++ [line])%list.
Proof. reflexivity. Qed.

Lemma snoc_not_nil (A : Type) (l : list A) (a : A) : (l ++ [a])%list <> [].
Proof. destruct l; discriminate. Qed.

Lemma finish_export_line_nonempty (region_line name : string) (this : Ds9ImportExport) :
  _export_regions this <> [] ->
  _export_regions (snd (finish_export_line region_line name this)) <> [].
Proof.
  intros H. unfold finish_export_line.
  destruct (negb (is_empty _)); cbn [snd]; [|exact H].
  rewrite push_export_regions. apply snoc_not_nil.
Qed.

Lemma export_call_nonempty (c : ExportCall) (this this' : Ds9ImportExport) (b : bool) :
  _export_regions this <> [] ->
  export_call this c = Ok (b, this') ->
  _export_regions this' <> [].
Proof.
  intros H. destruct c as [rs | nm ty cps rot]; cbn [export_call].
  - unfold AddExportRegion, Res_bind.
    destruct (region_line_of rs) as [l| |w]; try discriminate.
    intros E. injection E as E'.
    change this' with (snd (b, this')). rewrite <- E'.
    apply finish_export_line_nonempty. exact H.
  - unfold AddExportRegion_Quantity, Res_bind.
    match goal with |- match ?r with _ => _ end = _ -> _ => destruct r as [l| |w] end;
      try discriminate.
    intros E. injection E as E'.
    change this' with (snd (b, this')). rewrite <- E'.
    apply finish_export_line_nonempty. exact H.
Qed.

Lemma export_calls_nonempty (cs : list ExportCall) (this this' : Ds9ImportExport) :
  _export_regions this <> [] ->
  export_calls this cs = Ok this' ->
  _export_regions this' <> [].
Proof.
  revert this. induction cs as [|c cs IH]; intros this H; cbn [export_calls].
  - intros E. inversion E. subst. exact H.
  - unfold Res_bind. destruct (export_call this c) as [[b t]| |w] eqn:Ec; try discriminate.
    cbn [snd]. apply IH. exact (export_call_nonempty c this t b H Ec).
Qed.

Lemma new_export_nonempty (file_id : Z) (pixel_coord : bool) :
  _export_regions (new_export file_id pixel_coord) <> [].
Proof.
  unfold new_export, AddHeader. rewrite push_export_regions. apply snoc_not_nil.
Qed.

(** C9.  After the exporting constructor, and after any calls of either
    overload of [AddExportRegion] (none at all included), both overloads of
    [ExportRegions] return [true], leave [error] as it was, and deliver the
    stored lines: the header lines pushed by [AddHeader] keep
    [_export_regions] from ever being empty, so the "no regions to export"
    branch is never taken. *)
Theorem ExportRegions_succeeds_after_construction :
  forall (file_id : Z) (pixel_coord : bool) (calls : list ExportCall)
         (this : Ds9ImportExport) (contents : list string) (filename error : string),
    export_calls (new_export file_id pixel_coord) calls = Ok this ->
    ExportRegions this contents error = (true, _export_regions this, error)
    /\ ExportRegions_file this filename error
       = (true, Some (String.concat "" (_export_regions this)), error)
    /\ ExportRegions (new_export file_id pixel_coord) contents error
       = (true, _export_regions (new_export file_id pixel_coord), error).
Proof.
  intros file_id pixel_coord calls this contents filename error Hcalls.
  pose proof (new_export_nonempty file_id pixel_coord) as H0.
  pose proof (export_calls_nonempty calls _ _ H0 Hcalls) as H1.
  unfold ExportRegions, ExportRegions_file.
  destruct (_export_regions this) as [|l ls]; [contradiction H1; reflexivity|].
  destruct (_export_regions (new_export file_id pixel_coord)) as [|h hs];
    [contradiction H0; reflexivity|].
  repeat split.
Qed.

(** C4.  A circle, that is an ellipse whose size components are equal, with
    centre (10, 10) and radius 5 and no name, is exported by
    [AddExportRegion] as the line [circle(10.00, 10.00, 5.00)] (followed by
    the line end), whatever its rotation. *)
Theorem circle_10_10_5_export_line :
  forall (file_id : Z) (rot : Q) (this : Ds9ImportExport),
    region_line_of (mkRegionState file_id "" ELLIPSE [mkPoint 10 10; mkPoint 5 5] rot)
    = Ok "circle(10.00, 10.00, 5.00)"
    /\ AddExportRegion (mkRegionState file_id "" ELLIPSE [mkPoint 10 10; mkPoint 5 5] rot) this
       = Ok (true, push_export ("circle(10.00, 10.00, 5.00)" ++ nl) this).
Proof.
  intros file_id rot this.
  assert (E : region_line_of
                (mkRegionState file_id "" ELLIPSE [mkPoint 10 10; mkPoint 5 5] rot)
              = Ok "circle(10.00, 10.00, 5.00)") by reflexivity.
  split; [exact E|].
  unfold AddExportRegion. rewrite E. reflexivity.
Qed.

(** *** Import: what one region line can do *)

(** The effect of a region line that was dealt with: one RegionState and no
    message, or no RegionState and a message. *)
Definition region_or_message (e : Emit) : Prop :=
  (exists r, new_regions e = [r] /\ new_errors e = "")
  \/ (new_regions e = [] /\ new_errors e <> "").

Definition silent (e : Emit) : Prop := new_regions e = [] /\ new_errors e = "".

Lemma bind_Ok (A B : Type) (m : M A) (k : A -> M B) (b : B) (e : Emit) :
  bind m k = Ok (b, e) ->
  exists a e1 e2,
    m = Ok (a, e1) /\ k a = Ok (b, e2)
    /\ new_regions e = (new_regions e1 ++ new_regions e2)%list
    /\ new_errors e = new_errors e1 ++ new_errors e2.
Proof.
  unfold bind. destruct m as [[a e1]| |w]; try discriminate.
  destruct (k a) as [[b' e2]| |w] eqn:Ek; try discriminate.
  intros E. injection E as Eb Ee. subst. exists a, e1, e2. auto.
Qed.

Lemma ret_Ok (A : Type) (a b : A) (e : Emit) : ret a = Ok (b, e) -> b = a /\ silent e.
Proof. unfold ret. intros E. injection E as Eb Ee. subst. split; [reflexivity|split; reflexivity]. Qed.

Lemma append_error_Ok (msg : string) (u : unit) (e : Emit) :
  append_error msg = Ok (u, e) -> new_regions e = [] /\ new_errors e = msg.
Proof. unfold append_error. intros E. injection E as Eu Ee. subst. split; reflexivity. Qed.

Lemma push_region_Ok (r : RegionState) (u : unit) (e : Emit) :
  push_region r = Ok (u, e) -> new_regions e = [r] /\ new_errors e = "".
Proof. unfold push_region. intros E. injection E as Eu Ee. subst. split; reflexivity. Qed.

Lemma message_or (msg : string) (u : unit) (e : Emit) :
  append_error (msg ++ nl) = Ok (u, e) -> region_or_message e.
Proof.
  intros E. apply append_error_Ok in E. destruct E as [Er Ee]. right.
  split; [exact Er|]. rewrite Ee. apply message_nonempty.
Qed.

Lemma region_or (r : RegionState) (u : unit) (e : Emit) :
  push_region r = Ok (u, e) -> region_or_message e.
Proof. intros E. apply push_region_Ok in E. left. exists r. exact E. Qed.

(** [CheckAndConvertParameter] says "valid" without a message and "not
    valid" with one. *)
Lemma CheckAndConvertParameter_outcome (parameter region_type : string)
    (valid : bool) (param : string) (e : Emit) :
  CheckAndConvertParameter parameter region_type = Ok ((valid, param), e) ->
  new_regions e = []
  /\ (if valid then new_errors e = "" else new_errors e <> "").
Proof.
  unfold CheckAndConvertParameter.
  destruct (stod parameter) as [idx| |]; try discriminate.
  - destruct (String.length parameter =? idx)%nat.
    + intros E. apply ret_Ok in E. destruct E as [E [Er Ee]]. injection E as -> ->. auto.
    + destruct (String.length parameter =? idx + 1)%nat.
      * match goal with |- context [let '(_, _) := ?c in _] => destruct c as [cu v] end.
        intros E. apply bind_Ok in E. destruct E as (a & e1 & e2 & E1 & E2 & Er & Ee).
        apply ret_Ok in E2. destruct E2 as [E2 [Er2 Ee2]]. injection E2 as -> _.
        rewrite Er, Ee, Er2, Ee2, append_nil_r, app_nil_r.
        destruct v.
        -- apply ret_Ok in E1. destruct E1 as [_ [Er1 Ee1]]. auto.
        -- apply append_error_Ok in E1. destruct E1 as [Er1 Ee1]. split; [exact Er1|].
           rewrite Ee1. rewrite <- !append_assoc. apply message_nonempty.
      * intros E. apply bind_Ok in E. destruct E as (a & e1 & e2 & E1 & E2 & Er & Ee).
        apply ret_Ok in E2. destruct E2 as [E2 [Er2 Ee2]]. injection E2 as -> _.
        rewrite Er, Ee, Er2, Ee2, append_nil_r, app_nil_r.
        destruct (sscanf_hms parameter).
        -- apply ret_Ok in E1. destruct E1 as [_ [Er1 Ee1]]. auto.
        -- apply append_error_Ok in E1. destruct E1 as [Er1 Ee1]. split; [exact Er1|].
           rewrite Ee1. rewrite <- !append_assoc. apply message_nonempty.
  - intros E. apply bind_Ok in E. destruct E as (a & e1 & e2 & E1 & E2 & Er & Ee).
    apply ret_Ok in E2. destruct E2 as [E2 [Er2 Ee2]]. injection E2 as -> _.
    rewrite Er, Ee, Er2, Ee2, append_nil_r, app_nil_r.
    apply append_error_Ok in E1. destruct E1 as [Er1 Ee1]. split; [exact Er1|].
    rewrite Ee1. rewrite <- !append_assoc. apply message_nonempty.
Qed.

(** The parameter loop pushes no region; it ends with the quantities and no
    message, or inside the loop with a message. *)
Lemma param_loop_outcome (region_type : string) (is_time : nat -> bool)
    (default_unit : nat -> string) (invalid : string -> string) :
  (forall p, invalid p <> "") ->
  forall (params : list string) (i : nat) (r : option (list Quantity)) (e : Emit),
    param_loop region_type is_time default_unit invalid params i = Ok (r, e) ->
    new_regions e = []
    /\ match r with
       | Some qs => new_errors e = "" /\ List.length qs = List.length params
       | None => new_errors e <> ""
       end.
Proof.
  intros Hinv. induction params as [|p rest IH]; intros i r e; cbn [param_loop].
  - intros E. apply ret_Ok in E. destruct E as [-> [Er Ee]]. auto.
  - intros E. apply bind_Ok in E. destruct E as ([valid param] & e1 & e2 & E1 & E2 & Er & Ee).
    apply CheckAndConvertParameter_outcome in E1. destruct E1 as [Er1 Ee1].
    rewrite Er, Ee, Er1. cbn [app].
    destruct valid.
    + rewrite Ee1. cbn [append].
      destruct (readQuantity _) as [q|].
      * apply bind_Ok in E2. destruct E2 as (r' & e3 & e4 & E3 & E4 & Er2 & Ee2).
        apply ret_Ok in E4. destruct E4 as [-> [Er4 Ee4]].
        apply IH in E3. destruct E3 as [Er3 Ee3].
        rewrite Er2, Ee2, Er4, Ee4, append_nil_r, app_nil_r. split; [exact Er3|].
        destruct r' as [qs|]; cbn [option_map]; [|exact Ee3].
        destruct Ee3 as [Ee3 Hlen]. split; [exact Ee3|]. cbn [List.length]. rewrite Hlen.
        reflexivity.
      * apply bind_Ok in E2. destruct E2 as (u & e3 & e4 & E3 & E4 & Er2 & Ee2).
        apply ret_Ok in E4. destruct E4 as [-> [Er4 Ee4]].
        apply append_error_Ok in E3. destruct E3 as [Er3 Ee3].
        rewrite Er2, Ee2, Er4, Ee4, append_nil_r, app_nil_r, Ee3. split; [exact Er3|].
        apply Hinv.
    + apply ret_Ok in E2. destruct E2 as [-> [Er2 Ee2]].
      rewrite Er2, Ee2, append_nil_r. auto.
Qed.

Lemma after_quiet (e e1 e2 : Emit) :
  new_regions e = (new_regions e1 ++ new_regions e2)%list ->
  new_errors e = new_errors e1 ++ new_errors e2 ->
  new_regions e1 = [] -> new_errors e1 = "" ->
  new_regions e = new_regions e2 /\ new_errors e = new_errors e2.
Proof. intros Er Ee Er1 Ee1. rewrite Er, Ee, Er1, Ee1. split; reflexivity. Qed.

Lemma after_message (e e1 e2 : Emit) :
  new_regions e = (new_regions e1 ++ new_regions e2)%list ->
  new_errors e = new_errors e1 ++ new_errors e2 ->
  new_regions e1 = [] -> new_errors e1 <> "" -> silent e2 ->
  region_or_message e.
Proof.
  intros Er Ee Er1 Ee1 [Er2 Ee2]. right. rewrite Er, Ee, Er1, Er2, Ee2, append_nil_r.
  split; [reflexivity|exact Ee1].
Qed.

Lemma region_or_message_eq (e e2 : Emit) :
  new_regions e = new_regions e2 /\ new_errors e = new_errors e2 ->
  region_or_message e2 -> region_or_message e.
Proof. intros [Er Ee]. unfold region_or_message. rewrite Er, Ee. auto. Qed.

(** After a parameter loop: either it returned from the method (message), or
    the rest of the method decides. *)
Lemma after_param_loop (region_type : string) (is_time : nat -> bool)
    (default_unit : nat -> string) (invalid : string -> string)
    (params : list string) (i : nat) (k : list Quantity -> M unit) (u : unit) (e : Emit) :
  (forall p, invalid p <> "") ->
  (forall qs e2, List.length qs = List.length params -> k qs = Ok (u, e2) ->
                 region_or_message e2) ->
  (r <- param_loop region_type is_time default_unit invalid params i ;;
   match r with
   | None => ret tt
   | Some param_quantities => k param_quantities
   end) = Ok (u, e) ->
  region_or_message e.
Proof.
  intros Hinv Hk E.
  apply bind_Ok in E. destruct E as (r & e1 & e2 & E1 & E2 & Er & Ee).
  apply param_loop_outcome in E1; [|exact Hinv]. destruct E1 as [Er1 Ee1].
  destruct r as [qs|].
  - destruct Ee1 as [Ee1 Hlen].
    apply (region_or_message_eq e e2); [exact (after_quiet e e1 e2 Er Ee Er1 Ee1)|].
    exact (Hk qs e2 Hlen E2).
  - apply ret_Ok in E2. destruct E2 as [_ Hs].
    exact (after_message e e1 e2 Er Ee Er1 Ee1 Hs).
Qed.

Lemma after_points (m : M (option (list Point))) (k : list Point -> M unit)
    (u : unit) (e : Emit) :
  (forall c e1, m = Ok (c, e1) ->
     new_regions e1 = []
     /\ match c with Some _ => new_errors e1 = "" | None => new_errors e1 <> "" end) ->
  (forall pts e2, k pts = Ok (u, e2) -> region_or_message e2) ->
  (c <- m ;; match c with None => ret tt | Some control_points => k control_points end)
  = Ok (u, e) ->
  region_or_message e.
Proof.
  intros Hm Hk E.
  apply bind_Ok in E. destruct E as (c & e1 & e2 & E1 & E2 & Er & Ee).
  destruct (Hm c e1 E1) as [Er1 Ee1].
  destruct c as [pts|].
  - apply (region_or_message_eq e e2); [exact (after_quiet e e1 e2 Er Ee Er1 Ee1)|].
    exact (Hk pts e2 E2).
  - apply ret_Ok in E2. destruct E2 as [_ Hs].
    exact (after_message e e1 e2 Er Ee Er1 Ee1 Hs).
Qed.

Lemma center_and_size_outcome (this : Ds9ImportExport) (failed : string)
    (qs : list Quantity) (c : option (list Point)) (e : Emit) :
  center_and_size this (failed ++ nl) qs = Ok (c, e) ->
  new_regions e = []
  /\ match c with Some _ => new_errors e = "" | None => new_errors e <> "" end.
Proof.
  unfold center_and_size.
  destruct qs as [|q0 [|q1 [|q2 [|q3 qs]]]]; try discriminate.
  destruct (_pixel_coord this).
  - intros E. apply ret_Ok in E. destruct E as [-> [Er Ee]]. auto.
  - destruct (ConvertPointToPixels _ _) as [[px py]|].
    + intros E. apply ret_Ok in E. destruct E as [-> [Er Ee]]. auto.
    + intros E. apply bind_Ok in E. destruct E as (u & e1 & e2 & E1 & E2 & Er & Ee).
      apply ret_Ok in E2. destruct E2 as [-> [Er2 Ee2]].
      apply append_error_Ok in E1. destruct E1 as [Er1 Ee1].
      rewrite Er, Ee, Er1, Er2, Ee1, Ee2, append_nil_r. split; [reflexivity|].
      apply message_nonempty.
Qed.

Lemma polygon_points_outcome (this : Ds9ImportExport) (n : nat) :
  forall (qs : list Quantity) (c : option (list Point)) (e : Emit),
    (List.length qs <= n)%nat ->
    polygon_points this qs = Ok (c, e) ->
    new_regions e = []
    /\ match c with Some _ => new_errors e = "" | None => new_errors e <> "" end.
Proof.
  induction n as [|n IH]; intros qs c e Hlen.
  - destruct qs; [|simpl in Hlen; lia]. cbn [polygon_points].
    intros E. apply ret_Ok in E. destruct E as [-> [Er Ee]]. auto.
  - destruct qs as [|q0 [|q1 rest]]; cbn [polygon_points].
    + intros E. apply ret_Ok in E. destruct E as [-> [Er Ee]]. auto.
    + discriminate.
    + assert (Hrest : (List.length rest <= n)%nat) by (simpl in Hlen; lia).
      assert (Hstep : forall pt,
                 (r <- polygon_points this rest ;; ret (option_map (cons pt) r)) = Ok (c, e) ->
                 new_regions e = []
                 /\ match c with Some _ => new_errors e = "" | None => new_errors e <> "" end).
      { intros pt E. apply bind_Ok in E. destruct E as (r & e1 & e2 & E1 & E2 & Er & Ee).
        apply ret_Ok in E2. destruct E2 as [-> [Er2 Ee2]].
        destruct (IH rest r e1 Hrest E1) as [Er1 Ee1].
        rewrite Er, Ee, Er1, Er2, Ee2, append_nil_r. split; [reflexivity|].
        destruct r; exact Ee1. }
      destruct (_pixel_coord this); [apply Hstep|].
      destruct (ConvertPointToPixels _ _) as [[px py]|]; [apply Hstep|].
      intros E. apply bind_Ok in E. destruct E as (u & e1 & e2 & E1 & E2 & Er & Ee).
      apply ret_Ok in E2. destruct E2 as [-> [Er2 Ee2]].
      apply append_error_Ok in E1. destruct E1 as [Er1 Ee1].
      rewrite Er, Ee, Er1, Er2, Ee1, Ee2, append_nil_r. split; [reflexivity|].
      apply message_nonempty.
Qed.

Lemma ImportPointRegion_outcome (this : Ds9ImportExport) (parameters : list string)
    (name : string) (exclude_region : bool) (u : unit) (e : Emit) :
  ImportPointRegion this parameters name exclude_region = Ok (u, e) ->
  region_or_message e.
Proof.
  unfold ImportPointRegion.
  destruct (_ || _); [apply message_or|].
  apply after_param_loop.
  - intros p. rewrite <- !append_assoc. apply message_nonempty.
  - intros qs e2 _. destruct (_pixel_coord this).
    + destruct qs as [|q0 [|q1 qs]]; try discriminate. apply region_or.
    + destruct (ConvertPointToPixels _ _) as [[px py]|]; [apply region_or|apply message_or].
Qed.

Lemma ImportEllipseRegion_outcome (this : Ds9ImportExport) (parameters : list string)
    (name : string) (exclude_region : bool) (u : unit) (e : Emit) :
  ImportEllipseRegion this parameters name exclude_region = Ok (u, e) ->
  region_or_message e.
Proof.
  unfold ImportEllipseRegion.
  destruct (_ || _).
  - apply after_param_loop.
    + intros p. rewrite <- !append_assoc. apply message_nonempty.
    + intros qs e2 _. apply after_points.
      * intros c e1. apply center_and_size_outcome.
      * intros pts e3. apply region_or.
  - destruct (6 <? _)%nat; apply message_or.
Qed.

Lemma ImportCircleRegion_outcome (this : Ds9ImportExport) (parameters : list string)
    (name : string) (exclude_region : bool) (u : unit) (e : Emit) :
  ImportCircleRegion this parameters name exclude_region = Ok (u, e) ->
  region_or_message e.
Proof.
  unfold ImportCircleRegion.
  destruct (4 <=? _)%nat; [apply ImportEllipseRegion_outcome|apply message_or].
Qed.

Lemma ImportRectangleRegion_outcome (this : Ds9ImportExport) (parameters : list string)
    (name : string) (exclude_region : bool) (u : unit) (e : Emit) :
  ImportRectangleRegion this parameters name exclude_region = Ok (u, e) ->
  region_or_message e.
Proof.
  unfold ImportRectangleRegion.
  destruct (_ || _).
  - apply after_param_loop.
    + intros p. rewrite <- !append_assoc. apply message_nonempty.
    + intros qs e2 _. apply after_points.
      * intros c e1. apply center_and_size_outcome.
      * intros pts e3. apply region_or.
  - destruct (6 <? _)%nat; apply message_or.
Qed.

Lemma ImportPolygonRegion_outcome (this : Ds9ImportExport) (parameters : list string)
    (name : string) (exclude_region : bool) (u : unit) (e : Emit) :
  ImportPolygonRegion this parameters name exclude_region = Ok (u, e) ->
  region_or_message e.
Proof.
  unfold ImportPolygonRegion.
  destruct (negb _); [apply message_or|].
  apply after_param_loop.
  - intros p. rewrite <- !append_assoc. apply message_nonempty.
  - intros qs e2 _. apply after_points.
    + intros c e1. apply (polygon_points_outcome this (List.length qs)). apply Nat.le_refl.
    + intros pts e3. apply region_or.
Qed.

(** The region word of a definition, without its include/exclude
    indicator, as [SetRegion] computes it. *)
Definition strip_indicator (s : string) : string :=
  if Ascii.eqb (first_char s) "+" then substr1 s
  else if Ascii.eqb (first_char s) "-" then substr1 s
  else s.

(** The region words for which [SetRegion] has a branch. *)
Definition recognised (region_type : string) : bool :=
  existsb (fun w => str_find w region_type)
    ["point"; "circle"; "ellipse"; "box"; "polygon"; "line"; "vector"; "text"; "annulus"].

Lemma SetRegion_outcome (this : Ds9ImportExport) (line : string)
    (p0 : string) (ps : list string) (props : list (string * string)) (u : unit) (e : Emit) :
  ParseRegionParameters (_parser_delim this) line = (p0 :: ps, props) ->
  SetRegion this line = Ok (u, e) ->
  if recognised (strip_indicator p0) then region_or_message e else silent e.
Proof.
  intros Hparse. unfold SetRegion. rewrite Hparse.
  assert (Hrt : forall (T : Type) (k : string -> bool -> T),
             (let '(region_type, exclude_region) :=
                if Ascii.eqb (first_char p0) "+" then (substr1 p0, false)
                else if Ascii.eqb (first_char p0) "-" then (substr1 p0, true)
                else (p0, false) in k region_type exclude_region)
             = k (strip_indicator p0)
                 (negb (Ascii.eqb (first_char p0) "+") && Ascii.eqb (first_char p0) "-")).
  { intros T k. unfold strip_indicator.
    destruct (Ascii.eqb (first_char p0) "+"); [reflexivity|].
    destruct (Ascii.eqb (first_char p0) "-"); reflexivity. }
  rewrite Hrt. clear Hrt. unfold recognised. cbn [existsb].
  generalize (strip_indicator p0). intros rt.
  destruct (str_find "point" rt); cbn [orb]; [apply ImportPointRegion_outcome|].
  destruct (str_find "circle" rt); cbn [orb]; [apply ImportCircleRegion_outcome|].
  destruct (str_find "ellipse" rt); cbn [orb]; [apply ImportEllipseRegion_outcome|].
  destruct (str_find "box" rt); cbn [orb]; [apply ImportRectangleRegion_outcome|].
  destruct (str_find "polygon" rt); cbn [orb]; [apply ImportPolygonRegion_outcome|].
  destruct (str_find "line" rt); cbn [orb]; [apply message_or|].
  destruct (str_find "vector" rt); cbn [orb]; [apply message_or|].
  destruct (str_find "text" rt); cbn [orb]; [apply message_or|].
  destruct (str_find "annulus" rt); cbn [orb]; [apply message_or|].
  intros E. apply ret_Ok in E. exact (proj2 E).
Qed.

(** *** Import: lines do not interfere *)

(** Two objects that differ at most in the accumulated messages: the first
    holds [errors0 ++ rest], the second [errors0 ++ msg ++ rest]. *)
Definition shifted (errors0 msg : string) (a b : Ds9ImportExport) : Prop :=
  _file_id a = _file_id b /\ _parser_delim a = _parser_delim b
  /\ _image_ref_frame a = _image_ref_frame b /\ _file_ref_frame a = _file_ref_frame b
  /\ _pixel_coord a = _pixel_coord b /\ _coord_map a = _coord_map b
  /\ _import_regions a = _import_regions b /\ _export_regions a = _export_regions b
  /\ exists rest, _import_errors a = errors0 ++ rest
                  /\ _import_errors b = errors0 ++ msg ++ rest.

Definition shifted_results (errors0 msg : string) (ra rb : Res Ds9ImportExport) : Prop :=
  match ra, rb with
  | Ok a, Ok b => shifted errors0 msg a b
  | Undefined, Undefined => True
  | Thrown w, Thrown w' => w = w'
  | _, _ => False
  end.

Lemma polygon_points_reads (a b : Ds9ImportExport) (n : nat) :
  _file_ref_frame a = _file_ref_frame b -> _pixel_coord a = _pixel_coord b ->
  forall qs, (List.length qs <= n)%nat -> polygon_points a qs = polygon_points b qs.
Proof.
  intros Hf Hp. induction n as [|n IH]; intros qs Hlen.
  - destruct qs; [reflexivity|simpl in Hlen; lia].
  - destruct qs as [|q0 [|q1 qs]]; cbn [polygon_points]; try reflexivity.
    rewrite Hf, Hp, (IH qs) by (simpl in Hlen; lia). reflexivity.
Qed.

Lemma SetRegion_reads (a b : Ds9ImportExport) (line : string) :
  _file_id a = _file_id b -> _parser_delim a = _parser_delim b ->
  _file_ref_frame a = _file_ref_frame b -> _pixel_coord a = _pixel_coord b ->
  SetRegion a line = SetRegion b line.
Proof.
  intros Hid Hdelim Hframe Hpixel.
  assert (Hpoly : forall qs, polygon_points a qs = polygon_points b qs).
  { intros qs. exact (polygon_points_reads a b (List.length qs) Hframe Hpixel qs
                        (Nat.le_refl _)). }
  unfold SetRegion, ImportPointRegion, ImportCircleRegion, ImportEllipseRegion,
    ImportRectangleRegion, ImportPolygonRegion, center_and_size.
  rewrite Hid, Hdelim, Hframe, Hpixel.
  destruct (ParseRegionParameters _ _) as [[|p0 ps] props]; [reflexivity|].
  repeat match goal with
         | |- context [if ?c then _ else _] => destruct c; try reflexivity
         end.
  all: destruct (param_loop _ _ _ _ _ _) as [[[qs|] e1]| |w]; cbn [bind]; try reflexivity.
  all: rewrite (Hpoly qs); reflexivity.
Qed.

Lemma shifted_commit (errors0 msg : string) (a b : Ds9ImportExport) (e : Emit) :
  shifted errors0 msg a b -> shifted errors0 msg (commit a e) (commit b e).
Proof.
  intros (H1 & H2 & H3 & H4 & H5 & H6 & H7 & H8 & rest & Ha & Hb).
  unfold shifted, commit. cbn.
  repeat (split; [congruence|]).
  exists (rest ++ new_errors e). rewrite Ha, Hb, !append_assoc. auto.
Qed.

Lemma shifted_SetFileReferenceFrame (errors0 msg line : string) (a b : Ds9ImportExport) :
  shifted errors0 msg a b ->
  fst (SetFileReferenceFrame line a) = fst (SetFileReferenceFrame line b)
  /\ shifted errors0 msg (snd (SetFileReferenceFrame line a)) (snd (SetFileReferenceFrame line b)).
Proof.
  intros (H1 & H2 & H3 & H4 & H5 & H6 & H7 & H8 & rest & Ha & Hb).
  destruct a, b. cbn in H1, H2, H3, H4, H5, H6, H7, H8, Ha, Hb. subst.
  unfold SetFileReferenceFrame, shifted.
  cbn [set_file_ref_frame set_pixel_coord set_image_ref_frame SetImageReferenceFrame
       _file_id _parser_delim _image_ref_frame _file_ref_frame _pixel_coord _coord_map
       _import_regions _import_errors _export_regions].
  destruct (map_find _ _) as [frame|];
    [destruct (negb _ && negb _); [destruct (is_empty _image_ref_frame1)|]|];
    cbn;
    repeat match goal with
           | |- context [if ?c then _ else _] => destruct c
           end;
    cbn; (split; [reflexivity|]); repeat (split; [reflexivity|]); exists rest; auto.
Qed.

Lemma shifted_process_lines (errors0 msg : string) (lines : list string) :
  forall (ok : bool) (a b : Ds9ImportExport),
    shifted errors0 msg a b ->
    shifted_results errors0 msg (process_lines lines ok a) (process_lines lines ok b).
Proof.
  induction lines as [|line rest IH]; intros ok a b Hab; cbn [process_lines].
  - exact Hab.
  - destruct (is_empty line); [apply IH; exact Hab|].
    destruct (Ascii.eqb (first_char line) "#"); [apply IH; exact Hab|].
    destruct (Ascii.eqb (first_char line) "-"); [apply IH; exact Hab|].
    destruct (str_find "global" line); [apply IH; exact Hab|].
    assert (Hkw : IsDs9CoordSysKeyword a line = IsDs9CoordSysKeyword b line).
    { unfold IsDs9CoordSysKeyword. destruct Hab as (_ & _ & _ & _ & _ & -> & _). reflexivity. }
    rewrite Hkw. destruct (IsDs9CoordSysKeyword b line).
    + destruct (shifted_SetFileReferenceFrame errors0 msg line a b Hab) as [Hfst Hsnd].
      destruct (SetFileReferenceFrame line a) as [[oka la] ta].
      destruct (SetFileReferenceFrame line b) as [[okb lb] tb].
      cbn [fst snd] in Hfst, Hsnd. injection Hfst as -> ->.
      destruct okb; apply IH; [exact Hsnd|].
      apply shifted_commit. exact Hsnd.
    + destruct ok; [|apply IH; exact Hab].
      assert (Hset : SetRegion a line = SetRegion b line).
      { destruct Hab as (H1 & H2 & _ & H4 & H5 & _). apply SetRegion_reads; assumption. }
      rewrite Hset. unfold run. destruct (SetRegion b line) as [[u e]| |w]; cbn; auto.
      apply IH. apply shifted_commit. exact Hab.
Qed.

(** A line that [ProcessFileLines] hands to [SetRegion] (when the flag for
    the coordinate system is set). *)
Definition is_region_line (this : Ds9ImportExport) (line : string) : bool :=
  negb (is_empty line) && negb (Ascii.eqb (first_char line) "#")
  && negb (Ascii.eqb (first_char line) "-") && negb (str_find "global" line)
  && negb (IsDs9CoordSysKeyword this line).

(** What holds of a line from which [SetRegion] returns.  Take a region
    line whose region word [SetRegion] recognises, met while the
    coordinate-system flag is set, and suppose it is dealt with and yields
    no RegionState.  Then it yields a message, and the file is otherwise
    imported as if the line were not there: with and without the line, the
    rest of the file ends in the same way, with the same RegionStates, and
    the accumulated messages differ by exactly that message at that place. *)
Theorem failed_region_line_is_reported_and_import_goes_on :
  forall (this : Ds9ImportExport) (line p0 : string) (ps : list string)
         (props : list (string * string)) (e : Emit) (rest : list string),
    is_region_line this line = true ->
    ParseRegionParameters (_parser_delim this) line = (p0 :: ps, props) ->
    recognised (strip_indicator p0) = true ->
    SetRegion this line = Ok (tt, e) ->
    new_regions e = [] ->
    new_errors e <> ""
    /\ match process_lines rest true this, process_lines (line :: rest) true this with
       | Ok without, Ok with_line =>
           _import_regions with_line = _import_regions without
           /\ exists later,
                _import_errors without = _import_errors this ++ later
                /\ _import_errors with_line = _import_errors this ++ new_errors e ++ later
       | Undefined, Undefined => True
       | Thrown w, Thrown w' => w = w'
       | _, _ => False
       end.
Proof.
  intros this line p0 ps props e rest Hline Hparse Hrec Hset Hnone.
  pose proof (SetRegion_outcome this line p0 ps props tt e Hparse Hset) as Hout.
  rewrite Hrec in Hout.
  assert (Hmsg : new_errors e <> "").
  { destruct Hout as [(r & Hr & _)|[_ Hm]]; [congruence|exact Hm]. }
  split; [exact Hmsg|].
  assert (Hstep : process_lines (line :: rest) true this
                  = process_lines rest true (commit this e)).
  { cbn [process_lines]. unfold is_region_line in Hline.
    repeat (apply andb_prop in Hline; destruct Hline as [Hline ?]).
    repeat match goal with
           | H : negb ?c = true |- _ => apply negb_true_iff in H; rewrite H; clear H
           end.
    rewrite Hset. reflexivity. }
  rewrite Hstep.
  assert (Hsh : shifted (_import_errors this) (new_errors e) this (commit this e)).
  { unfold shifted, commit. cbn. repeat (split; [reflexivity|]).
    split; [rewrite Hnone, app_nil_r; reflexivity|]. split; [reflexivity|].
    exists "". rewrite !append_nil_r. auto. }
  pose proof (shifted_process_lines (_import_errors this) (new_errors e) rest true
                this (commit this e) Hsh) as Hres.
  unfold shifted_results in Hres.
  destruct (process_lines rest true this) as [a| |w];
    destruct (process_lines rest true (commit this e)) as [b| |w']; try exact Hres; auto.
  destruct Hres as (_ & _ & _ & _ & _ & _ & Hregs & _ & later & Ha & Hb).
  split; [symmetry; exact Hregs|]. exists later. auto.
Qed.

(** C6.  A number beyond the range of [double] ends the import.
    [CheckAndConvertParameter] catches [std::invalid_argument] only; for a
    point whose first coordinate [std::stod] finds out of range,
    [std::out_of_range] leaves [SetRegion] and [ProcessFileLines] without a
    message, whatever follows the line in the file: no later line is
    imported. *)
Theorem out_of_range_number_aborts_import :
  forall (this : Ds9ImportExport) (line tx ty : string)
         (properties : list (string * string)) (rest : list string),
    is_region_line this line = true ->
    ParseRegionParameters (_parser_delim this) line = (["point"; tx; ty], properties) ->
    tx <> "point" ->
    stod tx = StodOutOfRange ->
    SetRegion this line = Thrown "std::out_of_range"
    /\ process_lines (line :: rest) true this = Thrown "std::out_of_range".
Proof.
  intros this line tx ty props rest Hline Hparse Hne Hstod.
  assert (Hset : SetRegion this line = Thrown "std::out_of_range").
  { unfold SetRegion. rewrite Hparse.
    cbn [first_char Ascii.eqb Bool.eqb substr1 str_find String.prefix orb].
    unfold ImportPointRegion.
    cbn [List.length nth Nat.ltb Nat.leb orb negb andb String.eqb Ascii.eqb Bool.eqb].
    apply String.eqb_neq in Hne. rewrite Hne. cbn [skipn param_loop].
    unfold CheckAndConvertParameter. rewrite Hstod. reflexivity. }
  split; [exact Hset|].
  cbn [process_lines]. unfold is_region_line in Hline.
  repeat (apply andb_prop in Hline; destruct Hline as [Hline ?]).
  repeat match goal with
         | H : negb ?c = true |- _ => apply negb_true_iff in H; rewrite H; clear H
         end.
  rewrite Hset. reflexivity.
Qed.

(** *** The include/exclude indicator *)

(** For every region word but "point" the indicator changes nothing: a
    definition whose first item is [c w] with [c] one of [+] and [-] is
    imported as the definition whose first item is [w]. *)
Lemma SetRegion_indicator_ignored_unless_point (this : Ds9ImportExport)
    (line line' : string) (c : ascii) (w : string) (ps : list string)
    (props : list (string * string)) :
  c = "+"%char \/ c = "-"%char ->
  ParseRegionParameters (_parser_delim this) line = (String c w :: ps, props) ->
  ParseRegionParameters (_parser_delim this) line' = (w :: ps, props) ->
  strip_indicator w = w ->
  str_find "point" w = false ->
  SetRegion this line = SetRegion this line'.
Proof.
  intros Hc Hline Hline' Hw Hpoint. unfold SetRegion. rewrite Hline, Hline'.
  assert (Hl : forall (T : Type) (k : string -> bool -> T) (p0 : string),
             (let '(region_type, exclude_region) :=
                if Ascii.eqb (first_char p0) "+" then (substr1 p0, false)
                else if Ascii.eqb (first_char p0) "-" then (substr1 p0, true)
                else (p0, false) in k region_type exclude_region)
             = k (strip_indicator p0)
                 (negb (Ascii.eqb (first_char p0) "+") && Ascii.eqb (first_char p0) "-")).
  { intros T k p0. unfold strip_indicator.
    destruct (Ascii.eqb (first_char p0) "+"); [reflexivity|].
    destruct (Ascii.eqb (first_char p0) "-"); reflexivity. }
  rewrite !Hl. rewrite Hw.
  assert (Hs : strip_indicator (String c w) = w).
  { destruct Hc as [-> | ->]; reflexivity. }
  rewrite Hs, Hpoint.
  repeat match goal with
         | |- context [if ?b then _ else _] => destruct b; try reflexivity
         end.
Qed.

(** For a point the indicator is not ignored: when the first item is
    [+point] or [-point], [ImportPointRegion] finds neither [parameters[0]]
    nor [parameters[1]] equal to "point" and reports a syntax error. *)
Lemma SetRegion_indicator_on_point (this : Ds9ImportExport) (line : string) (c : ascii)
    (ps : list string) (props : list (string * string)) :
  c = "+"%char \/ c = "-"%char ->
  ParseRegionParameters (_parser_delim this) line = (String c "point" :: ps, props) ->
  nth 0 ps "" <> "point" ->
  SetRegion this line = Ok (tt, mkEmit [] ("point syntax error." ++ nl)).
Proof.
  intros Hc Hparse Hnext. unfold SetRegion. rewrite Hparse.
  apply String.eqb_neq in Hnext.
  destruct Hc as [-> | ->]; cbn [first_char Ascii.eqb Bool.eqb substr1];
    change (str_find "point" "point") with true; cbv iota;
    unfold ImportPointRegion; cbn [nth]; rewrite Hnext;
    cbn [String.eqb Ascii.eqb Bool.eqb negb andb]; rewrite orb_true_r; reflexivity.
Qed.

End Generic.

(** *** Import: parameters that read as numbers *)

Section Reading.

Context {collab : Collaborators}.

(** The item [t] is a bare number for the collaborators: [std::stod] takes
    all of it, [readQuantity] reads it as [v] without a unit, and it has no
    colon for [ConvertTimeFormatToDeg] to rewrite. *)
Definition reads_as (t : string) (v : Q) : Prop :=
  stod t = StodIdx (String.length t)
  /\ readQuantity t = Some (mkQuantity v "")
  /\ ConvertTimeFormatToDeg t = t.

(** The quantities that the parameter loop makes of bare numbers. *)
Fixpoint quantities (default_unit : nat -> string) (i : nat) (vs : list Q) : list Quantity :=
  match vs with
  | [] => []
  | v :: vs' => mkQuantity v (default_unit i) :: quantities default_unit (S i) vs'
  end.

Lemma CheckAndConvertParameter_reads (t region_type : string) (v : Q) :
  reads_as t v ->
  CheckAndConvertParameter t region_type = Ok ((true, t), mkEmit [] "").
Proof.
  intros (Hstod & _ & _). unfold CheckAndConvertParameter.
  rewrite Hstod, Nat.eqb_refl. reflexivity.
Qed.

Lemma param_loop_reads (region_type : string) (is_time : nat -> bool)
    (default_unit : nat -> string) (invalid : string -> string) :
  forall (ts : list string) (vs : list Q) (i : nat),
    Forall2 reads_as ts vs ->
    param_loop region_type is_time default_unit invalid ts i
    = Ok (Some (quantities default_unit i vs), mkEmit [] "").
Proof.
  induction ts as [|t ts IH]; intros vs i H; inversion H as [|t' v ts' vs' Ht Hts]; subst.
  - reflexivity.
  - cbn [param_loop quantities].
    rewrite (CheckAndConvertParameter_reads t region_type v Ht). cbn [bind].
    destruct Ht as (_ & Hread & Htime).
    assert (Hparam : (if is_time i then ConvertTimeFormatToDeg t else t) = t)
      by (destruct (is_time i); [exact Htime|reflexivity]).
    rewrite Hparam, Hread. cbn [getUnit is_empty setUnit getValue].
    rewrite (IH vs' (S i) Hts). reflexivity.
Qed.

Lemma Forall2_reads_length (ts : list string) (vs : list Q) :
  Forall2 reads_as ts vs -> List.length ts = List.length vs.
Proof. induction 1; simpl; congruence. Qed.

Lemma ImportPointRegion_reads (this : Ds9ImportExport) (tx ty name : string)
    (vx vy : Q) (exclude_region : bool) :
  _pixel_coord this = true ->
  reads_as tx vx -> reads_as ty vy ->
  String.eqb tx "point" = false ->
  ImportPointRegion this ["point"; tx; ty] name exclude_region
  = Ok (tt, mkEmit [mkRegionState (_file_id this) name POINT [set_xy vx vy] 0] "").
Proof.
  intros Hpix Hx Hy Hne. unfold ImportPointRegion.
  cbn [List.length nth Nat.ltb Nat.leb orb negb andb String.eqb Ascii.eqb Bool.eqb].
  rewrite Hne. cbn [skipn].
  rewrite (param_loop_reads _ _ _ _ [tx; ty] [vx; vy] 1) by (repeat (apply Forall2_cons; [assumption|]); apply Forall2_nil).
  cbn [bind quantities]. rewrite Hpix. reflexivity.
Qed.

(** The rotation that [ImportEllipseRegion] stores, from the angle read (if
    one was written) and from [is_circle]. *)
Definition imported_rotation (angle : option Q) (is_circle : bool) : Q :=
  let rotation := match angle with Some a => to_float a | None => 0%Q end in
  if negb is_circle then
    let rotation := to_float (rotation - 90) in
    if Qlt_bool rotation 0 then to_float (rotation + 360) else rotation
  else rotation.

Lemma ImportEllipseRegion_reads (this : Ds9ImportExport)
    (word tx ty ta tb name : string) (vx vy va vb : Q) (exclude_region : bool) :
  _pixel_coord this = true ->
  reads_as tx vx -> reads_as ty vy -> reads_as ta va -> reads_as tb vb ->
  ImportEllipseRegion this [word; tx; ty; ta; tb] name exclude_region
  = Ok (tt, mkEmit [mkRegionState (_file_id this) name ELLIPSE
                      [set_xy vx vy; set_xy va vb]
                      (imported_rotation None (String.eqb ta tb))] "").
Proof.
  intros Hpix Hx Hy Ha Hb. unfold ImportEllipseRegion, center_and_size.
  cbn [List.length Nat.eqb orb skipn nth].
  rewrite (param_loop_reads _ _ _ _ [tx; ty; ta; tb] [vx; vy; va; vb] 1)
    by (repeat (apply Forall2_cons; [assumption|]); apply Forall2_nil).
  cbn [bind quantities]. rewrite Hpix. reflexivity.
Qed.

Lemma ImportEllipseRegion_reads_angle (this : Ds9ImportExport)
    (word tx ty ta tb tr name : string) (vx vy va vb vr : Q) (exclude_region : bool) :
  _pixel_coord this = true ->
  reads_as tx vx -> reads_as ty vy -> reads_as ta va -> reads_as tb vb -> reads_as tr vr ->
  ImportEllipseRegion this [word; tx; ty; ta; tb; tr] name exclude_region
  = Ok (tt, mkEmit [mkRegionState (_file_id this) name ELLIPSE
                      [set_xy vx vy; set_xy va vb]
                      (imported_rotation (Some vr) (String.eqb ta tb))] "").
Proof.
  intros Hpix Hx Hy Ha Hb Hr. unfold ImportEllipseRegion, center_and_size.
  cbn [List.length Nat.eqb orb skipn nth].
  rewrite (param_loop_reads _ _ _ _ [tx; ty; ta; tb; tr] [vx; vy; va; vb; vr] 1)
    by (repeat (apply Forall2_cons; [assumption|]); apply Forall2_nil).
  cbn [bind quantities]. rewrite Hpix. reflexivity.
Qed.

Lemma ImportCircleRegion_reads (this : Ds9ImportExport)
    (word tx ty tr name : string) (vx vy vr : Q) (exclude_region : bool) :
  _pixel_coord this = true ->
  reads_as tx vx -> reads_as ty vy -> reads_as tr vr ->
  ImportCircleRegion this [word; tx; ty; tr] name exclude_region
  = Ok (tt, mkEmit [mkRegionState (_file_id this) name ELLIPSE
                      [set_xy vx vy; set_xy vr vr] 0] "").
Proof.
  intros Hpix Hx Hy Hr. unfold ImportCircleRegion. cbn [List.length Nat.leb nth].
  rewrite (ImportEllipseRegion_reads this "ellipse" tx ty tr tr name vx vy vr vr)
    by assumption.
  unfold imported_rotation. rewrite String.eqb_refl. reflexivity.
Qed.

Lemma ImportRectangleRegion_reads_angle (this : Ds9ImportExport)
    (word tx ty tw th tr name : string) (vx vy vw vh vr : Q) (exclude_region : bool) :
  _pixel_coord this = true ->
  reads_as tx vx -> reads_as ty vy -> reads_as tw vw -> reads_as th vh -> reads_as tr vr ->
  ImportRectangleRegion this [word; tx; ty; tw; th; tr] name exclude_region
  = Ok (tt, mkEmit [mkRegionState (_file_id this) name RECTANGLE
                      [set_xy vx vy; set_xy vw vh] (to_float vr)] "").
Proof.
  intros Hpix Hx Hy Hw Hh Hr. unfold ImportRectangleRegion, center_and_size.
  cbn [List.length Nat.eqb orb skipn nth].
  rewrite (param_loop_reads _ _ _ _ [tx; ty; tw; th; tr] [vx; vy; vw; vh; vr] 1)
    by (repeat (apply Forall2_cons; [assumption|]); apply Forall2_nil).
  cbn [bind quantities]. rewrite Hpix. reflexivity.
Qed.

(** The items and the values of the control points of a polygon. *)
Fixpoint flat_values (pts : list Point) : list Q :=
  match pts with
  | [] => []
  | p :: pts' => x p :: y p :: flat_values pts'
  end.

(** A pair of values as a [CARTA::Point] stores it. *)
Definition stored_point (p : Point) : Point := set_xy (x p) (y p).

Lemma polygon_points_quantities (this : Ds9ImportExport) (default_unit : nat -> string) :
  _pixel_coord this = true ->
  forall (pts : list Point) (i : nat),
    polygon_points this (quantities default_unit i (flat_values pts))
    = Ok (Some (map stored_point pts), mkEmit [] "").
Proof.
  intros Hpix. induction pts as [|[px py] pts IH]; intros i.
  - reflexivity.
  - cbn [flat_values quantities polygon_points x y]. rewrite Hpix, IH. reflexivity.
Qed.

Lemma length_flat_values (pts : list Point) :
  List.length (flat_values pts) = (2 * List.length pts)%nat.
Proof. induction pts as [|p pts IH]; simpl; [reflexivity|]. rewrite IH. lia. Qed.

Lemma ImportPolygonRegion_reads (this : Ds9ImportExport) (word name : string)
    (ts : list string) (pts : list Point) (exclude_region : bool) :
  _pixel_coord this = true ->
  Forall2 reads_as ts (flat_values pts) ->
  ImportPolygonRegion this (word :: ts) name exclude_region
  = Ok (tt, mkEmit [mkRegionState (_file_id this) name POLYGON (map stored_point pts) 0] "").
Proof.
  intros Hpix Hts. unfold ImportPolygonRegion.
  assert (Hodd : (List.length (word :: ts) mod 2 =? 1)%nat = true).
  { cbn [List.length]. rewrite (Forall2_reads_length _ _ Hts), length_flat_values.
    apply Nat.eqb_eq.
    replace (S (2 * List.length pts)) with (1 + List.length pts * 2)%nat by lia.
    rewrite Nat.Div0.mod_add. reflexivity. }
  rewrite Hodd. cbn [negb skipn].
  rewrite (param_loop_reads _ _ _ _ ts (flat_values pts) 1 Hts). cbn [bind].
  rewrite (polygon_points_quantities this _ Hpix pts 1). reflexivity.
Qed.

End Reading.

(** ** On the reference collaborators *)

Section OnPlain.

Import Ds9.Plain.

(** *** Number texts are read back *)

Lemma pow10_S (w : nat) : pow10 (S w) = (10 * pow10 w)%N.
Proof. unfold pow10. rewrite Nat2N.inj_succ, N.pow_succ_r'. reflexivity. Qed.

Lemma pow10_pos (w : nat) : (0 < pow10 w)%N.
Proof. unfold pow10. apply N.neq_0_lt_0, N.pow_nonzero. discriminate. Qed.

Lemma N_of_digit_char (d : N) : (d < 10)%N -> N_of_ascii (digit_char d) = (48 + d)%N.
Proof. intros H. unfold digit_char. apply N_ascii_embedding. lia. Qed.

Lemma is_digit_digit_char (d : N) : (d < 10)%N -> is_digit (digit_char d) = true.
Proof.
  intros H. unfold is_digit. rewrite (N_of_digit_char d H).
  apply andb_true_intro. split; apply N.leb_le; lia.
Qed.

Lemma digit_val_digit_char (d : N) : (d < 10)%N -> digit_val (digit_char d) = d.
Proof. intros H. unfold digit_val. rewrite (N_of_digit_char d H). lia. Qed.

Definition no_digit_head (s : string) : bool :=
  match s with
  | String c _ => negb (is_digit c)
  | EmptyString => true
  end.

Lemma scan_digits_stop (rest : string) (acc : N) (cnt : nat) :
  no_digit_head rest = true -> scan_digits rest acc cnt = (acc, cnt, rest).
Proof.
  destruct rest as [|c rest]; [reflexivity|]. cbn [no_digit_head scan_digits].
  intros H. apply negb_true_iff in H. rewrite H. reflexivity.
Qed.

Lemma scan_digits_fixed (w : nat) :
  forall (v acc : N) (cnt : nat) (rest : string),
    no_digit_head rest = true ->
    scan_digits (digits_fixed w v ++ rest) acc cnt
    = ((acc * pow10 w + v mod pow10 w)%N, (cnt + w)%nat, rest).
Proof.
  induction w as [|w IH]; intros v acc cnt rest Hrest.
  - cbn [digits_fixed append]. rewrite (scan_digits_stop rest acc cnt Hrest).
    change (pow10 0) with 1%N. rewrite N.mod_1_r, N.mul_1_r, N.add_0_r, Nat.add_0_r.
    reflexivity.
  - cbn [digits_fixed append scan_digits].
    assert (Hd : ((v / pow10 w) mod 10 < 10)%N) by (apply N.mod_lt; discriminate).
    rewrite (is_digit_digit_char _ Hd), (digit_val_digit_char _ Hd).
    rewrite (IH v _ (S cnt) rest Hrest).
    replace (S cnt + w)%nat with (cnt + S w)%nat by lia.
    assert (E : ((10 * acc + (v / pow10 w) mod 10) * pow10 w + v mod pow10 w
                 = acc * pow10 (S w) + v mod pow10 (S w))%N).
    { rewrite pow10_S. rewrite (N.mul_comm 10 (pow10 w)).
      rewrite (N.Div0.mod_mul_r v (pow10 w) 10). lia. }
    rewrite E. reflexivity.
Qed.

Lemma ndigits_bound (f : nat) :
  forall v : N, (v < 2 ^ N.of_nat (S f))%N -> (v < pow10 (ndigits f v))%N.
Proof.
  induction f as [|f IH]; intros v Hv.
  - cbn [ndigits]. change (pow10 1) with 10%N. change (2 ^ N.of_nat 1)%N with 2%N in Hv. lia.
  - cbn [ndigits]. destruct (N.ltb_spec v 10) as [Hlt|Hge].
    + change (pow10 1) with 10%N. exact Hlt.
    + rewrite pow10_S.
      assert (Hdiv : (v / 10 < 2 ^ N.of_nat (S f))%N).
      { apply N.Div0.div_lt_upper_bound.
        rewrite Nat2N.inj_succ, N.pow_succ_r' in Hv. lia. }
      specialize (IH _ Hdiv).
      pose proof (N.Div0.div_mod v 10) as Hdm.
      pose proof (N.mod_lt v 10) as Hm. lia.
Qed.

Lemma ndigits_pos (f : nat) (v : N) : (1 <= ndigits f v)%nat.
Proof. destruct f; cbn [ndigits]; [lia|]. destruct (v <? 10)%N; lia. Qed.

Lemma digits_of_N_spec (v : N) :
  exists w, (1 <= w)%nat /\ digits_of_N v = digits_fixed w v /\ (v < pow10 w)%N.
Proof.
  exists (ndigits (N.to_nat (N.log2 v)) v). split; [apply ndigits_pos|].
  split; [reflexivity|]. apply ndigits_bound.
  rewrite Nat2N.inj_succ, N2Nat.id.
  destruct v as [|p]; [reflexivity|].
  apply N.log2_spec. reflexivity.
Qed.

Lemma is_digit_props (c : ascii) :
  is_digit c = true ->
  is_space c = false /\ Ascii.eqb c "-" = false /\ Ascii.eqb c "+" = false
  /\ Ascii.eqb c "." = false /\ Ascii.eqb c ":" = false
  /\ mem_char c " ,()#" = false.
Proof.
  destruct c as [[] [] [] [] [] [] [] []]; vm_compute; intros H; try discriminate H;
    repeat split.
Qed.

Definition parsed (n : nat) (v : Q) : Q :=
  decimal_value (Qnum v <? 0)%Z (scaled n v) n 0.

Definition tail_ok (rest : string) : bool :=
  match rest with
  | EmptyString => true
  | String c _ =>
      negb (is_digit c) && negb (Ascii.eqb c ".") && negb (Ascii.eqb c "e")
      && negb (Ascii.eqb c "E")
  end.

Lemma tail_ok_no_digit (rest : string) : tail_ok rest = true -> no_digit_head rest = true.
Proof.
  destruct rest as [|c rest]; [reflexivity|]. cbn [tail_ok no_digit_head].
  intros H. repeat (apply andb_prop in H; destruct H as [H ?]). exact H.
Qed.

Lemma scan_exponent_tail (rest : string) : tail_ok rest = true -> scan_exponent rest = (0%Z, rest).
Proof.
  destruct rest as [|c rest]; [reflexivity|]. cbn [tail_ok scan_exponent].
  intros H. repeat (apply andb_prop in H; destruct H as [H ?]).
  repeat match goal with H : negb _ = true |- _ => apply negb_true_iff in H end.
  match goal with He : Ascii.eqb c "e" = false, HE : Ascii.eqb c "E" = false |- _ =>
    rewrite He, HE end.
  reflexivity.
Qed.

Lemma scan_sign_digits (neg : bool) (c : ascii) (s : string) :
  is_digit c = true ->
  scan_sign (skip_spaces ((if neg then "-" else "") ++ String c s)) = (neg, String c s).
Proof.
  intros Hc. destruct (is_digit_props c Hc) as (Hsp & Hm & Hp & _).
  destruct neg; cbn [append skip_spaces scan_sign].
  - reflexivity.
  - rewrite Hsp. cbn [scan_sign]. rewrite Hm, Hp. reflexivity.
Qed.

Lemma scan_number_fmt_fixed (n : nat) (v : Q) (rest : string) :
  tail_ok rest = true ->
  scan_number (fmt_fixed n v ++ rest) = Some (parsed n v, rest).
Proof.
  intros Hrest. unfold fmt_fixed, parsed.
  set (m := scaled n v). set (neg := (Qnum v <? 0)%Z).
  destruct (digits_of_N_spec (m / pow10 n)) as (w & Hw & Edig & Hlt).
  rewrite Edig. destruct w as [|w]; [lia|].
  rewrite !append_assoc.
  assert (Hd : ((m / pow10 n / pow10 w) mod 10 < 10)%N) by (apply N.mod_lt; discriminate).
  assert (Escan : forall tl, no_digit_head tl = true ->
             scan_digits
               (String (digit_char ((m / pow10 n / pow10 w) mod 10))
                  (digits_fixed w (m / pow10 n) ++ tl)) 0 0
             = ((m / pow10 n)%N, S w, tl)).
  { intros tl Htl.
    change (String (digit_char ((m / pow10 n / pow10 w) mod 10))
              (digits_fixed w (m / pow10 n) ++ tl))
      with (digits_fixed (S w) (m / pow10 n) ++ tl).
    rewrite (scan_digits_fixed (S w) _ 0 0 tl Htl), (N.mod_small _ _ Hlt). reflexivity. }
  unfold scan_number.
  cbn [digits_fixed append].
  rewrite (scan_sign_digits neg _ _ (is_digit_digit_char _ Hd)).
  pose proof (tail_ok_no_digit rest Hrest) as Hnd.
  destruct n as [|n].
  - cbn [append]. rewrite (Escan rest Hnd).
    assert (Hdot : match rest with
                   | String c r => if Ascii.eqb c "." then scan_digits r 0 0 else (0%N, 0%nat, rest)
                   | EmptyString => (0%N, 0%nat, rest)
                   end = (0%N, 0%nat, rest)).
    { destruct rest as [|c r]; [reflexivity|]. cbn [tail_ok] in Hrest.
      repeat (apply andb_prop in Hrest; destruct Hrest as [Hrest ?]).
      repeat match goal with H : negb _ = true |- _ => apply negb_true_iff in H end.
      match goal with H : Ascii.eqb c "." = false |- _ => rewrite H end. reflexivity. }
    rewrite Hdot. cbn [Nat.add Nat.eqb]. rewrite (scan_exponent_tail rest Hrest).
    change (pow10 0) with 1%N. rewrite N.div_1_r, N.mul_1_r, N.add_0_r. reflexivity.
  - cbn [append]. rewrite Escan by reflexivity.
    cbn [Ascii.eqb Bool.eqb].
    change (String (digit_char ((m mod pow10 (S n) / pow10 n) mod 10))
              (digits_fixed n (m mod pow10 (S n)) ++ rest))
      with (digits_fixed (S n) (m mod pow10 (S n)) ++ rest).
    rewrite (scan_digits_fixed (S n) _ 0 0 rest Hnd).
    rewrite N.Div0.mod_mod. cbn [N.mul N.add Nat.add Nat.eqb].
    rewrite (scan_exponent_tail rest Hrest).
    replace (m / pow10 (S n) * pow10 (S n) + m mod pow10 (S n))%N with m
      by (pose proof (N.Div0.div_mod m (pow10 (S n))); lia).
    reflexivity.
Qed.

(** Characters of a number text. *)
Definition num_char (c : ascii) : bool :=
  is_digit c || Ascii.eqb c "-" || Ascii.eqb c ".".

Lemma str_forall_append (P : ascii -> bool) (a b : string) :
  str_forall P (a ++ b) = str_forall P a && str_forall P b.
Proof.
  induction a as [|c a IH]; cbn [append str_forall]; [reflexivity|].
  rewrite IH, andb_assoc. reflexivity.
Qed.

Lemma str_forall_impl (P R : ascii -> bool) (s : string) :
  (forall c, P c = true -> R c = true) -> str_forall P s = true -> str_forall R s = true.
Proof.
  intros H. induction s as [|c s IH]; cbn [str_forall]; [reflexivity|].
  intros E. apply andb_prop in E. destruct E as [Ec Es].
  rewrite (H c Ec), (IH Es). reflexivity.
Qed.

Lemma digits_fixed_chars (w : nat) (v : N) : str_forall is_digit (digits_fixed w v) = true.
Proof.
  induction w as [|w IH]; cbn [digits_fixed str_forall]; [reflexivity|].
  rewrite IH, is_digit_digit_char; [reflexivity|]. apply N.mod_lt. discriminate.
Qed.

Lemma digits_of_N_chars (v : N) : str_forall is_digit (digits_of_N v) = true.
Proof. unfold digits_of_N. apply digits_fixed_chars. Qed.

Lemma fmt_fixed_chars (n : nat) (v : Q) : str_forall num_char (fmt_fixed n v) = true.
Proof.
  assert (Hdig : forall s, str_forall is_digit s = true -> str_forall num_char s = true).
  { intros s. apply str_forall_impl. intros c Hc. unfold num_char. rewrite Hc. reflexivity. }
  unfold fmt_fixed. rewrite !str_forall_append.
  rewrite (Hdig _ (digits_of_N_chars _)).
  destruct (Qnum v <? 0)%Z; destruct n; cbn [append str_forall andb];
    try rewrite (Hdig _ (digits_fixed_chars _ _)); reflexivity.
Qed.

Lemma fmt_fixed_nonempty (n : nat) (v : Q) : fmt_fixed n v <> "".
Proof.
  unfold fmt_fixed. destruct (digits_of_N_spec (scaled n v / pow10 n)) as (w & Hw & E & _).
  rewrite E. destruct w as [|w]; [lia|].
  destruct (Qnum v <? 0)%Z; discriminate.
Qed.

Lemma num_char_props (c : ascii) :
  num_char c = true ->
  Ascii.eqb c ":" = false /\ mem_char c " ,()#" = false /\ Ascii.eqb c "#" = false
  /\ Ascii.eqb c "p" = false.
Proof.
  destruct c as [[] [] [] [] [] [] [] []]; vm_compute; intros H; try discriminate H;
    repeat split.
Qed.

Lemma ConvertTimeFormatToDeg_id (s : string) :
  str_forall num_char s = true -> ConvertTimeFormatToDeg s = s.
Proof.
  induction s as [|c s IH]; cbn [str_forall ConvertTimeFormatToDeg]; [reflexivity|].
  intros E. apply andb_prop in E. destruct E as [Ec Es].
  destruct (num_char_props c Ec) as (Hcolon & _). rewrite Hcolon, (IH Es). reflexivity.
Qed.

Lemma fmt_fixed_reads (n : nat) (v : Q) : reads_as (fmt_fixed n v) (parsed n v).
Proof.
  pose proof (scan_number_fmt_fixed n v "" eq_refl) as Hscan.
  rewrite append_nil_r in Hscan.
  unfold reads_as.
  change (Ds9.stod (fmt_fixed n v)) with (Plain.stod (fmt_fixed n v)).
  change (Ds9.readQuantity (fmt_fixed n v)) with (Plain.readQuantity (fmt_fixed n v)).
  unfold Plain.stod, Plain.readQuantity. rewrite Hscan.
  cbn [String.length]. rewrite Nat.sub_0_r.
  repeat split. apply ConvertTimeFormatToDeg_id, fmt_fixed_chars.
Qed.

Lemma fmt_fixed_not_point (n : nat) (v : Q) : String.eqb (fmt_fixed n v) "point" = false.
Proof.
  pose proof (fmt_fixed_chars n v) as Hc. pose proof (fmt_fixed_nonempty n v) as Hn.
  destruct (fmt_fixed n v) as [|c s]; [congruence|].
  cbn [str_forall] in Hc. apply andb_prop in Hc. destruct Hc as [Hc _].
  destruct (num_char_props c Hc) as (_ & _ & _ & Hp).
  cbn [String.eqb]. rewrite Hp. reflexivity.
Qed.

(** Tokenising an exported line. *)
Definition delims : string := " ,()#".

Definition is_sep (c : ascii) : bool := mem_char c " ,()".
Definition not_delim (c : ascii) : bool := negb (mem_char c delims).

Definition comment_ok (c : string) : bool :=
  match c with
  | EmptyString => true
  | String ch _ => Ascii.eqb ch "#"
  end.

Definition flush (cur : string) : list string := if is_empty cur then [] else [cur].

Lemma is_sep_props (c : ascii) :
  is_sep c = true -> mem_char c delims = true /\ Ascii.eqb c "#" = false.
Proof.
  destruct c as [[] [] [] [] [] [] [] []]; vm_compute; intros H; try discriminate H;
    repeat split.
Qed.

Lemma not_delim_props (c : ascii) :
  not_delim c = true -> mem_char c delims = false /\ Ascii.eqb c "#" = false.
Proof.
  destruct c as [[] [] [] [] [] [] [] []]; vm_compute; intros H; try discriminate H;
    repeat split.
Qed.

Lemma params_token (tok : string) :
  forall (s cur : string),
    str_forall not_delim tok = true ->
    tokenize delims (before_hash (tok ++ s)) cur = tokenize delims (before_hash s) (cur ++ tok).
Proof.
  induction tok as [|c tok IH]; intros s cur H.
  - cbn [append]. rewrite append_nil_r. reflexivity.
  - cbn [str_forall] in H. apply andb_prop in H. destruct H as [Hc Ht].
    destruct (not_delim_props c Hc) as [Hd Hh].
    cbn [append before_hash]. rewrite Hh. cbn [tokenize]. rewrite Hd.
    rewrite (IH s _ Ht), append_assoc. reflexivity.
Qed.

Lemma params_tail (tail : string) :
  forall (comment cur : string),
    str_forall is_sep tail = true -> comment_ok comment = true ->
    tokenize delims (before_hash (tail ++ comment)) cur = flush cur.
Proof.
  induction tail as [|c tail IH]; intros comment cur Ht Hc.
  - cbn [append]. destruct comment as [|ch comment]; [reflexivity|].
    cbn [comment_ok] in Hc. cbn [before_hash]. rewrite Hc. reflexivity.
  - cbn [str_forall] in Ht. apply andb_prop in Ht. destruct Ht as [Hs Ht].
    destruct (is_sep_props c Hs) as [Hd Hh].
    cbn [append before_hash]. rewrite Hh. cbn [tokenize]. rewrite Hd.
    rewrite (IH comment "" Ht Hc). unfold flush at 2. cbn [is_empty].
    rewrite app_nil_r. reflexivity.
Qed.

Lemma params_sep (sep : string) :
  forall (s cur : string),
    sep <> "" -> str_forall is_sep sep = true ->
    tokenize delims (before_hash (sep ++ s)) cur
    = (flush cur ++ tokenize delims (before_hash s) "")%list.
Proof.
  induction sep as [|c sep IH]; intros s cur Hne Hs; [congruence|].
  cbn [str_forall] in Hs. apply andb_prop in Hs. destruct Hs as [Hc Hs].
  destruct (is_sep_props c Hc) as [Hd Hh].
  cbn [append before_hash]. rewrite Hh. cbn [tokenize]. rewrite Hd. fold (flush cur).
  destruct sep as [|c' sep]; [reflexivity|].
  rewrite (IH s "" ltac:(discriminate) Hs). reflexivity.
Qed.

Fixpoint lay (items : list (string * string)) : string :=
  match items with
  | [] => ""
  | (sep, tok) :: items' => sep ++ tok ++ lay items'
  end.

Definition tok_ok (t : string) : Prop := t <> "" /\ str_forall not_delim t = true.

Definition item_ok (it : string * string) : Prop :=
  fst it <> "" /\ str_forall is_sep (fst it) = true /\ tok_ok (snd it).

Lemma params_lay (items : list (string * string)) :
  forall (tok tail comment : string),
    tok_ok tok -> Forall item_ok items ->
    str_forall is_sep tail = true -> comment_ok comment = true ->
    tokenize delims (before_hash (tok ++ lay items ++ tail ++ comment)) ""
    = tok :: map snd items.
Proof.
  induction items as [|[sep t] items IH]; intros tok tail comment [Hne Htok] Hitems Htail Hc.
  - cbn [lay append map]. rewrite (params_token tok _ "" Htok). cbn [append].
    rewrite (params_tail tail comment tok Htail Hc). unfold flush.
    destruct tok; [congruence|reflexivity].
  - inversion Hitems as [|it its [Hsne [Hsep Ht]] Hrest]; subst.
    cbn [fst snd] in Hsne, Hsep, Ht.
    cbn [lay map snd]. rewrite (params_token tok _ "" Htok). cbn [append].
    rewrite !append_assoc. rewrite (params_sep sep _ tok Hsne Hsep).
    rewrite (IH t tail comment Ht Hrest Htail Hc). unfold flush.
    destruct tok; [congruence|reflexivity].
Qed.

Lemma fmt_fixed_tok_ok (n : nat) (v : Q) : tok_ok (fmt_fixed n v).
Proof.
  split; [apply fmt_fixed_nonempty|].
  apply (str_forall_impl num_char); [|apply fmt_fixed_chars].
  intros c Hc. destruct (num_char_props c Hc) as (_ & Hd & _).
  unfold not_delim, delims. rewrite Hd. reflexivity.
Qed.

Lemma round_half_even_close (a d : N) :
  (0 < d)%N ->
  (2 * Z.abs (Z.of_N (round_half_even a d) * Z.of_N d - Z.of_N a) <= Z.of_N d)%Z.
Proof.
  intros Hd. unfold round_half_even.
  pose proof (N.Div0.div_mod a d) as Hdm.
  pose proof (N.mod_lt a d ltac:(lia)) as Hm.
  set (q := (a / d)%N) in *. set (r := (a mod d)%N) in *.
  clearbody q r. subst a.
  destruct (N.compare_spec (2 * r) d) as [E|L|G]; [destruct (N.even q)| |];
    rewrite ?N2Z.inj_add, ?N2Z.inj_mul; cbn [Z.of_N]; first [lia | nia].
Qed.

Lemma parsed_eq (n : nat) (p : positive) (v : Q) :
  pow10 n = Npos p ->
  (parsed n v == ((if (Qnum v <? 0)%Z then -1 else 1) * Z.of_N (scaled n v)) # p)%Q.
Proof.
  intros Hp. unfold parsed, decimal_value. rewrite Hp.
  generalize (Z.of_N (scaled n v)). intros M.
  change (Qpower 10 0) with 1%Q. rewrite Qmult_1_r.
  change (Z.of_N (N.pos p)) with (Z.pos p). rewrite <- Qmake_Qdiv.
  destruct (Qnum v <? 0)%Z; unfold Qeq, Qmult; cbn [Qnum Qden];
    rewrite ?Pos.mul_1_l; reflexivity.
Qed.

Lemma parsed_close (n : nat) (p : positive) (v : Q) :
  pow10 n = Npos p ->
  (Qabs (parsed n v - v) <= 1 # (2 * p))%Q.
Proof.
  intros Hp. rewrite (parsed_eq n p v Hp). unfold scaled. rewrite Hp.
  pose proof (round_half_even_close (Z.abs_N (Qnum v) * Npos p) (Npos (Qden v)) eq_refl) as Hc.
  revert Hc.
  generalize (round_half_even (Z.abs_N (Qnum v) * Npos p) (Npos (Qden v))). intros m Hc.
  destruct v as [vn vd]. cbn [Qnum Qden] in *.
  rewrite N2Z.inj_mul, N2Z.inj_abs_N in Hc. cbn [Z.of_N] in Hc.
  unfold Qle, Qabs, Qminus, Qplus, Qopp. cbn [Qnum Qden].
  rewrite !Pos2Z.inj_mul.
  assert (Habs : Z.abs ((if (vn <? 0)%Z then -1 else 1) * Z.of_N m * Z.pos vd
                        + - vn * Z.pos p)%Z
                 = Z.abs (Z.of_N m * Z.pos vd - Z.abs vn * Z.pos p)%Z).
  { destruct (Z.ltb_spec vn 0) as [Hneg|Hpos]; lia. }
  rewrite Habs. revert Hc. generalize (Z.abs (Z.of_N m * Z.pos vd - Z.abs vn * Z.pos p)).
  intros t Ht. change (Z.pos 2) with 2%Z. nia.
Qed.

Lemma parsed_close_2 (v : Q) : (Qabs (parsed 2 v - v) <= 1 # 100)%Q.
Proof.
  apply (Qle_trans _ (1 # 200)); [apply (parsed_close 2 100 v); reflexivity|].
  unfold Qle. cbn. lia.
Qed.

(** Assembling lines. *)
Definition comment_of (name : string) : string :=
  if negb (is_empty name) then " # text={" ++ name ++ "}" else "".

Lemma finish_export_line_eq (region_line name : string) (this : Ds9ImportExport) :
  region_line <> "" ->
  finish_export_line region_line name this
  = (true, push_export ((region_line ++ comment_of name) ++ nl) this).
Proof.
  intros Hne. unfold finish_export_line, comment_of.
  destruct (negb (is_empty name)).
  - destruct region_line; [congruence|reflexivity].
  - rewrite append_nil_r. destruct region_line; [congruence|reflexivity].
Qed.

Lemma parameters_of_line (word : string) (items : list (string * string)) (name : string) :
  tok_ok word -> Forall item_ok items ->
  fst (Plain.ParseRegionParameters delims ((word ++ lay items ++ ")") ++ comment_of name))
  = word :: map snd items.
Proof.
  intros Hw Hitems. unfold Plain.ParseRegionParameters. cbn [fst].
  unfold comment_of. destruct (negb (is_empty name)).
  - replace ((word ++ lay items ++ ")") ++ " # text={" ++ name ++ "}")
      with (word ++ lay items ++ ") " ++ ("# text={" ++ name ++ "}"))
      by (rewrite !append_assoc; reflexivity).
    apply params_lay; auto.
  - rewrite append_nil_r.
    replace (word ++ lay items ++ ")") with (word ++ lay items ++ ")" ++ "")
      by reflexivity.
    apply params_lay; auto.
Qed.

Lemma literal_tok_ok (w : string) :
  negb (is_empty w) && str_forall not_delim w = true -> tok_ok w.
Proof.
  intros H. apply andb_prop in H. destruct H as [Hn Hc]. split; [|exact Hc].
  destruct w; [discriminate|discriminate].
Qed.

Lemma number_item_ok (sep : string) (n : nat) (v : Q) :
  negb (is_empty sep) && str_forall is_sep sep = true -> item_ok (sep, fmt_fixed n v).
Proof.
  intros H. apply andb_prop in H. destruct H as [Hn Hc].
  split; [|split; [exact Hc|apply fmt_fixed_tok_ok]].
  cbn [fst]. destruct sep; discriminate.
Qed.

Section Dispatch.
Context {collab : Collaborators}.

Lemma SetRegion_dispatch (this : Ds9ImportExport) (line word : string) (ps : list string) :
  fst (Ds9.ParseRegionParameters (_parser_delim this) line) = word :: ps ->
  exists name,
    (word = "point" -> SetRegion this line = ImportPointRegion this (word :: ps) name false)
    /\ (word = "circle" -> SetRegion this line = ImportCircleRegion this (word :: ps) name false)
    /\ (word = "ellipse" -> SetRegion this line = ImportEllipseRegion this (word :: ps) name false)
    /\ (word = "box" -> SetRegion this line = ImportRectangleRegion this (word :: ps) name false)
    /\ (word = "polygon" -> SetRegion this line = ImportPolygonRegion this (word :: ps) name false).
Proof.
  intros H. unfold SetRegion.
  destruct (Ds9.ParseRegionParameters (_parser_delim this) line) as [params props].
  cbn [fst] in H. subst params.
  exists (match map_find "text" props with Some v => v | None => "" end).
  repeat split; intros ->; reflexivity.
Qed.

End Dispatch.

Section Units.

Context {collab : Collaborators}.

(** The item [t] is a number with a DS9 unit character that
    [CheckAndConvertParameter] lets through unchanged, read by
    [readQuantity] as [v] with the unit [u]. *)
Definition reads_with_unit (t : string) (v : Q) (u : string) : Prop :=
  (forall region_type,
      CheckAndConvertParameter t region_type = Ok ((true, t), mkEmit [] ""))
  /\ Ds9.readQuantity t = Some (mkQuantity v u)
  /\ is_empty u = false.

Lemma ImportCircleRegion_reads_unit (this : Ds9ImportExport)
    (word tx ty tr name : string) (vx vy vr : Q) (u : string) (exclude_region : bool) :
  _pixel_coord this = true ->
  reads_as tx vx -> reads_as ty vy -> reads_with_unit tr vr u ->
  ImportCircleRegion this [word; tx; ty; tr] name exclude_region
  = Ok (tt, mkEmit [mkRegionState (_file_id this) name ELLIPSE
                      [set_xy vx vy; set_xy vr vr] 0] "").
Proof.
  intros Hpix Hx Hy (Hcr & Hrr & Hu).
  pose proof (CheckAndConvertParameter_reads tx "ellipse" vx Hx) as Hcx.
  pose proof (CheckAndConvertParameter_reads ty "ellipse" vy Hy) as Hcy.
  destruct Hx as (_ & Hrx & _). destruct Hy as (_ & Hry & Hty).
  unfold ImportCircleRegion, ImportEllipseRegion, center_and_size.
  cbn [List.length Nat.leb Nat.eqb orb skipn nth param_loop].
  rewrite Hcx. cbn [bind]. rewrite Hrx. cbn [getUnit is_empty setUnit getValue].
  rewrite Hcy. cbn [bind]. rewrite Hty, Hry. cbn [getUnit is_empty setUnit getValue].
  rewrite (Hcr "ellipse"). cbn [bind]. rewrite Hrr. cbn [getUnit]. rewrite Hu.
  cbn [bind ret option_map new_regions new_errors app append]. rewrite Hpix.
  cbn [bind ret option_map new_regions new_errors app append point_of getValue Nat.ltb Nat.leb].
  rewrite String.eqb_refl. reflexivity.
Qed.

End Units.

(** *** Export, then import *)

(** The regions that [AddExportRegion (const RegionState&)] can write:
    [points[0]] (and [points[1]]) must be there.  The spec's data model
    (Point = 1 control point, Rectangle and Ellipse = 2, Polygon = N >= 3)
    is within it. *)
Definition exportable (rs : RegionState) : Prop :=
  match type rs with
  | POINT => List.length (control_points rs) = 1%nat
  | RECTANGLE | ELLIPSE => List.length (control_points rs) = 2%nat
  | POLYGON => (1 <= List.length (control_points rs))%nat
  | _ => False
  end.

(** The same for the flat list of quantities that the other overload takes:
    x and y of each control point in turn. *)
Definition exportable_quantities (type : RegionType) (control_points : list Quantity) : Prop :=
  match type with
  | POINT => List.length control_points = 2%nat
  | RECTANGLE | ELLIPSE => List.length control_points = 4%nat
  | POLYGON =>
      (2 <= List.length control_points)%nat /\ Nat.even (List.length control_points) = true
  | _ => False
  end.

(** The values of the quantities, x and y in turn, as points; they are
    [double]s. *)
Fixpoint points_of (control_points : list Quantity) : list Point :=
  match control_points with
  | q0 :: q1 :: rest => mkPoint (getValue q0) (getValue q1) :: points_of rest
  | _ => []
  end.

(** Both coordinates within [eps]. *)
Definition within (eps : Q) (p' p : Point) : Prop :=
  (Qabs (x p' - x p) <= eps)%Q /\ (Qabs (y p' - y p) <= eps)%Q.

(** A control point as its text at [n] decimals is read, and as the
    importer then stores it. *)
Definition as_read (n : nat) (p : Point) : Point :=
  mkPoint (parsed n (x p)) (parsed n (y p)).

Definition printed (n : nat) (p : Point) : Point := stored_point (as_read n p).

(** The coordinates of a [CARTA::Point] are single-precision values. *)
Definition float_point (p : Point) : Prop :=
  is_float (x p) = true /\ is_float (y p) = true.

(** Coordinates below [2^18] in magnitude. *)
Definition bounded (v : Q) : Prop := (Qabs v <= 262143)%Q.

Definition bounded_point (p : Point) : Prop := bounded (x p) /\ bounded (y p).

(** Two decimals of a single-precision value, stored in single precision:
    the value stored is at least as near to the text as the original is. *)
Lemma stored_close_2 (v : Q) :
  is_float v = true -> (Qabs (to_float (parsed 2 v) - v) <= 1 # 100)%Q.
Proof.
  intros Hf.
  pose proof (to_float_nearest (parsed 2 v) v (is_float_representable v Hf)) as Hn.
  pose proof (parsed_close 2 100 v eq_refl) as Hc.
  change (1 # 2 * 100)%Q with (1 # 200)%Q in Hc.
  rewrite (Qabs_Qminus v) in Hn.
  assert (Hn' : (Qabs (to_float (parsed 2 v) - parsed 2 v) <= 1 # 200)%Q)
    by (apply (Qle_trans _ _ _ Hn); exact Hc).
  apply Qabs_Qle_condition in Hc. apply Qabs_Qle_condition in Hn'.
  apply Qabs_Qle_condition. lra.
Qed.

(** Four decimals of a value below [2^18], stored in single precision: half
    a unit of the last place is [2^-7] there. *)
Lemma stored_close_4 (v : Q) :
  bounded v -> (Qabs (to_float (parsed 4 v) - v) <= 1 # 100)%Q.
Proof.
  unfold bounded. intros Hb.
  pose proof (parsed_close 4 10000 v eq_refl) as Hc.
  change (1 # 2 * 10000)%Q with (1 # 20000)%Q in Hc.
  apply Qabs_Qle_condition in Hc. apply Qabs_Qle_condition in Hb.
  assert (Hlt : (Qabs (parsed 4 v) < 2 ^ 18)%Q).
  { change (2 ^ 18)%Q with 262144%Q. apply Qabs_Qlt_condition. lra. }
  pose proof (to_float_error (parsed 4 v) 18 ltac:(lia) Hlt) as He.
  change (2 ^ (18 - 25))%Q with (1 # 128)%Q in He.
  apply Qabs_Qle_condition in He. apply Qabs_Qle_condition. lra.
Qed.

Lemma printed_within_2 (pts : list Point) :
  Forall float_point pts ->
  Forall2 (within (1 # 100)) (map (printed 2) pts) pts.
Proof.
  induction 1 as [|p pts [Hx Hy] _ IH]; constructor; [|exact IH].
  split; [exact (stored_close_2 _ Hx)|exact (stored_close_2 _ Hy)].
Qed.

Lemma printed_within_4 (pts : list Point) :
  Forall bounded_point pts ->
  Forall2 (within (1 # 100)) (map (printed 4) pts) pts.
Proof.
  induction 1 as [|p pts [Hx Hy] _ IH]; constructor; [|exact IH].
  split; [exact (stored_close_4 _ Hx)|exact (stored_close_4 _ Hy)].
Qed.

Lemma points_of_bounded (k : nat) :
  forall control_points : list Quantity,
    (List.length control_points <= k)%nat ->
    Forall (fun q => bounded (getValue q)) control_points ->
    Forall bounded_point (points_of control_points).
Proof.
  induction k as [|k IH]; intros cps Hlen Hb.
  - destruct cps; [constructor|simpl in Hlen; lia].
  - destruct cps as [|q0 [|q1 rest]]; [constructor|constructor|].
    inversion Hb as [|? ? H0 Hb']; subst. inversion Hb' as [|? ? H1 Hb'']; subst.
    cbn [points_of]. constructor; [split; assumption|].
    apply IH; [simpl in Hlen; lia|exact Hb''].
Qed.

Definition decimals (v : Q) : nat := find_scale (Pos.size_nat (Qden v)) 0 v.

Lemma fmt_general_eq (v : Q) : Ds9.fmt_general v = fmt_fixed (decimals v) v.
Proof. reflexivity. Qed.

Ltac items_ok :=
  repeat (apply Forall_cons; [apply number_item_ok; reflexivity|]); apply Forall_nil.

Ltac parse_line importer word items name Hdelim H :=
  let Hparse := fresh "Hparse" in
  pose proof (parameters_of_line word items name (literal_tok_ok word eq_refl)
                ltac:(items_ok)) as Hparse;
  cbn [lay map snd] in Hparse; rewrite !append_assoc in Hparse; cbn [append] in Hparse;
  rewrite ?append_assoc; cbn [append];
  pose proof (SetRegion_dispatch importer _ word _ ltac:(rewrite Hdelim; exact Hparse)) as H.

Lemma import_point (n : nat) (importer : Ds9ImportExport) (p : Point) (name : string) :
  _parser_delim importer = delims -> _pixel_coord importer = true ->
  exists rs',
    SetRegion importer
      (("point(" ++ fmt_fixed n (x p) ++ ", " ++ fmt_fixed n (y p) ++ ")") ++ comment_of name)
    = Ok (tt, mkEmit [rs'] "")
    /\ type rs' = POINT /\ control_points rs' = [printed n p].
Proof.
  intros Hdelim Hpix.
  parse_line importer "point" [("(", fmt_fixed n (x p)); (", ", fmt_fixed n (y p))]
    name Hdelim H.
  destruct H as (nm & H & _). rewrite (H eq_refl).
  rewrite (ImportPointRegion_reads importer _ _ nm _ _ false Hpix
             (fmt_fixed_reads n (x p)) (fmt_fixed_reads n (y p)) (fmt_fixed_not_point n (x p))).
  eexists. split; [reflexivity|]. split; reflexivity.
Qed.

Lemma import_circle (n : nat) (importer : Ds9ImportExport) (p : Point) (r : Q)
    (name : string) :
  _parser_delim importer = delims -> _pixel_coord importer = true ->
  exists rs',
    SetRegion importer
      (("circle(" ++ fmt_fixed n (x p) ++ ", " ++ fmt_fixed n (y p) ++ ", "
        ++ fmt_fixed n r ++ ")") ++ comment_of name)
    = Ok (tt, mkEmit [rs'] "")
    /\ type rs' = ELLIPSE
    /\ control_points rs' = [printed n p; set_xy (parsed n r) (parsed n r)].
Proof.
  intros Hdelim Hpix.
  parse_line importer "circle"
    [("(", fmt_fixed n (x p)); (", ", fmt_fixed n (y p)); (", ", fmt_fixed n r)] name Hdelim H.
  destruct H as (nm & _ & H & _). rewrite (H eq_refl).
  rewrite (ImportCircleRegion_reads importer _ _ _ _ nm _ _ _ false Hpix
             (fmt_fixed_reads n (x p)) (fmt_fixed_reads n (y p)) (fmt_fixed_reads n r)).
  eexists. split; [reflexivity|]. split; reflexivity.
Qed.

Lemma import_ellipse (n : nat) (importer : Ds9ImportExport) (p s : Point) (name : string) :
  _parser_delim importer = delims -> _pixel_coord importer = true ->
  exists rs',
    SetRegion importer
      (("ellipse(" ++ fmt_fixed n (x p) ++ ", " ++ fmt_fixed n (y p) ++ ", "
        ++ fmt_fixed n (x s) ++ ", " ++ fmt_fixed n (y s) ++ ")") ++ comment_of name)
    = Ok (tt, mkEmit [rs'] "")
    /\ type rs' = ELLIPSE
    /\ control_points rs' = [printed n p; printed n s]
    /\ rotation rs'
       = imported_rotation None (String.eqb (fmt_fixed n (x s)) (fmt_fixed n (y s))).
Proof.
  intros Hdelim Hpix.
  parse_line importer "ellipse"
    [("(", fmt_fixed n (x p)); (", ", fmt_fixed n (y p)); (", ", fmt_fixed n (x s));
     (", ", fmt_fixed n (y s))] name Hdelim H.
  destruct H as (nm & _ & _ & H & _). rewrite (H eq_refl).
  rewrite (ImportEllipseRegion_reads importer _ _ _ _ _ nm _ _ _ _ false Hpix
             (fmt_fixed_reads n (x p)) (fmt_fixed_reads n (y p))
             (fmt_fixed_reads n (x s)) (fmt_fixed_reads n (y s))).
  eexists. split; [reflexivity|]. repeat split; reflexivity.
Qed.

Lemma import_ellipse_angle (n : nat) (importer : Ds9ImportExport) (p s : Point) (a : Q)
    (name : string) :
  _parser_delim importer = delims -> _pixel_coord importer = true ->
  exists rs',
    SetRegion importer
      (("ellipse(" ++ fmt_fixed n (x p) ++ ", " ++ fmt_fixed n (y p) ++ ", "
        ++ fmt_fixed n (x s) ++ ", " ++ fmt_fixed n (y s) ++ ", "
        ++ Ds9.fmt_general a ++ ")") ++ comment_of name)
    = Ok (tt, mkEmit [rs'] "")
    /\ type rs' = ELLIPSE
    /\ control_points rs' = [printed n p; printed n s]
    /\ rotation rs'
       = imported_rotation (Some (parsed (decimals a) a))
           (String.eqb (fmt_fixed n (x s)) (fmt_fixed n (y s))).
Proof.
  intros Hdelim Hpix. rewrite fmt_general_eq.
  parse_line importer "ellipse"
    [("(", fmt_fixed n (x p)); (", ", fmt_fixed n (y p)); (", ", fmt_fixed n (x s));
     (", ", fmt_fixed n (y s)); (", ", fmt_fixed (decimals a) a)] name Hdelim H.
  destruct H as (nm & _ & _ & H & _). rewrite (H eq_refl).
  rewrite (ImportEllipseRegion_reads_angle importer _ _ _ _ _ _ nm _ _ _ _ _ false Hpix
             (fmt_fixed_reads n (x p)) (fmt_fixed_reads n (y p))
             (fmt_fixed_reads n (x s)) (fmt_fixed_reads n (y s))
             (fmt_fixed_reads (decimals a) a)).
  eexists. split; [reflexivity|]. repeat split; reflexivity.
Qed.

Lemma import_box (n : nat) (importer : Ds9ImportExport) (p s : Point) (a : Q)
    (name : string) :
  _parser_delim importer = delims -> _pixel_coord importer = true ->
  exists rs',
    SetRegion importer
      (("box(" ++ fmt_fixed n (x p) ++ ", " ++ fmt_fixed n (y p) ++ ", "
        ++ fmt_fixed n (x s) ++ ", " ++ fmt_fixed n (y s) ++ ", "
        ++ Ds9.fmt_general a ++ ")") ++ comment_of name)
    = Ok (tt, mkEmit [rs'] "")
    /\ type rs' = RECTANGLE
    /\ control_points rs' = [printed n p; printed n s]
    /\ rotation rs' = to_float (parsed (decimals a) a).
Proof.
  intros Hdelim Hpix. rewrite fmt_general_eq.
  parse_line importer "box"
    [("(", fmt_fixed n (x p)); (", ", fmt_fixed n (y p)); (", ", fmt_fixed n (x s));
     (", ", fmt_fixed n (y s)); (", ", fmt_fixed (decimals a) a)] name Hdelim H.
  destruct H as (nm & _ & _ & _ & H & _). rewrite (H eq_refl).
  rewrite (ImportRectangleRegion_reads_angle importer _ _ _ _ _ _ nm _ _ _ _ _ false Hpix
             (fmt_fixed_reads n (x p)) (fmt_fixed_reads n (y p))
             (fmt_fixed_reads n (x s)) (fmt_fixed_reads n (y s))
             (fmt_fixed_reads (decimals a) a)).
  eexists. split; [reflexivity|]. repeat split; reflexivity.
Qed.

(** The items of the further control points of a polygon, each number after
    the separator [sep]. *)
Definition poly_items (sep : string) (n : nat) (rest : list Point) : list (string * string) :=
  flat_map (fun p => [(sep, fmt_fixed n (x p)); (sep, fmt_fixed n (y p))]) rest.

Lemma concat_cons (a : string) (l : list string) :
  String.concat "" (a :: l) = a ++ String.concat "" l.
Proof.
  destruct l as [|b l]; cbn [String.concat]; [rewrite append_nil_r|]; reflexivity.
Qed.

Lemma concat_lay (rest : list Point) :
  String.concat ""
    (map (fun p => "," ++ fmt_fixed 2 (x p) ++ "," ++ fmt_fixed 2 (y p)) rest)
  = lay (poly_items "," 2 rest).
Proof.
  induction rest as [|p rest IH]; [reflexivity|].
  cbn [map]. rewrite concat_cons, IH.
  cbn [poly_items flat_map app lay]. fold (poly_items "," 2 rest).
  rewrite !append_assoc. reflexivity.
Qed.

Lemma poly_items_ok (sep : string) (n : nat) (rest : list Point) :
  negb (is_empty sep) && str_forall is_sep sep = true ->
  Forall item_ok (poly_items sep n rest).
Proof.
  intros Hsep. induction rest as [|p rest IH]; [apply Forall_nil|].
  cbn [poly_items flat_map app].
  repeat (apply Forall_cons; [apply number_item_ok; exact Hsep|]). exact IH.
Qed.

Lemma poly_items_tokens (sep : string) (n : nat) (rest : list Point) :
  map snd (poly_items sep n rest) = map (fmt_fixed n) (flat_values rest).
Proof.
  induction rest as [|p rest IH]; [reflexivity|].
  cbn [poly_items flat_map app map snd flat_values]. fold (poly_items sep n rest).
  rewrite IH. reflexivity.
Qed.

Lemma numbers_read (n : nat) (vs : list Q) :
  Forall2 reads_as (map (fmt_fixed n) vs) (map (parsed n) vs).
Proof. induction vs; constructor; [apply fmt_fixed_reads|assumption]. Qed.

Lemma flat_values_as_read (n : nat) (pts : list Point) :
  flat_values (map (as_read n) pts) = map (parsed n) (flat_values pts).
Proof.
  induction pts as [|p pts IH]; [reflexivity|].
  cbn [map flat_values as_read x y]. rewrite IH. reflexivity.
Qed.

Lemma import_polygon (n : nat) (sep : string) (importer : Ds9ImportExport) (p : Point)
    (rest : list Point) (name : string) :
  negb (is_empty sep) && str_forall is_sep sep = true ->
  _parser_delim importer = delims -> _pixel_coord importer = true ->
  exists rs',
    SetRegion importer
      (("polygon(" ++ fmt_fixed n (x p) ++ ", " ++ fmt_fixed n (y p)
        ++ lay (poly_items sep n rest) ++ ")") ++ comment_of name)
    = Ok (tt, mkEmit [rs'] "")
    /\ type rs' = POLYGON
    /\ control_points rs' = map (printed n) (p :: rest).
Proof.
  intros Hsep Hdelim Hpix.
  pose proof (parameters_of_line "polygon"
                (("(", fmt_fixed n (x p)) :: (", ", fmt_fixed n (y p)) :: poly_items sep n rest)
                name (literal_tok_ok "polygon" eq_refl)
                ltac:(repeat (apply Forall_cons; [apply number_item_ok; reflexivity|]);
                      apply poly_items_ok; exact Hsep)) as Hparse.
  cbn [lay map snd] in Hparse. rewrite !append_assoc in Hparse. cbn [append] in Hparse.
  rewrite ?append_assoc. cbn [append].
  destruct (SetRegion_dispatch importer _ "polygon" _
              ltac:(rewrite Hdelim; exact Hparse)) as (nm & _ & _ & _ & _ & H).
  rewrite (H eq_refl).
  rewrite (ImportPolygonRegion_reads importer "polygon" nm
             (fmt_fixed n (x p) :: fmt_fixed n (y p) :: map snd (poly_items sep n rest))
             (map (as_read n) (p :: rest)) false Hpix).
  - eexists. split; [reflexivity|]. split; [reflexivity|].
    cbn [control_points]. rewrite map_map. reflexivity.
  - rewrite flat_values_as_read, poly_items_tokens. cbn [flat_values map].
    repeat (apply Forall2_cons; [apply fmt_fixed_reads|]). apply numbers_read.
Qed.

Lemma AddExportRegion_line (rs : RegionState) (line : string) (exporter : Ds9ImportExport) :
  region_line_of rs = Ok line -> line <> "" ->
  AddExportRegion rs exporter
  = Ok (true, push_export ((line ++ comment_of (name rs)) ++ nl) exporter).
Proof.
  intros Hline Hne. unfold AddExportRegion. rewrite Hline. cbn [Res_bind].
  rewrite (finish_export_line_eq line (name rs) exporter Hne). reflexivity.
Qed.

(** The overload that takes a RegionState: two decimals. *)
Lemma state_export_then_import :
  forall (rs : RegionState) (exporter importer : Ds9ImportExport),
    exportable rs -> Forall float_point (control_points rs) ->
    _parser_delim importer = " ,()#" -> _pixel_coord importer = true ->
    exists line rs',
      AddExportRegion rs exporter = Ok (true, push_export (line ++ nl) exporter)
      /\ SetRegion importer line = Ok (tt, mkEmit [rs'] "")
      /\ type rs' = type rs
      /\ Forall2 (within (1 # 100)) (control_points rs') (control_points rs).
Proof.
  intros [fid nm ty cps rot] exporter importer Hexp Hfl Hdelim Hpix.
  unfold exportable in Hexp. cbn [type control_points] in Hexp, Hfl.
  destruct ty; try contradiction.
  - (* POINT *)
    destruct cps as [|p [|p' cps]]; try discriminate Hexp.
    destruct (import_point 2 importer p nm Hdelim Hpix) as (rs' & Hset & Hty & Hcps).
    eexists. exists rs'. split; [|split; [exact Hset|]].
    + apply AddExportRegion_line; [reflexivity|discriminate].
    + cbn [type control_points]. rewrite Hcps. split; [exact Hty|].
      apply (printed_within_2 [p] Hfl).
  - (* RECTANGLE *)
    destruct cps as [|p [|s [|p' cps]]]; try discriminate Hexp.
    destruct (import_box 2 importer p s rot nm Hdelim Hpix) as (rs' & Hset & Hty & Hcps & _).
    eexists. exists rs'. split; [|split; [exact Hset|]].
    + apply AddExportRegion_line; [reflexivity|discriminate].
    + cbn [type control_points]. rewrite Hcps. split; [exact Hty|].
      apply (printed_within_2 [p; s] Hfl).
  - (* ELLIPSE *)
    destruct cps as [|p [|s [|p' cps]]]; try discriminate Hexp.
    destruct (Qeq_bool (x s) (y s)) eqn:Hcircle.
    + destruct (import_circle 2 importer p (x s) nm Hdelim Hpix) as (rs' & Hset & Hty & Hcps).
      eexists. exists rs'. split; [|split; [exact Hset|]].
      * apply AddExportRegion_line; [|discriminate].
        unfold region_line_of. cbn [type control_points rotation]. rewrite Hcircle.
        reflexivity.
      * cbn [type control_points]. rewrite Hcps. split; [exact Hty|].
        inversion Hfl as [|? ? Hp Hfl']; subst.
        inversion Hfl' as [|? ? [Hsx Hsy] _]; subst.
        apply Forall2_cons;
          [split; [exact (stored_close_2 _ (proj1 Hp))|exact (stored_close_2 _ (proj2 Hp))]|].
        apply Forall2_cons; [|apply Forall2_nil].
        apply Qeq_bool_eq in Hcircle. split; cbn [x y set_xy].
        -- exact (stored_close_2 _ Hsx).
        -- rewrite <- Hcircle. exact (stored_close_2 _ Hsx).
    + set (angle := if Qlt_bool 360 (to_float (rot + 90))
                    then to_float (to_float (rot + 90) - 360) else to_float (rot + 90)).
      destruct (Qlt_bool 0 angle) eqn:Hangle.
      * destruct (import_ellipse_angle 2 importer p s angle nm Hdelim Hpix)
          as (rs' & Hset & Hty & Hcps & _).
        eexists. exists rs'. split; [|split; [exact Hset|]].
        -- apply AddExportRegion_line; [|discriminate].
           unfold region_line_of. cbn [type control_points rotation]. rewrite Hcircle.
           fold angle. rewrite Hangle. reflexivity.
        -- cbn [type control_points]. rewrite Hcps. split; [exact Hty|].
           apply (printed_within_2 [p; s] Hfl).
      * destruct (import_ellipse 2 importer p s nm Hdelim Hpix)
          as (rs' & Hset & Hty & Hcps & _).
        eexists. exists rs'. split; [|split; [exact Hset|]].
        -- apply AddExportRegion_line; [|discriminate].
           unfold region_line_of. cbn [type control_points rotation]. rewrite Hcircle.
           fold angle. rewrite Hangle. reflexivity.
        -- cbn [type control_points]. rewrite Hcps. split; [exact Hty|].
           apply (printed_within_2 [p; s] Hfl).
  - (* POLYGON *)
    destruct cps as [|p rest]; [simpl in Hexp; lia|].
    destruct (import_polygon 2 "," importer p rest nm eq_refl Hdelim Hpix)
      as (rs' & Hset & Hty & Hcps).
    eexists. exists rs'. split; [|split; [exact Hset|]].
    + apply AddExportRegion_line; [|discriminate].
      unfold region_line_of. cbn [type control_points]. rewrite concat_lay. reflexivity.
    + cbn [type control_points]. rewrite Hcps. split; [exact Hty|].
      apply (printed_within_2 (p :: rest) Hfl).
Qed.

(** *** The overload that takes quantities: four decimals *)

Lemma back_append_char (s : string) (c : ascii) : back (s ++ String c "") = c.
Proof.
  induction s as [|d s IH]; [reflexivity|].
  cbn [append back]. rewrite IH. destruct (s ++ String c "") eqn:E; [|reflexivity].
  destruct s; discriminate E.
Qed.

Section Marks.

Context {collab : Collaborators}.

(** A number followed by the arc second mark, of which [std::stod] takes
    the number: the mark is a DS9 unit, and the item stays as it is. *)
Lemma CheckAndConvertParameter_mark (t region_type : string) :
  Ds9.stod (t ++ dquote) = StodIdx (String.length t) ->
  CheckAndConvertParameter (t ++ dquote) region_type = Ok ((true, t ++ dquote), mkEmit [] "").
Proof.
  intros Hstod. unfold CheckAndConvertParameter. rewrite Hstod.
  rewrite length_append. cbn [String.length dquote].
  assert (E1 : (String.length t + 1 =? String.length t)%nat = false)
    by (apply Nat.eqb_neq; lia).
  rewrite E1, Nat.eqb_refl. unfold dquote. rewrite back_append_char. reflexivity.
Qed.

End Marks.

Lemma fmt_fixed_mark_reads (n : nat) (v : Q) :
  reads_with_unit (fmt_fixed n v ++ dquote) (parsed n v) dquote.
Proof.
  pose proof (scan_number_fmt_fixed n v dquote eq_refl) as Hscan.
  assert (Hstod : Ds9.stod (fmt_fixed n v ++ dquote) = StodIdx (String.length (fmt_fixed n v))).
  { change (Ds9.stod (fmt_fixed n v ++ dquote)) with (Plain.stod (fmt_fixed n v ++ dquote)).
    unfold Plain.stod. rewrite Hscan, length_append. cbn [String.length dquote].
    rewrite Nat.add_sub. reflexivity. }
  split; [|split; [|reflexivity]].
  - intros region_type. apply CheckAndConvertParameter_mark. exact Hstod.
  - change (Ds9.readQuantity (fmt_fixed n v ++ dquote))
      with (Plain.readQuantity (fmt_fixed n v ++ dquote)).
    unfold Plain.readQuantity. rewrite Hscan. reflexivity.
Qed.

Lemma mark_item_ok (sep : string) (n : nat) (v : Q) :
  negb (is_empty sep) && str_forall is_sep sep = true ->
  item_ok (sep, fmt_fixed n v ++ dquote).
Proof.
  intros H. apply andb_prop in H. destruct H as [Hn Hc].
  split; [cbn [fst]; destruct sep; discriminate|]. split; [exact Hc|].
  destruct (fmt_fixed_tok_ok n v) as [Hne Hchars]. cbn [snd]. split.
  - apply append_nonempty_l. exact Hne.
  - rewrite str_forall_append, Hchars. reflexivity.
Qed.

Lemma import_circle_mark (n : nat) (importer : Ds9ImportExport) (p : Point) (r : Q)
    (name : string) :
  _parser_delim importer = delims -> _pixel_coord importer = true ->
  exists rs',
    SetRegion importer
      (("circle(" ++ fmt_fixed n (x p) ++ ", " ++ fmt_fixed n (y p) ++ ", "
        ++ fmt_fixed n r ++ dquote ++ ")") ++ comment_of name)
    = Ok (tt, mkEmit [rs'] "")
    /\ type rs' = ELLIPSE
    /\ control_points rs' = [printed n p; set_xy (parsed n r) (parsed n r)].
Proof.
  intros Hdelim Hpix.
  pose proof (parameters_of_line "circle"
                [("(", fmt_fixed n (x p)); (", ", fmt_fixed n (y p));
                 (", ", fmt_fixed n r ++ dquote)]
                name (literal_tok_ok "circle" eq_refl)
                ltac:(repeat (apply Forall_cons; [apply number_item_ok; reflexivity|]);
                      apply Forall_cons; [apply mark_item_ok; reflexivity|apply Forall_nil]))
    as Hparse.
  cbn [lay map snd] in Hparse. rewrite !append_assoc in Hparse. cbn [append] in Hparse.
  rewrite ?append_assoc. cbn [append].
  destruct (SetRegion_dispatch importer _ "circle" _
              ltac:(rewrite Hdelim; exact Hparse)) as (nm & _ & H & _).
  rewrite (H eq_refl).
  rewrite (ImportCircleRegion_reads_unit importer _ _ _ _ nm _ _ _ dquote false Hpix
             (fmt_fixed_reads n (x p)) (fmt_fixed_reads n (y p)) (fmt_fixed_mark_reads n r)).
  eexists. split; [reflexivity|]. split; reflexivity.
Qed.

Lemma polygon_pairs_lay (k : nat) :
  forall control_points : list Quantity,
    (List.length control_points <= k)%nat ->
    Nat.even (List.length control_points) = true ->
    polygon_pairs control_points = Ok (lay (poly_items ", " 4 (points_of control_points))).
Proof.
  induction k as [|k IH]; intros cps Hlen Heven.
  - destruct cps; [reflexivity|simpl in Hlen; lia].
  - destruct cps as [|q0 [|q1 rest]]; [reflexivity|discriminate Heven|].
    cbn [polygon_pairs points_of].
    rewrite (IH rest) by (simpl in Hlen; try lia; exact Heven).
    cbn [Res_bind poly_items flat_map app lay x y].
    fold (poly_items ", " 4 (points_of rest)). rewrite ?append_assoc. reflexivity.
Qed.

Lemma AddExportRegion_Quantity_line (name : string) (type : RegionType)
    (control_points : list Quantity) (rotation : Quantity) (line : string)
    (exporter : Ds9ImportExport) :
  _pixel_coord exporter = true ->
  AddExportRegionPixel type control_points (to_float (getValue rotation)) = Ok line ->
  line <> "" ->
  AddExportRegion_Quantity name type control_points rotation exporter
  = Ok (true, push_export ((line ++ comment_of name) ++ nl) exporter).
Proof.
  intros Hpix Hline Hne. unfold AddExportRegion_Quantity. rewrite Hpix.
  change (getValue (Quantity_get rotation "deg")) with (getValue rotation).
  rewrite Hline. cbn [Res_bind].
  rewrite (finish_export_line_eq line name exporter Hne). reflexivity.
Qed.

Lemma quantity_export_then_import :
  forall (name : string) (type : RegionType) (control_points : list Quantity)
         (rotation : Quantity) (exporter importer : Ds9ImportExport),
    _pixel_coord exporter = true ->
    exportable_quantities type control_points ->
    Forall (fun q => bounded (getValue q)) control_points ->
    _parser_delim importer = " ,()#" -> _pixel_coord importer = true ->
    exists line rs',
      AddExportRegion_Quantity name type control_points rotation exporter
      = Ok (true, push_export (line ++ nl) exporter)
      /\ SetRegion importer line = Ok (tt, mkEmit [rs'] "")
      /\ Ds9.type rs' = type
      /\ Forall2 (within (1 # 100)) (Ds9.control_points rs') (points_of control_points).
Proof.
  intros nm ty cps rot exporter importer Hexpix Hexp Hb Hdelim Hpix.
  pose proof (points_of_bounded (List.length cps) cps (Nat.le_refl _) Hb) as Hpts.
  unfold exportable_quantities in Hexp.
  destruct ty; try contradiction.
  - (* POINT *)
    destruct cps as [|q0 [|q1 [|q2 cps]]]; try discriminate Hexp.
    destruct (import_point 4 importer (mkPoint (getValue q0) (getValue q1)) nm Hdelim Hpix)
      as (rs' & Hset & Hty & Hcps).
    eexists. exists rs'. split; [|split; [exact Hset|]].
    + apply AddExportRegion_Quantity_line; [exact Hexpix|reflexivity|discriminate].
    + rewrite Hcps. split; [exact Hty|]. exact (printed_within_4 _ Hpts).
  - (* RECTANGLE *)
    destruct cps as [|q0 [|q1 [|q2 [|q3 [|q4 cps]]]]]; try discriminate Hexp.
    destruct (import_box 4 importer (mkPoint (getValue q0) (getValue q1))
                (mkPoint (getValue q2) (getValue q3)) (to_float (getValue rot)) nm
                Hdelim Hpix) as (rs' & Hset & Hty & Hcps & _).
    eexists. exists rs'. split; [|split; [exact Hset|]].
    + apply AddExportRegion_Quantity_line; [exact Hexpix|reflexivity|discriminate].
    + rewrite Hcps. split; [exact Hty|]. exact (printed_within_4 _ Hpts).
  - (* ELLIPSE *)
    destruct cps as [|q0 [|q1 [|q2 [|q3 [|q4 cps]]]]]; try discriminate Hexp.
    destruct (Qeq_bool (getValue q2) (getValue q3)) eqn:Hcircle.
    + destruct (import_circle_mark 4 importer (mkPoint (getValue q0) (getValue q1))
                  (getValue q2) nm Hdelim Hpix) as (rs' & Hset & Hty & Hcps).
      eexists. exists rs'. split; [|split; [exact Hset|]].
      * apply AddExportRegion_Quantity_line; [exact Hexpix| |discriminate].
        unfold AddExportRegionPixel. cbn [value_at nth_error Res_bind]. rewrite Hcircle.
        reflexivity.
      * rewrite Hcps. split; [exact Hty|]. cbn [points_of] in *.
        inversion Hpts as [|? ? Hp Hpts']; subst.
        inversion Hpts' as [|? ? [Hsx Hsy] _]; subst.
        apply Forall2_cons;
          [split; [exact (stored_close_4 _ (proj1 Hp))|exact (stored_close_4 _ (proj2 Hp))]|].
        apply Forall2_cons; [|apply Forall2_nil].
        apply Qeq_bool_eq in Hcircle. split; cbn [x y set_xy] in *.
        -- exact (stored_close_4 _ Hsx).
        -- rewrite <- Hcircle. exact (stored_close_4 _ Hsx).
    + destruct (Qeq_bool (to_float (getValue rot)) 0) eqn:Hangle.
      * destruct (import_ellipse 4 importer (mkPoint (getValue q0) (getValue q1))
                    (mkPoint (getValue q2) (getValue q3)) nm Hdelim Hpix)
          as (rs' & Hset & Hty & Hcps & _).
        eexists. exists rs'. split; [|split; [exact Hset|]].
        -- apply AddExportRegion_Quantity_line; [exact Hexpix| |discriminate].
           unfold AddExportRegionPixel. cbn [value_at nth_error Res_bind].
           rewrite Hcircle, Hangle. reflexivity.
        -- rewrite Hcps. split; [exact Hty|]. exact (printed_within_4 _ Hpts).
      * destruct (import_ellipse_angle 4 importer (mkPoint (getValue q0) (getValue q1))
                    (mkPoint (getValue q2) (getValue q3)) (to_float (getValue rot)) nm
                    Hdelim Hpix) as (rs' & Hset & Hty & Hcps & _).
        eexists. exists rs'. split; [|split; [exact Hset|]].
        -- apply AddExportRegion_Quantity_line; [exact Hexpix| |discriminate].
           unfold AddExportRegionPixel. cbn [value_at nth_error Res_bind].
           rewrite Hcircle, Hangle. reflexivity.
        -- rewrite Hcps. split; [exact Hty|]. exact (printed_within_4 _ Hpts).
  - (* POLYGON *)
    destruct Hexp as [Hlen Heven].
    destruct cps as [|q0 [|q1 rest]]; try (simpl in Hlen; lia).
    destruct (import_polygon 4 ", " importer (mkPoint (getValue q0) (getValue q1))
                (points_of rest) nm eq_refl Hdelim Hpix) as (rs' & Hset & Hty & Hcps).
    eexists. exists rs'. split; [|split; [exact Hset|]].
    + apply AddExportRegion_Quantity_line; [exact Hexpix| |discriminate].
      unfold AddExportRegionPixel. cbn [value_at nth_error Res_bind skipn].
      rewrite (polygon_pairs_lay (List.length rest) rest (Nat.le_refl _) Heven).
      reflexivity.
    + rewrite Hcps. split; [exact Hty|]. exact (printed_within_4 _ Hpts).
Qed.

(** Exact decimal texts. *)
Definition scale_ok (k : nat) (v : Q) : Prop :=
  ((Qnum v * Z.of_N (pow10 k)) mod Zpos (Qden v) = 0)%Z.

Definition finite_decimal (v : Q) : Prop :=
  exists k, (k <= Pos.size_nat (Qden v))%nat /\ scale_ok k v.

Lemma find_scale_spec (v : Q) (fuel : nat) :
  forall k0, (exists k, (k0 <= k <= k0 + fuel)%nat /\ scale_ok k v) ->
             scale_ok (find_scale fuel k0 v) v.
Proof.
  induction fuel as [|fuel IH]; intros k0 (k & Hk & Hok); cbn [find_scale].
  - replace k0 with k by lia. exact Hok.
  - destruct (Z.eqb_spec ((Qnum v * Z.of_N (pow10 k0)) mod Z.pos (Qden v)) 0) as [E|E].
    + exact E.
    + apply IH. exists k. split; [|exact Hok].
      assert (k <> k0) by (intros ->; exact (E Hok)). lia.
Qed.

Lemma decimals_ok (v : Q) : finite_decimal v -> scale_ok (decimals v) v.
Proof.
  intros (k & Hk & Hok). unfold decimals. apply find_scale_spec.
  exists k. split; [lia|exact Hok].
Qed.

Lemma round_half_even_exact (a d : N) :
  (0 < d)%N -> (a mod d = 0)%N -> (round_half_even a d * d = a)%N.
Proof.
  intros Hd Hm. unfold round_half_even. rewrite Hm.
  pose proof (N.Div0.div_mod a d) as Hdm. rewrite Hm in Hdm.
  destruct (N.compare_spec (2 * 0) d) as [E|L|G]; lia.
Qed.

Lemma parsed_exact (v : Q) : finite_decimal v -> (parsed (decimals v) v == v)%Q.
Proof.
  intros Hfin. pose proof (decimals_ok v Hfin) as Hok. unfold scale_ok in Hok.
  set (K := decimals v) in *.
  pose proof (pow10_pos K) as Hpos.
  destruct (pow10 K) as [|p] eqn:Hp; [lia|].
  rewrite (parsed_eq K p v Hp). unfold scaled. rewrite Hp.
  cbn [Z.of_N] in Hok.
  assert (Hmod : ((Z.abs_N (Qnum v) * N.pos p) mod N.pos (Qden v) = 0)%N).
  { apply N2Z.inj. rewrite N2Z.inj_mod, N2Z.inj_mul, N2Z.inj_abs_N. cbn [Z.of_N].
    apply Z.mod_divide in Hok; [|discriminate].
    apply Z.mod_divide; [discriminate|].
    destruct Hok as [c Hc].
    destruct (Z.abs_spec (Qnum v)) as [[_ ->]|[_ ->]].
    - exists c. exact Hc.
    - exists (- c)%Z. lia. }
  pose proof (round_half_even_exact _ _ (eq_refl : (0 < N.pos (Qden v))%N) Hmod) as Hex.
  apply (f_equal Z.of_N) in Hex. rewrite !N2Z.inj_mul, N2Z.inj_abs_N in Hex.
  cbn [Z.of_N] in Hex. revert Hex.
  generalize (Z.of_N (round_half_even (Z.abs_N (Qnum v) * N.pos p) (N.pos (Qden v)))).
  intros M Hex. destruct v as [vn vd]. cbn [Qnum Qden] in *.
  unfold Qeq. cbn [Qnum Qden].
  destruct (Z.ltb_spec vn 0); lia.
Qed.

Lemma finite_decimal_plus (v : Q) (z : Z) :
  finite_decimal v -> finite_decimal (v + inject_Z z).
Proof.
  intros (k & Hk & Hok). exists k. unfold scale_ok in *.
  destruct v as [vn vd]. unfold Qplus, inject_Z. cbn [Qnum Qden] in *.
  rewrite Pos.mul_1_r. split; [exact Hk|].
  replace ((vn * 1 + z * Z.pos vd) * Z.of_N (pow10 k))%Z
    with (vn * Z.of_N (pow10 k) + (z * Z.of_N (pow10 k)) * Z.pos vd)%Z by ring.
  rewrite Z.mod_add by discriminate. exact Hok.
Qed.














(** *** The include/exclude indicator on a point *)

(** C8.  The indicator is not ignored for a point.  [SetRegion] removes the
    [+] from its own copy of the region word only; [ImportPointRegion]
    compares [parameters[0]], still ["+point"], with ["point"] and reports a
    syntax error, while the same definition without the indicator gives a
    POINT RegionState. *)
Theorem included_point_is_rejected :
  forall (file_id : Z),
    SetRegion (importer file_id) "+point(1, 2)"
    = Ok (tt, mkEmit [] ("point syntax error." ++ nl))
    /\ SetRegion (importer file_id) "point(1, 2)"
       = Ok (tt, mkEmit [mkRegionState file_id "" POINT [mkPoint 1 2] 0] "")
    /\ SetRegion (importer file_id) " -point(1, 2)"
       = Ok (tt, mkEmit [] ("point syntax error." ++ nl)).
Proof.
  intros file_id. repeat split; vm_compute; reflexivity.
Qed.

(** *** Concrete runs *)

Definition sample_polygon : RegionState :=
  mkRegionState 0 "field A" POLYGON
    [mkPoint (1001 # 8) (-3 # 4); mkPoint 20 (41 # 2); mkPoint (7 # 16) 33] 0.

Definition sample_box : list Quantity :=
  [mkQuantity (1001 # 8) "pixel"; mkQuantity (-3 # 4) "pixel";
   mkQuantity 20 "pixel"; mkQuantity (41 # 2) "pixel"].

(** The whole path on a file: what the exporter delivers for the sample
    polygon, given as file contents to the importing constructor, yields one
    polygon with the control points as they were printed (125.12, -0.75,
    20.00, 20.50, 0.44, 33.00) and then stored in single precision: 125.12
    becomes 125.1199951171875 and 0.44 becomes 0.439999997615814208984375. *)
Example export_file_then_import :
  match AddExportRegion sample_polygon (new_export 0 true) with
  | Ok (_, exporter) =>
      match ExportRegions exporter [] "" with
      | (true, contents, _) =>
          match new_import 1 (String.concat "" contents) false with
          | Ok this =>
              map type (_import_regions this) = [POLYGON]
              /\ map name (_import_regions this) = ["field A"]
              /\ map (fun r => map (fun pt => (Qred (x pt), Qred (y pt))) (control_points r))
                   (_import_regions this)
                 = [[(16399729 # 131072, -3 # 4); (20, 41 # 2); (7381975 # 16777216, 33)]]%Q
              /\ _import_errors this = ""
          | _ => False
          end
      | _ => False
      end
  | _ => False
  end.
Proof. vm_compute. repeat split. Qed.




(** Two ways in which a region line is passed over by design.  The line
    [point(1, 2)] is imported when it stands alone, and is not imported
    after the line [wcs]: an unsupported coordinate system is reported and
    switches the import of region lines off until a supported one is named.
    And a region word for which [SetRegion] has no branch, as in
    [ruler(1, 2, 3, 4)], yields neither a RegionState nor a message. *)
Lemma region_line_skipped_and_unknown_word_silent :
  match new_import 0 "point(1, 2)" false, new_import 0 "wcs;point(1, 2)" false,
        new_import 0 "ruler(1, 2, 3, 4);point(1, 2)" false with
  | Ok alone, Ok after_wcs, Ok after_ruler =>
      List.length (_import_regions alone) = 1%nat
      /\ _import_errors alone = ""
      /\ _import_regions after_wcs = []
      /\ _import_errors after_wcs = "coord sys wcs not supported." ++ nl
      /\ List.length (_import_regions after_ruler) = 1%nat
      /\ _import_errors after_ruler = ""
  | _, _, _ => False
  end.
Proof. vm_compute. repeat split. Qed.

Definition lines_importer : Ds9ImportExport := InitDs9CoordMap (importer 0).

Lemma failed_region_line_is_reported_and_import_goes_on_witness :
  new_errors (mkEmit [] ("box syntax error." ++ nl)) <> ""
  /\ match process_lines ["point(3, 4)"] true lines_importer,
           process_lines ["box(1, 2)"; "point(3, 4)"] true lines_importer with
     | Ok without, Ok with_line =>
         _import_regions with_line = _import_regions without
         /\ exists later,
              _import_errors without = _import_errors lines_importer ++ later
              /\ _import_errors with_line
                 = _import_errors lines_importer
                   ++ new_errors (mkEmit [] ("box syntax error." ++ nl)) ++ later
     | Undefined, Undefined => True
     | Thrown w, Thrown w' => w = w'
     | _, _ => False
     end.
Proof.
  apply (failed_region_line_is_reported_and_import_goes_on lines_importer "box(1, 2)"
           "box" ["1"; "2"] [] (mkEmit [] ("box syntax error." ++ nl)) ["point(3, 4)"]).
  - reflexivity.
  - reflexivity.
  - reflexivity.
  - reflexivity.
  - reflexivity.
Defined.

(** Collaborators whose [std::stod] finds the numeral [1e999] out of the
    range of [double], as the C++ library does. *)
Definition ranged_collaborators : Collaborators := {|
  VERSION_ID := "1.2";
  globals := mkDs9Properties "green" "1" "1" "0" "helvetica 10 normal roman" "1" "1" "1" "1";
  image_reference_frame := "J2000";
  Ds9.ReadRegionFile := Plain.ReadRegionFile;
  Ds9.ParseRegionParameters := Plain.ParseRegionParameters;
  Ds9.stod := fun s => if String.eqb s "1e999" then StodOutOfRange else Plain.stod s;
  Ds9.sscanf_hms := Plain.sscanf_hms;
  Ds9.readQuantity := Plain.readQuantity;
  ConvertPointToPixels := fun _ _ => None;
  WorldToPixelLength := fun _ _ => 0%Q;
  Quantity_get := fun q _ => q;
  Ds9.fmt_general := Plain.fmt_general
|}.

(** On the file [point(1, 2);point(1e999, 2);point(3, 4)] the importing
    constructor ends with the exception and delivers nothing; without the
    second line it imports two points. *)
Lemma out_of_range_number_aborts_import_witness :
  (@SetRegion ranged_collaborators lines_importer "point(1e999, 2)"
   = Thrown "std::out_of_range"
   /\ @process_lines ranged_collaborators ["point(1e999, 2)"; "point(3, 4)"] true
        lines_importer
      = Thrown "std::out_of_range")
  /\ @new_import ranged_collaborators 0 "point(1, 2);point(1e999, 2);point(3, 4)" false
     = Thrown "std::out_of_range"
  /\ match @new_import ranged_collaborators 0 "point(1, 2);point(3, 4)" false with
     | Ok this => List.length (_import_regions this) = 2%nat /\ _import_errors this = ""
     | _ => False
     end.
Proof.
  split; [|split].
  - apply (@out_of_range_number_aborts_import ranged_collaborators lines_importer
             "point(1e999, 2)" "1e999" "2" [] ["point(3, 4)"]).
    + reflexivity.
    + reflexivity.
    + discriminate.
    + reflexivity.
  - vm_compute. reflexivity.
  - vm_compute. split; reflexivity.
Defined.

Lemma ExportRegions_succeeds_after_construction_witness :
  export_calls (new_export 0 true)
    [CallAddState (mkRegionState 0 "" ELLIPSE [mkPoint 10 10; mkPoint 5 5] 0)]
  = Ok (push_export ("circle(10.00, 10.00, 5.00)" ++ nl) (new_export 0 true))
  /\ ExportRegions (push_export ("circle(10.00, 10.00, 5.00)" ++ nl) (new_export 0 true)) [] ""
     = (true,
        _export_regions (push_export ("circle(10.00, 10.00, 5.00)" ++ nl) (new_export 0 true)),
        "").
Proof.
  split; [reflexivity|].
  apply (ExportRegions_succeeds_after_construction 0 true
           [CallAddState (mkRegionState 0 "" ELLIPSE [mkPoint 10 10; mkPoint 5 5] 0)]
           (push_export ("circle(10.00, 10.00, 5.00)" ++ nl) (new_export 0 true))
           [] "regions.reg" "").
  reflexivity.
Defined.

End OnPlain.

End Ds9Props.

(* ===================================================================== *)
(** * Part V: further properties of RegionStats                           *)
(* ===================================================================== *)

Module RegionStatsFacts.

Import RegionStats.

(** X1.  After [setHistogramRequirements], [numHistogramConfigs] is the
    number of configurations given, and [getHistogramConfig] returns the
    configuration at an index within the vector and the default-constructed
    one (channel 0, no bins) at every other index.  A negative index is
    among the latter: the comparison with [size ()] converts it to a large
    unsigned number.  The index is an [int]; a vector holds no more than
    2^63 configurations. *)
Theorem getHistogramConfig_after_set :
  forall (rs : RegionStats) (histogramReqs : list (Z * Z)) (histogramIndex : Z),
    - 2 ^ 31 <= histogramIndex < 2 ^ 31 ->
    Z.of_nat (List.length histogramReqs) <= 2 ^ 63 ->
    let rs' := snd (setHistogramRequirements rs histogramReqs) in
    numHistogramConfigs rs' = List.length histogramReqs
    /\ getHistogramConfig rs' histogramIndex
       = if (0 <=? histogramIndex) && (histogramIndex <? Z.of_nat (List.length histogramReqs))
         then nth (Z.to_nat histogramIndex) histogramReqs default_config
         else default_config.
Proof.
  intros rs reqs i Hint Hsize. cbv zeta. split; [reflexivity|].
  unfold getHistogramConfig, setHistogramRequirements. cbn [snd m_configs].
  destruct (Z.leb_spec 0 i) as [Hpos|Hneg]; cbn [andb].
  - rewrite (Z.mod_small i (2 ^ 64)) by lia. reflexivity.
  - replace (i mod 2 ^ 64) with (i + 2 ^ 64)
      by (apply (Z.mod_unique i (2 ^ 64) (-1)); lia).
    assert (E : (i + 2 ^ 64 <? Z.of_nat (List.length reqs)) = false) by (apply Z.ltb_ge; lia).
    rewrite E. reflexivity.
Qed.

Lemma getHistogramConfig_after_set_witness :
  getHistogramConfig
    (snd (setHistogramRequirements (mkRegionStats [] cm_empty 0 0 []) [(0, 10); (3, 20)])) 1
  = (3, 20)
  /\ getHistogramConfig
       (snd (setHistogramRequirements (mkRegionStats [] cm_empty 0 0 []) [(0, 10); (3, 20)])) (-1)
     = default_config.
Proof.
  split.
  - apply (proj2 (getHistogramConfig_after_set (mkRegionStats [] cm_empty 0 0 [])
                    [(0, 10); (3, 20)] 1 ltac:(lia) ltac:(cbn; lia))).
  - apply (proj2 (getHistogramConfig_after_set (mkRegionStats [] cm_empty 0 0 [])
                    [(0, 10); (3, 20)] (-1) ltac:(lia) ltac:(cbn; lia))).
Defined.

Lemma stored_after_fill (rs : RegionStats) (data : list Q) (chan stokes nBins : Z)
    (lo hi : Q) :
  stored (snd (fillHistogram rs data chan stokes nBins lo hi)) chan stokes nBins = true
  /\ m_channelHistograms (snd (fillHistogram rs data chan stokes nBins lo hi)) chan
     = fst (fillHistogram rs data chan stokes nBins lo hi).
Proof.
  unfold fillHistogram. destruct (stored rs chan stokes nBins) eqn:E; cbn [fst snd].
  - split; [exact E|reflexivity].
  - unfold stored, cm_count, cm_assign. cbn. rewrite !Z.eqb_refl. split; reflexivity.
Qed.

(** X2.  [fillHistogram] always delivers a histogram, and the object then
    holds it: [getChannelHistogram] for the same channel, stokes and bin
    count returns that histogram, and so does a second [fillHistogram] for
    them, whatever data and bounds it is given, without changing the
    object. *)
Theorem fillHistogram_again_returns_stored :
  forall (rs : RegionStats) (data data' : list Q) (chan stokes nBins : Z)
         (minVal maxVal minVal' maxVal' : Q),
    let first := fillHistogram rs data chan stokes nBins minVal maxVal in
    fillHistogram (snd first) data' chan stokes nBins minVal' maxVal' = first
    /\ getChannelHistogram (snd first) chan stokes nBins = fst first
    /\ fst first <> None.
Proof.
  intros rs data data' chan stokes nBins lo hi lo' hi'. cbv zeta.
  destruct (stored_after_fill rs data chan stokes nBins lo hi) as [Hs Hm].
  split; [|split].
  - unfold fillHistogram at 1. rewrite Hs, Hm. symmetry. apply surjective_pairing.
  - unfold getChannelHistogram. rewrite Hs. exact Hm.
  - rewrite <- Hm. unfold stored, cm_count in Hs.
    destruct (m_channelHistograms _ chan); [discriminate|discriminate Hs].
Qed.

Lemma run_call_keeps (rs : RegionStats) (call : HistCall) (c : Z) :
  cm_count (m_channelHistograms rs) c = true ->
  cm_count (m_channelHistograms (snd (run_call rs call))) c = true.
Proof.
  intros H. destruct call as [data chan stokes nBins lo hi | chan stokes nBins];
    cbn [run_call snd]; [|exact H].
  unfold fillHistogram. destruct (stored rs chan stokes nBins); cbn [snd]; [exact H|].
  cbn [m_channelHistograms]. unfold cm_count, cm_assign in *.
  destruct (Z.eqb c chan); [reflexivity|exact H].
Qed.

(** X3.  No call removes a histogram from the store: a channel that has an
    entry keeps one through every run of [fillHistogram] and
    [getChannelHistogram] calls. *)
Theorem histogram_store_never_evicts :
  forall (calls : list HistCall) (rs : RegionStats) (c : Z),
    cm_count (m_channelHistograms rs) c = true ->
    cm_count (m_channelHistograms (run_calls rs calls)) c = true.
Proof.
  induction calls as [|call calls IH]; intros rs c H; [exact H|].
  unfold run_calls. cbn [fold_left]. apply IH. apply run_call_keeps. exact H.
Qed.

Lemma histogram_store_never_evicts_witness :
  cm_count
    (m_channelHistograms
       (run_calls (snd (fillHistogram (mkRegionStats [] cm_empty 0 0 []) [1#2] 0 0 10 0 1))
          [CallFill [3#4] 1 1 20 0 1; CallGet 0 0 10; CallFill [] 2 3 5 0 1])) 0
  = true.
Proof.
  apply (histogram_store_never_evicts
           [CallFill [3#4] 1 1 20 0 1; CallGet 0 0 10; CallFill [] 2 3 5 0 1]
           (snd (fillHistogram (mkRegionStats [] cm_empty 0 0 []) [1#2] 0 0 10 0 1)) 0).
  reflexivity.
Defined.

(** Whether a call computes or looks up a histogram for channel [c] through
    [fillHistogram]. *)
Definition fills_channel (c : Z) (call : HistCall) : bool :=
  match call with
  | CallFill _ chan _ _ _ _ => Z.eqb chan c
  | CallGet _ _ _ => false
  end.

Lemma run_call_unfilled (rs : RegionStats) (call : HistCall) (c : Z) :
  m_channelHistograms rs c = None -> fills_channel c call = false ->
  m_channelHistograms (snd (run_call rs call)) c = None.
Proof.
  intros Hnone Hcall. destruct call as [data chan stokes nBins lo hi | chan stokes nBins];
    cbn [run_call snd]; [|exact Hnone].
  cbn [fills_channel] in Hcall. unfold fillHistogram.
  destruct (stored rs chan stokes nBins); cbn [snd]; [exact Hnone|].
  cbn [m_channelHistograms]. unfold cm_assign.
  rewrite Z.eqb_sym, Hcall. exact Hnone.
Qed.

(** X4.  A channel without an entry, for which [fillHistogram] is not
    called, stays without one: after any run of calls for other channels,
    [getChannelHistogram] returns [false] for it, whatever stokes and bin
    count are asked for. *)
Theorem getChannelHistogram_of_unfilled_channel :
  forall (calls : list HistCall) (rs : RegionStats) (channel stokes numBins : Z),
    m_channelHistograms rs channel = None ->
    forallb (fun call => negb (fills_channel channel call)) calls = true ->
    getChannelHistogram (run_calls rs calls) channel stokes numBins = None.
Proof.
  intros calls rs c stokes nBins Hnone Hcalls.
  assert (H : m_channelHistograms (run_calls rs calls) c = None).
  { revert rs Hnone. induction calls as [|call calls IH]; intros rs Hnone; [exact Hnone|].
    cbn [forallb] in Hcalls. apply andb_prop in Hcalls. destruct Hcalls as [Hc Hcs].
    apply negb_true_iff in Hc.
    unfold run_calls. cbn [fold_left]. apply (IH Hcs). apply run_call_unfilled; assumption. }
  unfold getChannelHistogram, stored, cm_count. rewrite H. reflexivity.
Qed.

Lemma getChannelHistogram_of_unfilled_channel_witness :
  getChannelHistogram
    (run_calls (mkRegionStats [] cm_empty 0 0 [])
       [CallFill [1 # 2] 0 0 10 0 1; CallGet 1 0 10; CallFill [] 2 0 10 0 1]) 1 0 10
  = None.
Proof.
  apply (getChannelHistogram_of_unfilled_channel
           [CallFill [1 # 2] 0 0 10 0 1; CallGet 1 0 10; CallFill [] 2 0 10 0 1]
           (mkRegionStats [] cm_empty 0 0 []) 1 0 10); reflexivity.
Defined.

Section StatisticsFacts.

Variable SubLattice : Type.
Variable cast_StatsType : Z -> StatsType.
Variable getStatistic : SubLattice -> LatticeStatsType -> list Q.
Variable getMinMaxPos : SubLattice -> list Z * list Z.
Variable slicer_start : SubLattice -> list Z.
Variable slicer_end : SubLattice -> list Z.

(** The values that [getStatsValues] pushes for a requirement. *)
Definition values_found (subLattice : SubLattice) (req : Z) : list Q :=
  fst (stat_values SubLattice cast_StatsType getStatistic getMinMaxPos slicer_start slicer_end
         subLattice req).

(** An entry added for a requirement: its type is the requirement's, its
    value the first of the values found for it. *)
Definition entry_for (subLattice : SubLattice) (sv : StatisticsValue) (req : Z) : Prop :=
  stats_type sv = cast_StatsType req
  /\ exists rest, values_found subLattice req = value sv :: rest.

Lemma add_stats_Some (f : Z -> list Q) (reqs : list Z) :
  forall (statsData out : RegionStatsData),
    add_stats cast_StatsType statsData reqs (map f reqs) = Some out ->
    exists added,
      out = statsData ++ added
      /\ Forall2 (fun sv req => stats_type sv = cast_StatsType req
                                /\ exists rest, f req = value sv :: rest) added reqs.
Proof.
  induction reqs as [|r reqs IH]; intros sd out; cbn [map add_stats].
  - intros E. injection E as <-. exists []. rewrite app_nil_r. split; [reflexivity|constructor].
  - destruct (f r) as [|v0 vs] eqn:Ef; [discriminate|].
    intros E. apply IH in E. destruct E as (added & -> & Hall).
    exists ({| stats_type := cast_StatsType r; value := v0 |} :: added).
    rewrite <- app_assoc. split; [reflexivity|].
    constructor; [|exact Hall]. split; [reflexivity|]. exists vs. rewrite Ef. reflexivity.
Qed.

Lemma add_stats_None (f : Z -> list Q) (reqs : list Z) :
  forall (statsData : RegionStatsData),
    add_stats cast_StatsType statsData reqs (map f reqs) = None
    <-> Exists (fun req => f req = []) reqs.
Proof.
  induction reqs as [|r reqs IH]; intros sd; cbn [map add_stats].
  - split; [discriminate|]. intros H. inversion H.
  - destruct (f r) as [|v0 vs] eqn:Ef.
    + split; [|reflexivity]. intros _. apply Exists_cons_hd. exact Ef.
    + rewrite IH. split.
      * intros H. apply Exists_cons_tl. exact H.
      * intros H. inversion H as [? ? Hhd|? ? Htl]; subst; [congruence|exact Htl].
Qed.

Lemma getStatsValues_values (reqs : list Z) (subLattice : SubLattice) :
  fst (getStatsValues SubLattice cast_StatsType getStatistic getMinMaxPos slicer_start
         slicer_end reqs subLattice)
  = map (values_found subLattice) reqs.
Proof. unfold getStatsValues. cbn [fst]. apply map_map. Qed.

(** X5.  With requirements set, a [fillStatsData] that returns has appended
    to the message, behind what it held, one entry for each requirement in
    the order of the requirements: its type is the requirement cast to
    [CARTA::StatsType], its value the first of the values that
    [getStatsValues] found for it.  The statistics engine was constructed
    first. *)
Theorem fillStatsData_appends_entry_per_requirement :
  forall (rs : RegionStats) (statsData out : RegionStatsData) (subLattice : SubLattice)
         (calls : list EngineCall),
    m_regionStats rs <> [] ->
    fillStatsData SubLattice cast_StatsType getStatistic getMinMaxPos slicer_start slicer_end
      rs statsData subLattice
    = (Some out, calls) ->
    exists added,
      out = statsData ++ added
      /\ Forall2 (entry_for subLattice) added (m_regionStats rs)
      /\ List.length added = numStats rs
      /\ hd_error calls = Some NewLatticeStatistics.
Proof.
  intros rs sd out sub calls Hne. unfold fillStatsData.
  destruct (m_regionStats rs) as [|r reqs] eqn:Ereqs; [congruence|].
  pose proof (getStatsValues_values (r :: reqs) sub) as Hv.
  destruct (getStatsValues _ _ _ _ _ _ (r :: reqs) sub) as [results calls'] eqn:Eg.
  cbn [fst] in Hv. subst results.
  intros E. injection E as Eout Ecalls.
  apply (add_stats_Some (values_found sub) (r :: reqs)) in Eout.
  destruct Eout as (added & -> & Hall).
  exists added. split; [reflexivity|]. split; [exact Hall|]. split.
  - unfold numStats. rewrite Ereqs. exact (Forall2_length Hall).
  - rewrite <- Ecalls. unfold getStatsValues in Eg. injection Eg as _ <-. reflexivity.
Qed.

(** X6.  [fillStatsData] reads [values[0]] of an empty vector exactly when
    [getStatsValues] finds no value for one of the requirements (as for the
    type [None], for an integer that names no type, or when the engine
    returns an empty array); with every requirement answered it returns. *)
Theorem fillStatsData_reads_empty_values :
  forall (rs : RegionStats) (statsData : RegionStatsData) (subLattice : SubLattice),
    fst (fillStatsData SubLattice cast_StatsType getStatistic getMinMaxPos slicer_start
           slicer_end rs statsData subLattice)
    = None
    <-> Exists (fun req => values_found subLattice req = []) (m_regionStats rs).
Proof.
  intros rs sd sub. unfold fillStatsData.
  destruct (m_regionStats rs) as [|r reqs] eqn:Ereqs.
  - cbn [fst]. split; [discriminate|]. intros H. inversion H.
  - pose proof (getStatsValues_values (r :: reqs) sub) as Hv.
    destruct (getStatsValues _ _ _ _ _ _ (r :: reqs) sub) as [results calls'].
    cbn [fst] in Hv |- *. subst results.
    apply (add_stats_None (values_found sub) (r :: reqs)).
Qed.

End StatisticsFacts.

Definition sample_cast (n : Z) : StatsType :=
  if n =? 2 then Sum else if n =? 4 then Mean else if n =? 10 then Blc else Unknown n.

Lemma fillStatsData_appends_entry_per_requirement_witness :
  exists added,
    [mkStatisticsValue None_ 0; mkStatisticsValue Mean (5 # 2); mkStatisticsValue Blc 7]
    = [mkStatisticsValue None_ 0] ++ added
    /\ Forall2 (entry_for unit sample_cast (fun _ _ => [5 # 2]) (fun _ => ([], []))
                  (fun _ => [7; 8]) (fun _ => [9; 9]) tt) added [4; 10]
    /\ List.length added = numStats (mkRegionStats [] cm_empty 0 0 [4; 10])
    /\ hd_error [NewLatticeStatistics; GetStatistic L_MEAN] = Some NewLatticeStatistics.
Proof.
  apply (fillStatsData_appends_entry_per_requirement unit sample_cast (fun _ _ => [5 # 2])
           (fun _ => ([], [])) (fun _ => [7; 8]) (fun _ => [9; 9])
           (mkRegionStats [] cm_empty 0 0 [4; 10]) [mkStatisticsValue None_ 0]
           [mkStatisticsValue None_ 0; mkStatisticsValue Mean (5 # 2); mkStatisticsValue Blc 7]
           tt [NewLatticeStatistics; GetStatistic L_MEAN]).
  - discriminate.
  - reflexivity.
Defined.

End RegionStatsFacts.

(* ===================================================================== *)
(** * Part VI: further properties of Ds9ImportExport                      *)
(* ===================================================================== *)

Module Ds9Facts.

Import Ds9 SingleProps Ds9Props.

Local Open Scope string_scope.

(** *** The coordinate system table *)

(** The DS9 coordinate system keywords with their casacore frames, as
    [InitDs9CoordMap] enters them. *)
Definition ds9_keywords : list (string * string) :=
  [("physical", ""); ("image", ""); ("b1950", "B1950"); ("fk4", "B1950");
   ("j2000", "J2000"); ("fk5", "J2000"); ("galactic", "GALACTIC");
   ("ecliptic", "ECLIPTIC"); ("icrs", "ICRS"); ("wcs", "UNSUPPORTED");
   ("wcsa", "UNSUPPORTED"); ("linear", "UNSUPPORTED")].

Lemma map_find_assign (k k' v : string) (m : list (string * string)) :
  map_find k (map_assign k' v m) = if String.eqb k k' then Some v else map_find k m.
Proof.
  induction m as [|[k0 v0] m IH]; cbn [map_assign map_find].
  - destruct (String.eqb k k'); reflexivity.
  - destruct (String.eqb_spec k' k0) as [->|Hne]; cbn [map_find].
    + destruct (String.eqb k k0); reflexivity.
    + rewrite IH. destruct (String.eqb_spec k k0) as [->|Hne'].
      * destruct (String.eqb_spec k0 k'); [congruence|reflexivity].
      * reflexivity.
Qed.

Lemma map_assign_same (k v : string) (m : list (string * string)) :
  map_find k m = Some v -> map_assign k v m = m.
Proof.
  induction m as [|[k0 v0] m IH]; cbn [map_assign map_find]; [discriminate|].
  destruct (String.eqb_spec k k0) as [->|Hne].
  - intros E. injection E as ->. reflexivity.
  - intros E. rewrite (IH E). reflexivity.
Qed.

Lemma InitDs9CoordMap_find (this : Ds9ImportExport) (k : string) :
  map_find k (_coord_map (InitDs9CoordMap this))
  = match map_find k ds9_keywords with
    | Some frame => Some frame
    | None => map_find k (_coord_map this)
    end.
Proof.
  unfold InitDs9CoordMap, set_coord_map. cbn [_coord_map].
  rewrite !map_find_assign. cbn [map_find ds9_keywords].
  repeat match goal with
         | |- context [String.eqb k ?w] =>
             destruct (String.eqb_spec k w) as [->|?]; [reflexivity|]
         end.
  reflexivity.
Qed.

(** X7.  After [InitDs9CoordMap] each of the twelve DS9 keywords maps to its
    casacore frame, whatever the map held for it before, and every other
    key maps to what it mapped to before.  Calling it a second time changes
    nothing. *)
Theorem InitDs9CoordMap_table :
  forall (this : Ds9ImportExport),
    (forall k,
        map_find k (_coord_map (InitDs9CoordMap this))
        = match map_find k ds9_keywords with
          | Some frame => Some frame
          | None => map_find k (_coord_map this)
          end)
    /\ InitDs9CoordMap (InitDs9CoordMap this) = InitDs9CoordMap this.
Proof.
  intros this. split; [apply InitDs9CoordMap_find|].
  unfold InitDs9CoordMap at 1. unfold set_coord_map.
  set (m := _coord_map (InitDs9CoordMap this)).
  assert (Hm : forall k v, map_find k ds9_keywords = Some v -> map_assign k v m = m).
  { intros k v Hk. apply map_assign_same. unfold m. rewrite InitDs9CoordMap_find, Hk.
    reflexivity. }
  rewrite !Hm by reflexivity.
  unfold m. destruct this; reflexivity.
Qed.

Lemma tolower_char_idem (c : ascii) : tolower_char (tolower_char c) = tolower_char c.
Proof. destruct c as [[] [] [] [] [] [] [] []]; reflexivity. Qed.

Lemma tolower_idem (s : string) : tolower (tolower s) = tolower s.
Proof.
  induction s as [|c s IH]; [reflexivity|]. cbn [tolower]. rewrite tolower_char_idem, IH.
  reflexivity.
Qed.

(** X8.  Once the map is initialised, a line is a coordinate system line
    exactly when, written in lower case, it is as a whole one of the twelve
    keywords (or a key the map held before); upper and lower case letters
    of the line make no difference. *)
Theorem IsDs9CoordSysKeyword_after_init :
  forall (this : Ds9ImportExport) (input_line : string),
    IsDs9CoordSysKeyword (InitDs9CoordMap this) input_line
    = map_count (tolower input_line) ds9_keywords || IsDs9CoordSysKeyword this input_line
    /\ IsDs9CoordSysKeyword this (tolower input_line) = IsDs9CoordSysKeyword this input_line.
Proof.
  intros this line. unfold IsDs9CoordSysKeyword, map_count.
  rewrite InitDs9CoordMap_find, tolower_idem. split; [|reflexivity].
  destruct (map_find (tolower line) ds9_keywords); reflexivity.
Qed.

Section GenericFacts.

Context {collab : Collaborators}.

(** *** What an import leaves alone *)

Lemma SetFileReferenceFrame_frame (line : string) (this : Ds9ImportExport) :
  let this' := snd (SetFileReferenceFrame line this) in
  _file_id this' = _file_id this /\ _parser_delim this' = _parser_delim this
  /\ _coord_map this' = _coord_map this /\ _import_regions this' = _import_regions this
  /\ _import_errors this' = _import_errors this /\ _export_regions this' = _export_regions this
  /\ (_pixel_coord this = false -> _pixel_coord this' = false).
Proof.
  destruct this as [fid delim iframe fframe pix cmap regs errs exps]. unfold SetFileReferenceFrame.
  cbn [set_file_ref_frame set_pixel_coord set_image_ref_frame SetImageReferenceFrame
       _file_id _parser_delim _image_ref_frame _file_ref_frame _pixel_coord _coord_map
       _import_regions _import_errors _export_regions].
  destruct (map_find _ _) as [frame|];
    [destruct (negb _ && negb _); [destruct (is_empty iframe)|]|];
    cbn;
    repeat match goal with
           | |- context [if ?c then _ else _] => destruct c
           end;
    cbn; repeat split; auto.
Qed.

(** What one import call adds to the object. *)
Definition grows_by (P : RegionState -> Prop) (this this' : Ds9ImportExport) : Prop :=
  _file_id this' = _file_id this /\ _parser_delim this' = _parser_delim this
  /\ _coord_map this' = _coord_map this /\ _export_regions this' = _export_regions this
  /\ (exists regions,
         _import_regions this' = (_import_regions this ++ regions)%list /\ Forall P regions)
  /\ (exists messages, _import_errors this' = _import_errors this ++ messages)
  /\ (_pixel_coord this = false -> _pixel_coord this' = false).

Lemma grows_by_refl (P : RegionState -> Prop) (this : Ds9ImportExport) : grows_by P this this.
Proof.
  unfold grows_by. repeat (split; [reflexivity|]). split; [|split; [|auto]].
  - exists []. rewrite app_nil_r. split; [reflexivity|constructor].
  - exists "". rewrite append_nil_r. reflexivity.
Qed.

Lemma grows_by_trans (P : RegionState -> Prop) (a b c : Ds9ImportExport) :
  grows_by P a b -> grows_by P b c -> grows_by P a c.
Proof.
  intros (A1 & A2 & A3 & A4 & (r1 & A5 & A5') & (m1 & A6) & A7)
         (B1 & B2 & B3 & B4 & (r2 & B5 & B5') & (m2 & B6) & B7).
  unfold grows_by. repeat (split; [congruence|]). split; [|split; [|auto]].
  - exists (r1 ++ r2)%list. rewrite B5, A5, app_assoc. split; [reflexivity|].
    apply Forall_app. auto.
  - exists (m1 ++ m2). rewrite B6, A6, append_assoc. reflexivity.
Qed.

Lemma grows_by_commit (P : RegionState -> Prop) (this : Ds9ImportExport) (e : Emit) :
  Forall P (new_regions e) -> grows_by P this (commit this e).
Proof.
  intros H. unfold grows_by, commit. cbn. repeat (split; [reflexivity|]).
  split; [exists (new_regions e); auto|]. split; [exists (new_errors e); reflexivity|auto].
Qed.

Lemma grows_by_SetFileReferenceFrame (P : RegionState -> Prop) (line : string)
    (this : Ds9ImportExport) :
  grows_by P this (snd (SetFileReferenceFrame line this)).
Proof.
  destruct (SetFileReferenceFrame_frame line this) as (H1 & H2 & H3 & H4 & H5 & H6 & H7).
  unfold grows_by. repeat (split; [assumption|]). split; [|split; [|exact H7]].
  - exists []. rewrite app_nil_r. split; [exact H4|constructor].
  - exists "". rewrite append_nil_r. exact H5.
Qed.

Lemma process_lines_grows (P : Z -> RegionState -> Prop) :
  (forall this line u e,
      SetRegion this line = Ok (u, e) -> Forall (P (_file_id this)) (new_regions e)) ->
  forall (lines : list string) (ok : bool) (this this' : Ds9ImportExport),
    process_lines lines ok this = Ok this' ->
    grows_by (P (_file_id this)) this this'.
Proof.
  intros HP. induction lines as [|line rest IH]; intros ok this this'; cbn [process_lines].
  - intros E. injection E as <-. apply grows_by_refl.
  - destruct (is_empty line); [apply IH|].
    destruct (Ascii.eqb (first_char line) "#"); [apply IH|].
    destruct (Ascii.eqb (first_char line) "-"); [apply IH|].
    destruct (str_find "global" line); [apply IH|].
    destruct (IsDs9CoordSysKeyword this line).
    + pose proof (grows_by_SetFileReferenceFrame (P (_file_id this)) line this) as Hg.
      destruct (SetFileReferenceFrame line this) as [[ok' line'] t]. cbn [snd] in Hg.
      assert (Hid : _file_id t = _file_id this) by (exact (proj1 Hg)).
      destruct ok'; intros E; apply IH in E.
      * rewrite Hid in E. exact (grows_by_trans _ _ _ _ Hg E).
      * unfold add_import_error in E. cbn [commit _file_id] in E. rewrite Hid in E.
        refine (grows_by_trans _ _ _ _ Hg (grows_by_trans _ _ _ _ _ E)).
        apply grows_by_commit. constructor.
    + destruct ok; [|apply IH].
      unfold run. destruct (SetRegion this line) as [[u e]| |w] eqn:Eset; try discriminate.
      intros E. apply IH in E. cbn [commit _file_id] in E.
      refine (grows_by_trans _ _ _ _ _ E). apply grows_by_commit.
      exact (HP this line u e Eset).
Qed.

End GenericFacts.

Section ShapeFacts.

Context {collab : Collaborators}.

(** *** The RegionStates that an import produces *)

(** What [SetRegion] stores for a definition with the items [parameters]
    and the name [name]: the importer's file id, the name, and a shape that
    fits the kind. *)
Definition well_formed (this : Ds9ImportExport) (parameters : list string) (name : string)
    (r : RegionState) : Prop :=
  reference_file_id r = _file_id this /\ Ds9.name r = name
  /\ match type r with
     | POINT => List.length (control_points r) = 1%nat /\ rotation r = 0%Q
     | ELLIPSE | RECTANGLE => List.length (control_points r) = 2%nat
     | POLYGON =>
         (2 * List.length (control_points r) + 1 = List.length parameters)%nat
         /\ rotation r = 0%Q
     | _ => False
     end.

Lemma invalid_nonempty (a p : string) : a ++ p ++ "." ++ nl <> "".
Proof. rewrite <- !append_assoc. apply message_nonempty. Qed.

Lemma regions_after_param_loop (P : RegionState -> Prop) (region_type : string)
    (is_time : nat -> bool) (default_unit : nat -> string) (invalid : string -> string)
    (params : list string) (i : nat) (k : list Quantity -> M unit) (u : unit) (e : Emit) :
  (forall p, invalid p <> "") ->
  (forall qs e2, List.length qs = List.length params -> k qs = Ok (u, e2) ->
                 Forall P (new_regions e2)) ->
  (r <- param_loop region_type is_time default_unit invalid params i ;;
   match r with
   | None => ret tt
   | Some param_quantities => k param_quantities
   end) = Ok (u, e) ->
  Forall P (new_regions e).
Proof.
  intros Hinv Hk E.
  apply bind_Ok in E. destruct E as (r & e1 & e2 & E1 & E2 & Er & Ee).
  apply param_loop_outcome in E1; [|exact Hinv]. destruct E1 as [Er1 Ee1].
  rewrite Er, Er1. cbn [app].
  destruct r as [qs|].
  - exact (Hk qs e2 (proj2 Ee1) E2).
  - apply ret_Ok in E2. destruct E2 as [_ [-> _]]. constructor.
Qed.

Lemma regions_after_points (P : RegionState -> Prop) (m : M (option (list Point)))
    (k : list Point -> M unit) (u : unit) (e : Emit) :
  (forall c e1, m = Ok (c, e1) -> new_regions e1 = []) ->
  (forall pts e1 e2, m = Ok (Some pts, e1) -> k pts = Ok (u, e2) -> Forall P (new_regions e2)) ->
  (c <- m ;; match c with None => ret tt | Some control_points => k control_points end)
  = Ok (u, e) ->
  Forall P (new_regions e).
Proof.
  intros Hm Hk E.
  apply bind_Ok in E. destruct E as (c & e1 & e2 & E1 & E2 & Er & Ee).
  rewrite Er, (Hm c e1 E1). cbn [app].
  destruct c as [pts|].
  - exact (Hk pts e1 e2 E1 E2).
  - apply ret_Ok in E2. destruct E2 as [_ [-> _]]. constructor.
Qed.

Lemma no_region_message (P : RegionState -> Prop) (msg : string) (u : unit) (e : Emit) :
  append_error msg = Ok (u, e) -> Forall P (new_regions e).
Proof. intros E. apply append_error_Ok in E. destruct E as [-> _]. constructor. Qed.

Lemma one_region (P : RegionState -> Prop) (r : RegionState) (u : unit) (e : Emit) :
  P r -> push_region r = Ok (u, e) -> Forall P (new_regions e).
Proof.
  intros Hr E. apply push_region_Ok in E. destruct E as [-> _]. constructor; [exact Hr|constructor].
Qed.

Lemma center_and_size_two (this : Ds9ImportExport) (failed : string) (qs : list Quantity)
    (pts : list Point) (e : Emit) :
  center_and_size this failed qs = Ok (Some pts, e) -> List.length pts = 2%nat.
Proof.
  unfold center_and_size.
  destruct qs as [|q0 [|q1 [|q2 [|q3 qs]]]]; try discriminate.
  destruct (_pixel_coord this).
  - intros E. apply ret_Ok in E. destruct E as [E _]. injection E as ->. reflexivity.
  - destruct (ConvertPointToPixels _ _) as [[px py]|].
    + intros E. apply ret_Ok in E. destruct E as [E _]. injection E as ->. reflexivity.
    + intros E. apply bind_Ok in E. destruct E as (u & e1 & e2 & _ & E2 & _).
      apply ret_Ok in E2. destruct E2 as [E2 _]. discriminate E2.
Qed.

Lemma polygon_points_pairs (this : Ds9ImportExport) (n : nat) :
  forall (qs : list Quantity) (pts : list Point) (e : Emit),
    (List.length qs <= n)%nat ->
    polygon_points this qs = Ok (Some pts, e) ->
    List.length qs = (2 * List.length pts)%nat.
Proof.
  induction n as [|n IH]; intros qs pts e Hlen.
  - destruct qs; [|simpl in Hlen; lia]. cbn [polygon_points].
    intros E. apply ret_Ok in E. destruct E as [E _]. injection E as ->. reflexivity.
  - destruct qs as [|q0 [|q1 rest]]; cbn [polygon_points].
    + intros E. apply ret_Ok in E. destruct E as [E _]. injection E as ->. reflexivity.
    + discriminate.
    + assert (Hrest : (List.length rest <= n)%nat) by (simpl in Hlen; lia).
      assert (Hstep : forall pt,
                 (r <- polygon_points this rest ;; ret (option_map (cons pt) r))
                 = Ok (Some pts, e) ->
                 List.length (q0 :: q1 :: rest) = (2 * List.length pts)%nat).
      { intros pt E. apply bind_Ok in E. destruct E as (r & e1 & e2 & E1 & E2 & _).
        apply ret_Ok in E2. destruct E2 as [E2 _].
        destruct r as [pts'|]; [|discriminate E2]. cbn [option_map] in E2.
        injection E2 as ->. apply (IH rest pts' e1 Hrest) in E1.
        cbn [List.length]. lia. }
      destruct (_pixel_coord this); [apply Hstep|].
      destruct (ConvertPointToPixels _ _) as [[px py]|]; [apply Hstep|].
      intros E. apply bind_Ok in E. destruct E as (u & e1 & e2 & _ & E2 & _).
      apply ret_Ok in E2. destruct E2 as [E2 _]. discriminate E2.
Qed.

Lemma ImportPointRegion_wf (this : Ds9ImportExport) (parameters ps : list string)
    (name : string) (exclude_region : bool) (u : unit) (e : Emit) :
  ImportPointRegion this parameters name exclude_region = Ok (u, e) ->
  Forall (well_formed this ps name) (new_regions e).
Proof.
  unfold ImportPointRegion.
  destruct (_ || _); [apply no_region_message|].
  apply regions_after_param_loop; [apply invalid_nonempty|].
  intros qs e2 _. destruct (_pixel_coord this).
  - destruct qs as [|q0 [|q1 qs]]; try discriminate.
    apply one_region. repeat split.
  - destruct (ConvertPointToPixels _ _) as [[px py]|]; [|apply no_region_message].
    apply one_region. repeat split.
Qed.

Lemma ImportEllipseRegion_wf (this : Ds9ImportExport) (parameters ps : list string)
    (name : string) (exclude_region : bool) (u : unit) (e : Emit) :
  ImportEllipseRegion this parameters name exclude_region = Ok (u, e) ->
  Forall (well_formed this ps name) (new_regions e).
Proof.
  unfold ImportEllipseRegion.
  destruct (_ || _).
  - apply regions_after_param_loop; [apply invalid_nonempty|].
    intros qs e2 _. apply regions_after_points.
    + intros c e1 E. exact (proj1 (center_and_size_outcome _ _ _ _ _ E)).
    + intros pts e1 e3 E.
      apply center_and_size_two in E. apply one_region. repeat split. exact E.
  - destruct (6 <? _)%nat; apply no_region_message.
Qed.

Lemma ImportCircleRegion_wf (this : Ds9ImportExport) (parameters ps : list string)
    (name : string) (exclude_region : bool) (u : unit) (e : Emit) :
  ImportCircleRegion this parameters name exclude_region = Ok (u, e) ->
  Forall (well_formed this ps name) (new_regions e).
Proof.
  unfold ImportCircleRegion.
  destruct (4 <=? _)%nat; [apply ImportEllipseRegion_wf|apply no_region_message].
Qed.

Lemma ImportRectangleRegion_wf (this : Ds9ImportExport) (parameters ps : list string)
    (name : string) (exclude_region : bool) (u : unit) (e : Emit) :
  ImportRectangleRegion this parameters name exclude_region = Ok (u, e) ->
  Forall (well_formed this ps name) (new_regions e).
Proof.
  unfold ImportRectangleRegion.
  destruct (_ || _).
  - apply regions_after_param_loop; [apply invalid_nonempty|].
    intros qs e2 _. apply regions_after_points.
    + intros c e1 E. exact (proj1 (center_and_size_outcome _ _ _ _ _ E)).
    + intros pts e1 e3 E.
      apply center_and_size_two in E. apply one_region. repeat split. exact E.
  - destruct (6 <? _)%nat; apply no_region_message.
Qed.

Lemma ImportPolygonRegion_wf (this : Ds9ImportExport) (parameters : list string)
    (name : string) (exclude_region : bool) (u : unit) (e : Emit) :
  ImportPolygonRegion this parameters name exclude_region = Ok (u, e) ->
  Forall (well_formed this parameters name) (new_regions e).
Proof.
  unfold ImportPolygonRegion.
  destruct (negb (List.length parameters mod 2 =? 1)%nat) eqn:Hodd; [apply no_region_message|].
  apply regions_after_param_loop; [apply invalid_nonempty|].
  intros qs e2 Hlen. apply regions_after_points.
  - intros c e1 E.
    exact (proj1 (polygon_points_outcome this (List.length qs) qs c e1 (Nat.le_refl _) E)).
  - intros pts e1 e3 E.
    apply (polygon_points_pairs this (List.length qs) qs pts e1 (Nat.le_refl _)) in E.
    apply one_region. repeat split. cbn [control_points].
    rewrite <- E, Hlen.
    destruct parameters as [|p0 ps]; [discriminate Hodd|].
    cbn [skipn List.length]. lia.
Qed.

(** The name that [SetRegion] gives a region: the [text] property. *)
Definition region_name_of (properties : list (string * string)) : string :=
  match map_find "text" properties with
  | Some v => v
  | None => ""
  end.

Lemma SetRegion_wf (this : Ds9ImportExport) (line : string) (u : unit) (e : Emit) :
  SetRegion this line = Ok (u, e) ->
  Forall (well_formed this (fst (ParseRegionParameters (_parser_delim this) line))
            (region_name_of (snd (ParseRegionParameters (_parser_delim this) line))))
    (new_regions e).
Proof.
  unfold SetRegion, region_name_of.
  destruct (ParseRegionParameters (_parser_delim this) line) as [[|p0 ps] props];
    [discriminate|].
  cbn [fst snd].
  match goal with
  | |- (let '(_, _) := ?c in _) = _ -> _ => destruct c as [rt ex]
  end.
  destruct (str_find "point" rt); [apply ImportPointRegion_wf|].
  destruct (str_find "circle" rt); [apply ImportCircleRegion_wf|].
  destruct (str_find "ellipse" rt); [apply ImportEllipseRegion_wf|].
  destruct (str_find "box" rt); [apply ImportRectangleRegion_wf|].
  destruct (str_find "polygon" rt); [apply ImportPolygonRegion_wf|].
  destruct (str_find "line" rt); [apply no_region_message|].
  destruct (str_find "vector" rt); [apply no_region_message|].
  destruct (str_find "text" rt); [apply no_region_message|].
  destruct (str_find "annulus" rt); [apply no_region_message|].
  intros E. apply ret_Ok in E. destruct E as [_ [-> _]]. constructor.
Qed.

Lemma SetRegion_at_most_one (this : Ds9ImportExport) (line : string) (u : unit) (e : Emit) :
  SetRegion this line = Ok (u, e) -> (List.length (new_regions e) <= 1)%nat.
Proof.
  intros E.
  destruct (ParseRegionParameters (_parser_delim this) line) as [[|p0 ps] props] eqn:Hparse.
  - unfold SetRegion in E. rewrite Hparse in E. discriminate E.
  - pose proof (SetRegion_outcome this line p0 ps props u e Hparse E) as H.
    destruct (recognised _).
    + destruct H as [(r & -> & _)|[-> _]]; cbn; lia.
    + destruct H as [-> _]. cbn. lia.
Qed.

(** X16.  [SetRegion] adds at most one RegionState for a definition.  It
    carries the importer's file id and, as its name, the [text] property of
    the definition (the empty name when there is none); a point has one
    control point and rotation 0, an ellipse or a rectangle two control
    points, and a polygon one control point for every two items after the
    region word, and rotation 0.  No other kind of region is produced. *)
Theorem SetRegion_regions_are_well_formed :
  forall (this : Ds9ImportExport) (region_definition : string) (e : Emit),
    SetRegion this region_definition = Ok (tt, e) ->
    (List.length (new_regions e) <= 1)%nat
    /\ Forall
         (well_formed this
            (fst (ParseRegionParameters (_parser_delim this) region_definition))
            (region_name_of
               (snd (ParseRegionParameters (_parser_delim this) region_definition))))
         (new_regions e).
Proof.
  intros this line e E. split; [exact (SetRegion_at_most_one this line tt e E)|].
  exact (SetRegion_wf this line tt e E).
Qed.

(** A RegionState as an import stores it, whatever the line was. *)
Definition imported (file_id : Z) (r : RegionState) : Prop :=
  reference_file_id r = file_id
  /\ match type r with
     | POINT => List.length (control_points r) = 1%nat /\ rotation r = 0%Q
     | ELLIPSE | RECTANGLE => List.length (control_points r) = 2%nat
     | POLYGON => rotation r = 0%Q
     | _ => False
     end.

Lemma well_formed_imported (this : Ds9ImportExport) (ps : list string) (name : string)
    (r : RegionState) :
  well_formed this ps name r -> imported (_file_id this) r.
Proof.
  intros (Hid & _ & Hshape). split; [exact Hid|].
  destruct (type r); try exact Hshape. exact (proj2 Hshape).
Qed.

Lemma SetRegion_imported (this : Ds9ImportExport) (line : string) (u : unit) (e : Emit) :
  SetRegion this line = Ok (u, e) -> Forall (imported (_file_id this)) (new_regions e).
Proof.
  intros E. apply SetRegion_wf in E. revert E. apply Forall_impl.
  intros r. apply well_formed_imported.
Qed.

(** X13.  [ProcessFileLines], when it returns, has only appended to the
    RegionStates and to the messages that the object held; file id, parser
    delimiters and export lines are as before.  Every RegionState added
    carries the importer's file id and is a point with one control point,
    an ellipse or a rectangle with two, or a polygon; points and polygons
    have rotation 0.  Pixel mode, once off, is never turned on again (not
    by a later "image" or "physical" line either). *)
Theorem import_only_appends :
  forall (lines : list string) (this this' : Ds9ImportExport),
    ProcessFileLines lines this = Ok this' ->
    _file_id this' = _file_id this /\ _parser_delim this' = _parser_delim this
    /\ _export_regions this' = _export_regions this
    /\ (exists regions,
           _import_regions this' = (_import_regions this ++ regions)%list
           /\ Forall (imported (_file_id this)) regions)
    /\ (exists messages, _import_errors this' = _import_errors this ++ messages)
    /\ (_pixel_coord this = false -> _pixel_coord this' = false).
Proof.
  intros lines this this'. unfold ProcessFileLines.
  destruct lines as [|l ls].
  - intros E. injection E as <-. repeat (split; [reflexivity|]).
    split; [exists []; rewrite app_nil_r; split; [reflexivity|constructor]|].
    split; [exists ""; rewrite append_nil_r; reflexivity|auto].
  - intros E. apply (process_lines_grows imported SetRegion_imported) in E.
    destruct E as (H1 & H2 & _ & H4 & H5 & H6 & H7).
    repeat (split; [assumption|]). exact H7.
Qed.

(** X14.  An object built by the importing constructor has no export lines,
    whatever the file held: both overloads of [ExportRegions] return
    [false] with the message "Export region failed: no regions to export.",
    and [contents] is left as it was. *)
Theorem importer_has_nothing_to_export :
  forall (file_id : Z) (file : string) (file_is_filename : bool) (this : Ds9ImportExport)
         (contents : list string) (filename error : string),
    new_import file_id file file_is_filename = Ok this ->
    ExportRegions this contents error
    = (false, contents, "Export region failed: no regions to export.")
    /\ ExportRegions_file this filename error
       = (false, None, "Export region failed: no regions to export.").
Proof.
  intros file_id file b this contents filename error. unfold new_import.
  intros E.
  assert (Hexp : _export_regions this = []).
  { destruct (ReadRegionFile file b ";") as [|l ls]; cbn [ProcessFileLines] in E.
    - injection E as <-. reflexivity.
    - apply (process_lines_grows imported SetRegion_imported) in E.
      destruct E as (_ & _ & _ & H4 & _). rewrite H4. reflexivity. }
  unfold ExportRegions, ExportRegions_file. rewrite Hexp. split; reflexivity.
Qed.

End ShapeFacts.

Section SafetyFacts.

Context {collab : Collaborators}.

(** *** When an import call does not return *)

(** How [CheckAndConvertParameter] ends: it returns, unless [std::stod]
    throws [std::out_of_range], which it does not catch. *)
Lemma CheckAndConvertParameter_ends (parameter region_type : string) :
  match CheckAndConvertParameter parameter region_type with
  | Ok _ => stod parameter <> StodOutOfRange
  | Undefined => False
  | Thrown w => w = "std::out_of_range" /\ stod parameter = StodOutOfRange
  end.
Proof.
  unfold CheckAndConvertParameter.
  destruct (stod parameter) as [idx| |]; [| discriminate | auto].
  destruct (String.length parameter =? idx)%nat; [discriminate|].
  destruct (String.length parameter =? idx + 1)%nat.
  - match goal with |- context [let '(_, _) := ?c in _] => destruct c as [cu v] end.
    destruct v; discriminate.
  - destruct (sscanf_hms parameter); discriminate.
Qed.

Lemma param_loop_ends (region_type : string) (is_time : nat -> bool)
    (default_unit : nat -> string) (invalid : string -> string) :
  forall (params : list string) (i : nat),
    match param_loop region_type is_time default_unit invalid params i with
    | Ok _ => True
    | Undefined => False
    | Thrown w =>
        w = "std::out_of_range" /\ exists p, In p params /\ stod p = StodOutOfRange
    end.
Proof.
  induction params as [|p rest IH]; intros i; cbn [param_loop]; [exact I|].
  pose proof (CheckAndConvertParameter_ends p region_type) as Hc.
  destruct (CheckAndConvertParameter p region_type) as [[[valid param] e1]| |w];
    cbn [bind]; [|contradiction|].
  - destruct valid; [|exact I].
    destruct (readQuantity _) as [q|]; [|exact I].
    specialize (IH (S i)).
    destruct (param_loop region_type is_time default_unit invalid rest (S i))
      as [[r e2]| |w]; cbn [bind ret]; [exact I|contradiction|].
    destruct IH as [-> (p' & Hin & Hp')]. split; [reflexivity|].
    exists p'. split; [right; exact Hin|exact Hp'].
  - destruct Hc as [-> Hp]. split; [reflexivity|]. exists p. split; [left; reflexivity|exact Hp].
Qed.

Lemma polygon_points_ends (this : Ds9ImportExport) (n : nat) :
  forall (qs : list Quantity),
    (List.length qs <= n)%nat ->
    match polygon_points this qs with
    | Ok _ => True
    | Undefined => Nat.odd (List.length qs) = true
    | Thrown _ => False
    end.
Proof.
  induction n as [|n IH]; intros qs Hlen.
  - destruct qs; [exact I|simpl in Hlen; lia].
  - destruct qs as [|q0 [|q1 rest]]; cbn [polygon_points]; [exact I|reflexivity|].
    assert (Hrest : (List.length rest <= n)%nat) by (simpl in Hlen; lia).
    specialize (IH rest Hrest).
    assert (Hstep : forall pt,
               match (r <- polygon_points this rest ;; ret (option_map (cons pt) r)) with
               | Ok _ => True
               | Undefined => Nat.odd (List.length (q0 :: q1 :: rest)) = true
               | Thrown _ => False
               end).
    { intros pt. destruct (polygon_points this rest) as [[r e]| |w]; cbn [bind ret];
        [exact I| |contradiction].
      cbn [List.length]. rewrite Nat.odd_succ_succ. exact IH. }
    destruct (_pixel_coord this); [apply Hstep|].
    destruct (ConvertPointToPixels _ _) as [[px py]|]; [apply Hstep|exact I].
Qed.

(** The outcome of a region line: [SetRegion] returns, or reads a vector
    out of range in one of two places, or is left by the exception of
    [std::stod]. *)
Definition ends_well (parameters : list string) (pixel_coord : bool) (m : M unit) : Prop :=
  match m with
  | Ok _ => True
  | Undefined =>
      List.length parameters = 3%nat /\ nth 1 parameters "" = "point" /\ pixel_coord = true
  | Thrown w =>
      w = "std::out_of_range" /\ exists p, In p parameters /\ stod p = StodOutOfRange
  end.

Lemma ends_well_message (parameters : list string) (pixel_coord : bool) (msg : string) :
  ends_well parameters pixel_coord (append_error msg).
Proof. exact I. Qed.

Lemma ends_after_param_loop (parameters : list string) (pixel_coord : bool)
    (region_type : string) (is_time : nat -> bool) (default_unit : nat -> string)
    (invalid : string -> string) (params : list string) (i : nat)
    (k : list Quantity -> M unit) :
  (forall p, invalid p <> "") ->
  (forall p, In p params -> In p parameters) ->
  (forall qs, List.length qs = List.length params -> ends_well parameters pixel_coord (k qs)) ->
  ends_well parameters pixel_coord
    (r <- param_loop region_type is_time default_unit invalid params i ;;
     match r with
     | None => ret tt
     | Some param_quantities => k param_quantities
     end).
Proof.
  intros Hinv Hin Hk.
  pose proof (param_loop_ends region_type is_time default_unit invalid params i) as He.
  pose proof (param_loop_outcome region_type is_time default_unit invalid Hinv params i) as Ho.
  destruct (param_loop region_type is_time default_unit invalid params i) as [[r e1]| |w];
    cbn [bind]; [|contradiction|].
  - destruct r as [qs|]; [|exact I].
    specialize (Ho (Some qs) e1 eq_refl). destruct Ho as [_ [_ Hlen]].
    specialize (Hk qs Hlen). destruct (k qs) as [[u e2]| |w]; exact Hk.
  - destruct He as [-> (p & Hp & Hs)]. split; [reflexivity|]. exists p. auto.
Qed.

Lemma In_skipn (A : Type) (n : nat) (l : list A) (a : A) : In a (skipn n l) -> In a l.
Proof.
  revert l. induction n as [|n IH]; intros l; [auto|].
  destruct l as [|b l]; cbn [skipn]; [auto|]. intros H. right. apply IH. exact H.
Qed.

Lemma ImportPointRegion_ends (this : Ds9ImportExport) (parameters : list string)
    (name : string) (exclude_region : bool) :
  ends_well parameters (_pixel_coord this)
    (ImportPointRegion this parameters name exclude_region).
Proof.
  unfold ImportPointRegion.
  destruct ((List.length parameters <? 3)%nat || _) eqn:Hcond; [exact I|].
  apply orb_false_elim in Hcond. destruct Hcond as [Hn _].
  apply Nat.ltb_ge in Hn.
  apply ends_after_param_loop; [apply invalid_nonempty|apply In_skipn|].
  intros qs Hlen. rewrite length_skipn in Hlen.
  destruct (_pixel_coord this).
  - destruct qs as [|q0 [|q1 qs]]; [| |exact I]; cbn [List.length] in Hlen;
      (destruct (String.eqb_spec (nth 1 parameters "") "point") as [Hp|Hp]; [|lia]);
      cbn [ends_well]; repeat split; [lia|exact Hp|lia|exact Hp].
  - destruct (ConvertPointToPixels _ _) as [[px py]|]; exact I.
Qed.

Lemma center_and_size_ends (this : Ds9ImportExport) (failed : string) (qs : list Quantity) :
  (4 <= List.length qs)%nat ->
  exists c e, center_and_size this failed qs = Ok (c, e).
Proof.
  intros Hlen. unfold center_and_size.
  destruct qs as [|q0 [|q1 [|q2 [|q3 qs]]]]; cbn [List.length] in Hlen; try lia.
  destruct (_pixel_coord this); [eexists; eexists; reflexivity|].
  destruct (ConvertPointToPixels _ _) as [[px py]|]; eexists; eexists; reflexivity.
Qed.

Lemma ends_after_center_and_size (parameters : list string) (pixel_coord : bool)
    (this : Ds9ImportExport) (failed : string) (qs : list Quantity)
    (k : list Point -> RegionState) :
  (4 <= List.length qs)%nat ->
  ends_well parameters pixel_coord
    (c <- center_and_size this failed qs ;;
     match c with
     | None => ret tt
     | Some control_points => push_region (k control_points)
     end).
Proof.
  intros Hlen. destruct (center_and_size_ends this failed qs Hlen) as (c & e & ->).
  cbn [bind]. destruct c; exact I.
Qed.

Lemma ImportEllipseRegion_ends (this : Ds9ImportExport) (ps parameters : list string)
    (name : string) (exclude_region : bool) :
  (forall p, In p (skipn 1 parameters) -> In p ps) ->
  ends_well ps (_pixel_coord this) (ImportEllipseRegion this parameters name exclude_region).
Proof.
  intros Hin. unfold ImportEllipseRegion.
  destruct ((List.length parameters =? 5)%nat || (List.length parameters =? 6)%nat) eqn:Hn.
  - apply ends_after_param_loop; [apply invalid_nonempty|exact Hin|].
    intros qs Hlen. rewrite length_skipn in Hlen.
    apply ends_after_center_and_size.
    apply orb_prop in Hn. destruct Hn as [Hn|Hn]; apply Nat.eqb_eq in Hn; lia.
  - destruct (6 <? _)%nat; exact I.
Qed.

Lemma ImportRectangleRegion_ends (this : Ds9ImportExport) (parameters : list string)
    (name : string) (exclude_region : bool) :
  ends_well parameters (_pixel_coord this)
    (ImportRectangleRegion this parameters name exclude_region).
Proof.
  unfold ImportRectangleRegion.
  destruct ((List.length parameters =? 5)%nat || (List.length parameters =? 6)%nat) eqn:Hn.
  - apply ends_after_param_loop; [apply invalid_nonempty|apply In_skipn|].
    intros qs Hlen. rewrite length_skipn in Hlen.
    apply ends_after_center_and_size.
    apply orb_prop in Hn. destruct Hn as [Hn|Hn]; apply Nat.eqb_eq in Hn; lia.
  - destruct (6 <? _)%nat; exact I.
Qed.

Lemma ImportCircleRegion_ends (this : Ds9ImportExport) (parameters : list string)
    (name : string) (exclude_region : bool) :
  ends_well parameters (_pixel_coord this)
    (ImportCircleRegion this parameters name exclude_region).
Proof.
  unfold ImportCircleRegion.
  destruct (4 <=? List.length parameters)%nat eqn:Hn; [|exact I].
  apply Nat.leb_le in Hn.
  apply ImportEllipseRegion_ends. cbn [skipn].
  intros p [<-|[<-|[<-|[<-|[]]]]]; apply nth_In; lia.
Qed.

Lemma ImportPolygonRegion_ends (this : Ds9ImportExport) (parameters : list string)
    (name : string) (exclude_region : bool) :
  ends_well parameters (_pixel_coord this)
    (ImportPolygonRegion this parameters name exclude_region).
Proof.
  unfold ImportPolygonRegion.
  destruct (negb (List.length parameters mod 2 =? 1)%nat) eqn:Hodd; [exact I|].
  apply negb_false_iff, Nat.eqb_eq in Hodd.
  apply ends_after_param_loop; [apply invalid_nonempty|apply In_skipn|].
  intros qs Hlen. rewrite length_skipn in Hlen.
  pose proof (polygon_points_ends this (List.length qs) qs (Nat.le_refl _)) as Hp.
  destruct (polygon_points this qs) as [[c e]| |w]; cbn [bind]; [|exfalso|contradiction].
  - destruct c; exact I.
  - rewrite Hlen in Hp. rewrite <- Nat.negb_even in Hp. apply negb_true_iff in Hp.
    assert (He : Nat.even (List.length parameters) = true).
    { destruct parameters as [|p0 ps]; [reflexivity|].
      cbn [List.length] in Hp |- *. rewrite Nat.sub_succ, Nat.sub_0_r in Hp.
      rewrite Nat.even_succ, <- Nat.negb_even, Hp. reflexivity. }
    apply Nat.even_spec in He. destruct He as [m Hm]. rewrite Hm in Hodd.
    rewrite Nat.mul_comm, Nat.Div0.mod_mul in Hodd. discriminate.
Qed.

Lemma SetRegion_ends (this : Ds9ImportExport) (line : string) :
  fst (ParseRegionParameters (_parser_delim this) line) <> [] ->
  ends_well (fst (ParseRegionParameters (_parser_delim this) line)) (_pixel_coord this)
    (SetRegion this line).
Proof.
  unfold SetRegion.
  destruct (ParseRegionParameters (_parser_delim this) line) as [[|p0 ps] props];
    cbn [fst]; [congruence|]. intros _.
  match goal with
  | |- context [let '(_, _) := ?c in _] => destruct c as [rt ex]
  end.
  destruct (str_find "point" rt); [apply ImportPointRegion_ends|].
  destruct (str_find "circle" rt); [apply ImportCircleRegion_ends|].
  destruct (str_find "ellipse" rt); [apply ImportEllipseRegion_ends; apply In_skipn|].
  destruct (str_find "box" rt); [apply ImportRectangleRegion_ends|].
  destruct (str_find "polygon" rt); [apply ImportPolygonRegion_ends|].
  destruct (str_find "line" rt); [exact I|].
  destruct (str_find "vector" rt); [exact I|].
  destruct (str_find "text" rt); [exact I|].
  destruct (str_find "annulus" rt); exact I.
Qed.

(** X17.  [SetRegion] reads a vector out of its range in two cases only:
    when [ParseRegionParameters] yields no item at all ([parameters[0]]),
    and, in pixel mode, for a definition of exactly three items whose
    second is "point" ([param_quantities[1]] in [ImportPointRegion], where
    one quantity was read).  Ellipses, rectangles and polygons are checked
    for their number of items before their quantities are indexed. *)
Theorem SetRegion_reads_out_of_range_only_for :
  forall (this : Ds9ImportExport) (region_definition : string),
    SetRegion this region_definition = Undefined ->
    let parameters := fst (ParseRegionParameters (_parser_delim this) region_definition) in
    parameters = []
    \/ (List.length parameters = 3%nat /\ nth 1 parameters "" = "point"
        /\ _pixel_coord this = true).
Proof.
  intros this line E. cbv zeta.
  destruct (fst (ParseRegionParameters (_parser_delim this) line)) as [|p0 ps] eqn:Hp;
    [left; reflexivity|right].
  pose proof (SetRegion_ends this line) as H. rewrite Hp, E in H.
  apply H. discriminate.
Qed.

(** X18.  The only exception that leaves [SetRegion] is the
    [std::out_of_range] of [std::stod], which [CheckAndConvertParameter]
    does not catch (it catches [std::invalid_argument]): it is thrown for
    one of the items of the definition. *)
Theorem SetRegion_throws_only_out_of_range :
  forall (this : Ds9ImportExport) (region_definition what : string),
    SetRegion this region_definition = Thrown what ->
    what = "std::out_of_range"
    /\ exists p,
         In p (fst (ParseRegionParameters (_parser_delim this) region_definition))
         /\ stod p = StodOutOfRange.
Proof.
  intros this line w E.
  destruct (fst (ParseRegionParameters (_parser_delim this) line)) as [|p0 ps] eqn:Hp.
  - unfold SetRegion in E.
    destruct (ParseRegionParameters (_parser_delim this) line) as [params props].
    cbn [fst] in Hp. subst params. discriminate E.
  - pose proof (SetRegion_ends this line) as H. rewrite Hp, E in H.
    apply H. discriminate.
Qed.

End SafetyFacts.

(** *** Lines that the import passes over *)

(** The lines that [ProcessFileLines] skips before looking at them: blank
    lines, comments, excluded regions, and lines that hold the word
    "global". *)
Definition skipped_line (line : string) : bool :=
  is_empty line || Ascii.eqb (first_char line) "#" || Ascii.eqb (first_char line) "-"
  || str_find "global" line.

(** [ConvertTimeFormatToDeg], character by character. *)
Lemma ConvertTimeFormatToDeg_get (parameter : string) :
  forall (i : nat),
    String.get i (ConvertTimeFormatToDeg parameter)
    = option_map (fun c => if Ascii.eqb c ":" then "."%char else c) (String.get i parameter).
Proof.
  induction parameter as [|c s IH]; intros i; [reflexivity|].
  cbn [ConvertTimeFormatToDeg]. destruct i as [|i]; [reflexivity|]. cbn [String.get]. apply IH.
Qed.

(** X9.  [ConvertTimeFormatToDeg] replaces every colon by a full stop and
    leaves every other character, and the length, as it is; no colon is
    left, and a second call changes nothing. *)
Theorem ConvertTimeFormatToDeg_replaces_colons :
  forall (parameter : string),
    String.length (ConvertTimeFormatToDeg parameter) = String.length parameter
    /\ (forall i,
           String.get i (ConvertTimeFormatToDeg parameter)
           = option_map (fun c => if Ascii.eqb c ":" then "."%char else c)
               (String.get i parameter))
    /\ mem_char ":" (ConvertTimeFormatToDeg parameter) = false
    /\ ConvertTimeFormatToDeg (ConvertTimeFormatToDeg parameter)
       = ConvertTimeFormatToDeg parameter.
Proof.
  intros s. split; [|split; [apply ConvertTimeFormatToDeg_get|split]].
  - induction s as [|c s IH]; [reflexivity|]. cbn [ConvertTimeFormatToDeg String.length].
    rewrite IH. reflexivity.
  - induction s as [|c s IH]; [reflexivity|]. cbn [ConvertTimeFormatToDeg mem_char].
    rewrite IH, orb_false_r.
    destruct (Ascii.eqb_spec c ":") as [->|Hne]; [reflexivity|].
    destruct (Ascii.eqb_spec ":" c); [congruence|reflexivity].
  - induction s as [|c s IH]; [reflexivity|]. cbn [ConvertTimeFormatToDeg].
    rewrite IH. destruct (Ascii.eqb c ":") eqn:E; [reflexivity|rewrite E; reflexivity].
Qed.

Section LineFacts.

Context {collab : Collaborators}.

(** X11.  Blank lines, comment lines, lines of excluded regions (first
    character [-]) and lines that hold the word "global" anywhere, a region
    name included, have no effect on an import, wherever they stand in the
    file: with and without them [ProcessFileLines]'s loop ends in the same
    way. *)
Theorem skipped_lines_change_nothing :
  forall (lines : list string) (ds9_coord_sys_ok : bool) (this : Ds9ImportExport),
    process_lines lines ds9_coord_sys_ok this
    = process_lines (filter (fun line => negb (skipped_line line)) lines)
        ds9_coord_sys_ok this.
Proof.
  induction lines as [|line rest IH]; intros ok this; [reflexivity|].
  cbn [filter]. unfold skipped_line at 1.
  destruct (is_empty line) eqn:H1; cbn [orb negb].
  { cbn [process_lines]. rewrite H1. apply IH. }
  destruct (Ascii.eqb (first_char line) "#") eqn:H2; cbn [orb negb].
  { cbn [process_lines]. rewrite H1, H2. apply IH. }
  destruct (Ascii.eqb (first_char line) "-") eqn:H3; cbn [orb negb].
  { cbn [process_lines]. rewrite H1, H2, H3. apply IH. }
  destruct (str_find "global" line) eqn:H4; cbn [orb negb].
  { cbn [process_lines]. rewrite H1, H2, H3, H4. apply IH. }
  cbn [process_lines]. rewrite H1, H2, H3, H4.
  destruct (IsDs9CoordSysKeyword this line).
  - destruct (SetFileReferenceFrame line this) as [[ok' line'] t].
    destruct ok'; apply IH.
  - destruct ok; [|apply IH].
    destruct (run this (SetRegion this line)); [apply IH|reflexivity|reflexivity].
Qed.

Lemma dropped_while_not_ok (lines : list string) (this : Ds9ImportExport) :
  Forall (fun line => IsDs9CoordSysKeyword this line = false) lines ->
  process_lines lines false this = Ok this.
Proof.
  induction 1 as [|line rest Hk Hrest IH]; [reflexivity|].
  cbn [process_lines]. rewrite Hk.
  repeat match goal with |- context [if ?c then _ else _] => destruct c end; exact IH.
Qed.

Lemma SetFileReferenceFrame_false (line : string) (this : Ds9ImportExport) :
  fst (fst (SetFileReferenceFrame line this)) = false ->
  snd (fst (SetFileReferenceFrame line this)) = tolower line
  /\ _file_ref_frame (snd (SetFileReferenceFrame line this)) = "UNSUPPORTED"
  /\ _pixel_coord (snd (SetFileReferenceFrame line this)) = false.
Proof.
  unfold SetFileReferenceFrame.
  match goal with
  | |- context [String.eqb (_file_ref_frame ?t) "UNSUPPORTED"] =>
      destruct (String.eqb_spec (_file_ref_frame t) "UNSUPPORTED") as [E|E]
  end; cbn [fst snd]; [|discriminate].
  intros _. split; [reflexivity|]. split; [|reflexivity].
  cbn [set_pixel_coord _file_ref_frame]. exact E.
Qed.

(** X12.  A coordinate system line that [SetFileReferenceFrame] refuses
    (its frame is "UNSUPPORTED") adds the one message "coord sys <line> not
    supported.", with the line in lower case as [SetFileReferenceFrame] left
    it, and turns pixel mode off.  The lines after it, as long as none of
    them is a coordinate system line, are dropped: no RegionState and no
    further message comes of them. *)
Theorem unsupported_coord_sys_drops_region_lines :
  forall (line : string) (lines : list string) (ds9_coord_sys_ok : bool)
         (this : Ds9ImportExport),
    skipped_line line = false ->
    IsDs9CoordSysKeyword this line = true ->
    fst (fst (SetFileReferenceFrame line this)) = false ->
    Forall (fun l => IsDs9CoordSysKeyword this l = false) lines ->
    exists this',
      process_lines (line :: lines) ds9_coord_sys_ok this = Ok this'
      /\ _import_regions this' = _import_regions this
      /\ _import_errors this'
         = _import_errors this ++ "coord sys " ++ tolower line ++ " not supported." ++ nl
      /\ _file_ref_frame this' = "UNSUPPORTED"
      /\ _pixel_coord this' = false.
Proof.
  intros line lines ok this Hskip Hkw Hfalse Hrest.
  unfold skipped_line in Hskip.
  repeat (apply orb_false_elim in Hskip; destruct Hskip as [Hskip ?]).
  cbn [process_lines].
  repeat match goal with H : _ = false |- _ => rewrite H; clear H end.
  rewrite Hkw.
  destruct (SetFileReferenceFrame_false line this Hfalse) as (Hline & Hframe & Hpixel).
  pose proof (SetFileReferenceFrame_frame line this) as Hf. cbv zeta in Hf.
  destruct (SetFileReferenceFrame line this) as [[ok' line'] t].
  cbn [fst snd] in Hfalse, Hline, Hframe, Hpixel, Hf |- *. subst ok' line'.
  destruct Hf as (_ & _ & Hmap & Hregs & Herrs & _).
  eexists. split.
  - apply dropped_while_not_ok.
    revert Hrest. apply Forall_impl. intros l Hl.
    unfold IsDs9CoordSysKeyword in *. unfold add_import_error, commit. cbn [_coord_map].
    rewrite Hmap. exact Hl.
  - unfold add_import_error, commit. cbn. rewrite app_nil_r, Hregs, Herrs. auto.
Qed.

End LineFacts.

(** *** What a definition of bare numbers is imported as *)

Section ValueFacts.

Context {collab : Collaborators}.

Lemma ImportRectangleRegion_reads (this : Ds9ImportExport)
    (word tx ty tw th name : string) (vx vy vw vh : Q) (exclude_region : bool) :
  _pixel_coord this = true ->
  reads_as tx vx -> reads_as ty vy -> reads_as tw vw -> reads_as th vh ->
  ImportRectangleRegion this [word; tx; ty; tw; th] name exclude_region
  = Ok (tt, mkEmit [mkRegionState (_file_id this) name RECTANGLE
                      [set_xy vx vy; set_xy vw vh] 0] "").
Proof.
  intros Hpix Hx Hy Hw Hh. unfold ImportRectangleRegion, center_and_size.
  cbn [List.length Nat.eqb orb skipn nth].
  rewrite (param_loop_reads _ _ _ _ [tx; ty; tw; th] [vx; vy; vw; vh] 1)
    by (repeat (apply Forall2_cons; [assumption|]); apply Forall2_nil).
  cbn [bind quantities]. rewrite Hpix. reflexivity.
Qed.

(** The rotation that the importer stores for an ellipse: the angle
    written, less 90 degrees and brought up by one turn when that is
    negative; unless the two sizes were written with the same text, when the
    angle is stored as it is.  The angle read and the result of each step
    are [float]s. *)
Definition ellipse_rotation (angle : Q) (same_text : bool) : Q :=
  if same_text then to_float angle
  else if Qlt_bool (to_float (to_float angle - 90)) 0
       then to_float (to_float (to_float angle - 90) + 360)
       else to_float (to_float angle - 90).

(** X19.  In pixel mode, items that read as bare numbers are imported as
    they are written, each stored in single precision: the first two as
    the centre, the next two as the size.  A rectangle stores the angle as
    its rotation (0 without an angle).  An ellipse stores the angle less 90
    degrees, plus 360 when that is negative; when its two sizes are written
    with the same text it stores the angle itself.  A circle becomes an
    ellipse with both sizes equal to the radius and rotation 0. *)
Theorem import_box_and_ellipse_in_pixels :
  forall (this : Ds9ImportExport) (word tx ty tw th tr name : string)
         (vx vy vw vh vr : Q) (exclude_region : bool),
    _pixel_coord this = true ->
    reads_as tx vx -> reads_as ty vy -> reads_as tw vw -> reads_as th vh -> reads_as tr vr ->
    ImportRectangleRegion this [word; tx; ty; tw; th; tr] name exclude_region
    = Ok (tt, mkEmit [mkRegionState (_file_id this) name RECTANGLE
                        [set_xy vx vy; set_xy vw vh] (to_float vr)] "")
    /\ ImportRectangleRegion this [word; tx; ty; tw; th] name exclude_region
       = Ok (tt, mkEmit [mkRegionState (_file_id this) name RECTANGLE
                           [set_xy vx vy; set_xy vw vh] 0] "")
    /\ ImportEllipseRegion this [word; tx; ty; tw; th; tr] name exclude_region
       = Ok (tt, mkEmit [mkRegionState (_file_id this) name ELLIPSE
                           [set_xy vx vy; set_xy vw vh]
                           (ellipse_rotation vr (String.eqb tw th))] "")
    /\ ImportEllipseRegion this [word; tx; ty; tw; th] name exclude_region
       = Ok (tt, mkEmit [mkRegionState (_file_id this) name ELLIPSE
                           [set_xy vx vy; set_xy vw vh]
                           (ellipse_rotation 0 (String.eqb tw th))] "")
    /\ ImportCircleRegion this [word; tx; ty; tw] name exclude_region
       = Ok (tt, mkEmit [mkRegionState (_file_id this) name ELLIPSE
                           [set_xy vx vy; set_xy vw vw] 0] "").
Proof.
  intros this word tx ty tw th tr name vx vy vw vh vr ex Hpix Hx Hy Hw Hh Hr.
  split; [apply ImportRectangleRegion_reads_angle; assumption|].
  split; [apply ImportRectangleRegion_reads; assumption|].
  split; [|split].
  - rewrite (ImportEllipseRegion_reads_angle this word tx ty tw th tr name vx vy vw vh vr ex)
      by assumption.
    unfold imported_rotation, ellipse_rotation. destruct (String.eqb tw th); reflexivity.
  - rewrite (ImportEllipseRegion_reads this word tx ty tw th name vx vy vw vh ex)
      by assumption.
    unfold imported_rotation, ellipse_rotation. destruct (String.eqb tw th); reflexivity.
  - apply ImportCircleRegion_reads; assumption.
Qed.

(** X20.  In pixel mode, a point whose two items read as bare numbers is
    imported with them, stored in single precision, as its control point,
    and a polygon with one control point for every two items, in the order
    written; both with rotation 0.  A polygon without any item is imported
    as a polygon without control points. *)
Theorem import_point_and_polygon_in_pixels :
  forall (this : Ds9ImportExport) (word tx ty name : string) (ts : list string)
         (vx vy : Q) (pts : list Point) (exclude_region : bool),
    _pixel_coord this = true ->
    reads_as tx vx -> reads_as ty vy -> tx <> "point" ->
    Forall2 reads_as ts (flat_values pts) ->
    ImportPointRegion this ["point"; tx; ty] name exclude_region
    = Ok (tt, mkEmit [mkRegionState (_file_id this) name POINT [set_xy vx vy] 0] "")
    /\ ImportPolygonRegion this (word :: tx :: ty :: ts) name exclude_region
       = Ok (tt, mkEmit [mkRegionState (_file_id this) name POLYGON
                           (set_xy vx vy :: map stored_point pts) 0] "")
    /\ ImportPolygonRegion this [word] name exclude_region
       = Ok (tt, mkEmit [mkRegionState (_file_id this) name POLYGON [] 0] "").
Proof.
  intros this word tx ty name ts vx vy pts ex Hpix Hx Hy Hne Hts.
  split; [|split].
  - apply ImportPointRegion_reads; try assumption. apply String.eqb_neq. exact Hne.
  - apply (ImportPolygonRegion_reads this word name (tx :: ty :: ts) (mkPoint vx vy :: pts) ex
             Hpix).
    cbn [flat_values x y]. repeat (apply Forall2_cons; [assumption|]). exact Hts.
  - apply (ImportPolygonRegion_reads this word name [] [] ex Hpix). apply Forall2_nil.
Qed.

(** X21.  For every region word that does not hold "point", the include or
    exclude indicator before it changes nothing: the definition with [+] or
    [-] before the region word is imported exactly as the definition
    without it. *)
Theorem indicator_is_ignored_but_for_point :
  forall (this : Ds9ImportExport) (line line' : string) (c : ascii) (w : string)
         (ps : list string) (properties : list (string * string)),
    c = "+"%char \/ c = "-"%char ->
    ParseRegionParameters (_parser_delim this) line = (String c w :: ps, properties) ->
    ParseRegionParameters (_parser_delim this) line' = (w :: ps, properties) ->
    strip_indicator w = w ->
    str_find "point" w = false ->
    SetRegion this line = SetRegion this line'.
Proof.
  intros this line line' c w ps props Hc Hline Hline' Hw Hpoint.
  exact (SetRegion_indicator_ignored_unless_point this line line' c w ps props
           Hc Hline Hline' Hw Hpoint).
Qed.

(** X15.  A region definition whose region word [SetRegion] recognises
    yields, when [SetRegion] returns, either exactly one RegionState and no
    message, or no RegionState and a message; never both and never neither.
    A definition with any other region word yields nothing at all. *)
Theorem region_line_gives_region_or_message :
  forall (this : Ds9ImportExport) (region_definition p0 : string) (ps : list string)
         (properties : list (string * string)) (e : Emit),
    ParseRegionParameters (_parser_delim this) region_definition = (p0 :: ps, properties) ->
    SetRegion this region_definition = Ok (tt, e) ->
    if recognised (strip_indicator p0) then region_or_message e else silent e.
Proof.
  intros this line p0 ps props e Hparse Hset.
  exact (SetRegion_outcome this line p0 ps props tt e Hparse Hset).
Qed.

End ValueFacts.

(** *** Export *)

(** The kinds of region for which the export methods have a [case]. *)
Definition exported_kind (type : RegionType) : bool :=
  match type with
  | POINT | RECTANGLE | ELLIPSE | POLYGON => true
  | _ => false
  end.

(** How many control points [AddExportRegion (const RegionState&)] reads. *)
Definition points_read (type : RegionType) : nat :=
  match type with
  | POINT | POLYGON => 1
  | RECTANGLE | ELLIPSE => 2
  | _ => 0
  end.

(** Whether [n] quantities are enough for what the other overload reads.
    The polygon loop of [AddExportRegionPixel] takes the quantities two at a
    time; that of [AddExportRegionWorld] one at a time. *)
Definition enough_quantities (pixel_coord : bool) (type : RegionType) (n : nat) : bool :=
  match type with
  | POINT => (2 <=? n)%nat
  | RECTANGLE | ELLIPSE => (4 <=? n)%nat
  | POLYGON => if pixel_coord then (2 <=? n)%nat && Nat.even n else (1 <=? n)%nat
  | _ => true
  end.

Definition ends_with_newline (line : string) : Prop := exists body, line = body ++ nl.

Definition returns {A : Type} (r : Res A) : bool :=
  match r with Ok _ => true | _ => false end.

Definition reads_out_of_range {A : Type} (r : Res A) : bool :=
  match r with Undefined => true | _ => false end.

Section ExportFacts.

Context {collab : Collaborators}.

Lemma region_line_of_defined (rs : RegionState) :
  match region_line_of rs with
  | Ok line =>
      (points_read (type rs) <= List.length (control_points rs))%nat
      /\ (exported_kind (type rs) = true -> line <> "")
      /\ (exported_kind (type rs) = false -> line = "")
  | Undefined => (List.length (control_points rs) < points_read (type rs))%nat
  | Thrown _ => False
  end.
Proof.
  destruct rs as [fid nm ty cps rot]. unfold region_line_of.
  cbn [type control_points rotation].
  destruct ty; cbn [points_read exported_kind].
  - destruct cps as [|p0 cps]; cbn [List.length]; [lia|].
    split; [lia|]. split; [discriminate|discriminate].
  - split; [lia|]. split; [discriminate|reflexivity].
  - split; [lia|]. split; [discriminate|reflexivity].
  - destruct cps as [|p0 [|p1 cps]]; cbn [List.length]; [lia|lia|].
    split; [lia|]. split; [discriminate|discriminate].
  - destruct cps as [|p0 [|p1 cps]]; cbn [List.length]; [lia|lia|].
    destruct (Qeq_bool _ _); [|destruct (Qlt_bool _ _)];
      (split; [lia|]; split; [discriminate|discriminate]).
  - split; [lia|]. split; [discriminate|reflexivity].
  - destruct cps as [|p0 cps]; cbn [List.length]; [lia|].
    split; [lia|]. split; [discriminate|discriminate].
Qed.

Lemma value_at_defined (control_points : list Quantity) (i : nat) :
  match value_at control_points i with
  | Ok _ => (i < List.length control_points)%nat
  | Undefined => (List.length control_points <= i)%nat
  | Thrown _ => False
  end.
Proof.
  unfold value_at. destruct (nth_error control_points i) as [q|] eqn:E.
  - apply nth_error_Some. congruence.
  - apply nth_error_None. exact E.
Qed.

Lemma polygon_pairs_defined (n : nat) :
  forall (control_points : list Quantity),
    (List.length control_points <= n)%nat ->
    match polygon_pairs control_points with
    | Ok _ => Nat.even (List.length control_points) = true
    | Undefined => Nat.even (List.length control_points) = false
    | Thrown _ => False
    end.
Proof.
  induction n as [|n IH]; intros cps Hlen.
  - destruct cps; [reflexivity|simpl in Hlen; lia].
  - destruct cps as [|q0 [|q1 rest]]; cbn [polygon_pairs]; [reflexivity|reflexivity|].
    assert (Hrest : (List.length rest <= n)%nat) by (simpl in Hlen; lia).
    specialize (IH rest Hrest). cbn [List.length]. rewrite Nat.even_succ_succ.
    destruct (polygon_pairs rest); exact IH.
Qed.

Lemma AddExportRegionPixel_defined (type : RegionType) (control_points : list Quantity)
    (angle : Q) :
  match AddExportRegionPixel type control_points angle with
  | Ok region =>
      enough_quantities true type (List.length control_points) = true
      /\ (exported_kind type = true -> region <> "")
      /\ (exported_kind type = false -> region = "")
  | Undefined => enough_quantities true type (List.length control_points) = false
  | Thrown _ => False
  end.
Proof.
  unfold AddExportRegionPixel.
  destruct type; cbn [enough_quantities exported_kind];
    try (split; [reflexivity|split; [discriminate|reflexivity]]).
  - destruct control_points as [|q0 [|q1 rest]]; cbn; try reflexivity.
    split; [reflexivity|split; [discriminate|discriminate]].
  - destruct control_points as [|q0 [|q1 [|q2 [|q3 rest]]]]; cbn; try reflexivity.
    split; [reflexivity|split; [discriminate|discriminate]].
  - destruct control_points as [|q0 [|q1 [|q2 [|q3 rest]]]]; cbn; try reflexivity.
    destruct (Qeq_bool _ _); [|destruct (Qeq_bool _ _)];
      (split; [reflexivity|split; [discriminate|discriminate]]).
  - destruct control_points as [|q0 [|q1 rest]]; try reflexivity.
    cbn [value_at nth_error Res_bind skipn List.length Nat.leb andb].
    rewrite Nat.even_succ_succ.
    pose proof (polygon_pairs_defined (List.length rest) rest (Nat.le_refl _)) as H.
    destruct (polygon_pairs rest); cbn [Res_bind]; [|exact H|exact H].
    split; [exact H|split; [discriminate|discriminate]].
Qed.

Lemma AddExportRegionWorld_defined (this : Ds9ImportExport) (type : RegionType)
    (control_points : list Quantity) (angle : Q) :
  match AddExportRegionWorld this type control_points angle with
  | Ok region =>
      enough_quantities false type (List.length control_points) = true
      /\ (exported_kind type = true -> region <> "")
      /\ (exported_kind type = false -> region = "")
  | Undefined => enough_quantities false type (List.length control_points) = false
  | Thrown _ => False
  end.
Proof.
  unfold AddExportRegionWorld.
  destruct type; cbn [enough_quantities exported_kind];
    try (split; [reflexivity|split; [discriminate|reflexivity]]).
  - destruct control_points as [|q0 [|q1 rest]]; cbn; try reflexivity.
    split; [reflexivity|split; [discriminate|discriminate]].
  - destruct control_points as [|q0 [|q1 [|q2 [|q3 rest]]]]; cbn; try reflexivity.
    split; [reflexivity|split; [discriminate|discriminate]].
  - destruct control_points as [|q0 [|q1 [|q2 [|q3 rest]]]]; cbn; try reflexivity.
    destruct (Qeq_bool _ _);
      (split; [reflexivity|split; [discriminate|discriminate]]).
  - destruct control_points as [|q0 rest]; cbn; try reflexivity.
    split; [reflexivity|split; [discriminate|discriminate]].
Qed.

(** X25.  [AddExportRegion (const RegionState&)] reads [points] out of range
    exactly when the region has fewer control points than its kind needs
    (one for a point or polygon, two for a rectangle or ellipse).  The
    overload that takes quantities reads [control_points] out of range
    exactly when there are fewer than two for a point or four for a
    rectangle or ellipse; for a polygon in pixel mode when there are fewer
    than two or an odd number (the loop reads them two at a time), in world
    mode when there is none.  In every other case the call returns; no
    exception leaves it. *)
Theorem export_reads_out_of_range_iff :
  forall (region_state : RegionState) (name : string) (type : RegionType)
         (control_points : list Quantity) (rotation : Quantity) (this : Ds9ImportExport),
    (reads_out_of_range (AddExportRegion region_state this)
     = (List.length (Ds9.control_points region_state) <? points_read (Ds9.type region_state))%nat
     /\ returns (AddExportRegion region_state this)
        = negb (reads_out_of_range (AddExportRegion region_state this)))
    /\ (reads_out_of_range (AddExportRegion_Quantity name type control_points rotation this)
        = negb (enough_quantities (_pixel_coord this) type (List.length control_points))
        /\ returns (AddExportRegion_Quantity name type control_points rotation this)
           = negb (reads_out_of_range
                     (AddExportRegion_Quantity name type control_points rotation this))).
Proof.
  intros rs name type cps rot this. split.
  - unfold AddExportRegion. pose proof (region_line_of_defined rs) as H.
    destruct (region_line_of rs) as [line| |w]; cbn [Res_bind reads_out_of_range returns negb];
      [|split; [|reflexivity]|contradiction].
    + split; [|reflexivity]. symmetry. apply Nat.ltb_ge. exact (proj1 H).
    + symmetry. apply Nat.ltb_lt. exact H.
  - unfold AddExportRegion_Quantity.
    destruct (_pixel_coord this).
    + pose proof (AddExportRegionPixel_defined type cps
                    (to_float (getValue (Quantity_get rot "deg")))) as H.
      destruct (AddExportRegionPixel _ _ _) as [line| |w];
        cbn [Res_bind reads_out_of_range returns negb]; [|split; [|reflexivity]|contradiction].
      * rewrite (proj1 H). split; reflexivity.
      * rewrite H. reflexivity.
    + pose proof (AddExportRegionWorld_defined this type cps
                    (to_float (getValue (Quantity_get rot "deg")))) as H.
      destruct (AddExportRegionWorld _ _ _ _) as [line| |w];
        cbn [Res_bind reads_out_of_range returns negb]; [|split; [|reflexivity]|contradiction].
      * rewrite (proj1 H). split; reflexivity.
      * rewrite H. reflexivity.
Qed.

(** X24.  For a kind of region without a [case] in the export methods (line,
    polyline, annulus), both overloads of [AddExportRegion] return [false]
    and add nothing when the region has no name; when it has one they
    return [true] and add a line that holds the [text] property alone. *)
Theorem export_of_other_kinds :
  forall (region_state : RegionState) (name : string) (type : RegionType)
         (control_points : list Quantity) (rotation : Quantity) (this : Ds9ImportExport),
    exported_kind (Ds9.type region_state) = false ->
    exported_kind type = false ->
    AddExportRegion region_state this
    = Ok (if is_empty (Ds9.name region_state) then (false, this)
          else (true, push_export (" # text={" ++ Ds9.name region_state ++ "}" ++ nl) this))
    /\ AddExportRegion_Quantity name type control_points rotation this
       = Ok (if is_empty name then (false, this)
             else (true, push_export (" # text={" ++ name ++ "}" ++ nl) this)).
Proof.
  intros rs name type cps rot this Hk1 Hk2. split.
  - unfold AddExportRegion. pose proof (region_line_of_defined rs) as H.
    destruct (region_line_of rs) as [line| |w]; [| |contradiction].
    + destruct H as (_ & _ & H). rewrite (H Hk1). cbn [Res_bind]. unfold finish_export_line.
      destruct (Ds9.name rs) as [|a s]; [reflexivity|].
      cbn [is_empty negb append]. rewrite append_assoc. reflexivity.
    + exfalso. destruct (Ds9.type rs); cbn in H, Hk1; try lia; discriminate.
  - unfold AddExportRegion_Quantity.
    assert (E : (if _pixel_coord this
                 then AddExportRegionPixel type cps
                        (to_float (getValue (Quantity_get rot "deg")))
                 else AddExportRegionWorld this type cps
                        (to_float (getValue (Quantity_get rot "deg"))))
                = Ok "").
    { destruct type; try discriminate Hk2; destruct (_pixel_coord this); reflexivity. }
    rewrite E. cbn [Res_bind]. unfold finish_export_line.
    destruct name as [|a s]; [reflexivity|].
    cbn [is_empty negb append]. rewrite append_assoc. reflexivity.
Qed.

Lemma finish_export_line_cases (region_line name : string) (this : Ds9ImportExport) :
  finish_export_line region_line name this = (false, this)
  \/ exists body, finish_export_line region_line name this
                  = (true, push_export (body ++ nl) this).
Proof.
  unfold finish_export_line.
  destruct (negb (is_empty _)); [right; eexists; reflexivity|left; reflexivity].
Qed.

Definition push_all (lines : list string) (this : Ds9ImportExport) : Ds9ImportExport :=
  fold_left (fun t line => push_export line t) lines this.

Lemma export_call_adds (c : ExportCall) (this this' : Ds9ImportExport) (b : bool) :
  export_call this c = Ok (b, this') ->
  exists added,
    this' = push_all added this /\ (List.length added <= 1)%nat
    /\ Forall ends_with_newline added.
Proof.
  assert (H : forall rl nm,
             finish_export_line rl nm this = (b, this') ->
             exists added,
               this' = push_all added this /\ (List.length added <= 1)%nat
               /\ Forall ends_with_newline added).
  { intros rl nm E. destruct (finish_export_line_cases rl nm this) as [E'|[body E']];
      rewrite E' in E; injection E as <- <-.
    - exists []. repeat split; [cbn; lia|constructor].
    - exists [body ++ nl]. repeat split; [cbn; lia|].
      constructor; [exists body; reflexivity|constructor]. }
  destruct c as [rs | nm ty cps rot]; cbn [export_call].
  - unfold AddExportRegion, Res_bind.
    destruct (region_line_of rs) as [l| |w]; try discriminate.
    intros E. injection E as E. exact (H _ _ E).
  - unfold AddExportRegion_Quantity, Res_bind.
    match goal with |- match ?r with _ => _ end = _ -> _ => destruct r as [l| |w] end;
      try discriminate.
    intros E. injection E as E. exact (H _ _ E).
Qed.

Lemma push_all_app (a b : list string) (this : Ds9ImportExport) :
  push_all b (push_all a this) = push_all (a ++ b) this.
Proof. unfold push_all. rewrite fold_left_app. reflexivity. Qed.

Lemma push_all_export_regions (lines : list string) :
  forall (this : Ds9ImportExport),
    _export_regions (push_all lines this) = (_export_regions this ++ lines)%list.
Proof.
  induction lines as [|l ls IH]; intros this; cbn [push_all fold_left].
  - rewrite app_nil_r. reflexivity.
  - fold (push_all ls (push_export l this)). rewrite IH. cbn [push_export _export_regions].
    rewrite <- app_assoc. reflexivity.
Qed.

Lemma export_calls_add (cs : list ExportCall) :
  forall (this this' : Ds9ImportExport),
    export_calls this cs = Ok this' ->
    exists added,
      this' = push_all added this /\ (List.length added <= List.length cs)%nat
      /\ Forall ends_with_newline added.
Proof.
  induction cs as [|c cs IH]; intros this this'; cbn [export_calls].
  - intros E. injection E as <-. exists []. repeat split; [cbn; lia|constructor].
  - unfold Res_bind. destruct (export_call this c) as [[b t]| |w] eqn:Ec; try discriminate.
    cbn [snd]. intros E. apply IH in E. destruct E as (a2 & -> & Hl2 & Hn2).
    apply export_call_adds in Ec. destruct Ec as (a1 & -> & Hl1 & Hn1).
    exists (a1 ++ a2)%list. rewrite push_all_app. split; [reflexivity|].
    split; [rewrite length_app; cbn [List.length]; lia|apply Forall_app; auto].
Qed.

(** X23.  Whatever is exported after construction, the export lines are the
    two header lines, of which the first starts with "# Region file format:
    DS9 CARTA ", followed by at most one line for each call of
    [AddExportRegion]; the calls only append, and every line ends with a
    line feed. *)
Theorem exported_lines_after_header :
  forall (file_id : Z) (pixel_coord : bool) (calls : list ExportCall)
         (this : Ds9ImportExport),
    export_calls (new_export file_id pixel_coord) calls = Ok this ->
    exists header csys added,
      _export_regions (new_export file_id pixel_coord) = [header; csys]
      /\ String.prefix "# Region file format: DS9 CARTA " header = true
      /\ this = push_all added (new_export file_id pixel_coord)
      /\ _export_regions this = header :: csys :: added
      /\ Forall ends_with_newline (header :: csys :: added)
      /\ (List.length added <= List.length calls)%nat.
Proof.
  intros fid pc calls this E. apply export_calls_add in E.
  destruct E as (added & -> & Hlen & Hnl).
  unfold new_export, AddHeader.
  match goal with
  | |- context [push_export ?c (push_export ?h ?t)] =>
      exists h, c, added; set (t0 := t)
  end.
  assert (Hreg : _export_regions t0 = []).
  { unfold t0. destruct pc; [reflexivity|].
    cbv zeta.
    repeat match goal with |- context [if ?c then _ else _] => destruct c end;
      try reflexivity;
      destruct (find _ _); reflexivity. }
  split; [cbn [push_export _export_regions]; rewrite Hreg; reflexivity|].
  split; [simpl; match goal with |- String.prefix "" ?s = true => destruct s; reflexivity end|].
  split; [reflexivity|].
  split; [rewrite push_all_export_regions; cbn [push_export _export_regions];
          rewrite Hreg; reflexivity|].
  split; [|exact Hlen].
  constructor; [eexists; rewrite <- !append_assoc; reflexivity|].
  constructor; [|exact Hnl].
  cbn [push_export _file_ref_frame].
  destruct (is_empty _); eexists; reflexivity.
Qed.

End ExportFacts.

(** *** The tables of frames and units *)

(** The DS9 name under which the exporting constructor writes a casacore
    direction frame; the empty name stands for image coordinates. *)
Definition ds9_frame_of (image_ref_frame : string) : string :=
  if String.eqb image_ref_frame "B1950" then "fk4"
  else if String.eqb image_ref_frame "J2000" then "fk5"
  else if String.eqb image_ref_frame "GALACTIC" then "galactic"
  else if String.eqb image_ref_frame "ECLIPTIC" then "ecliptic"
  else if String.eqb image_ref_frame "ICRS" then "icrs"
  else "".

(** The casacore unit that [CheckAndConvertParameter] writes for a DS9 unit
    character ([Some ""]: the character is valid and is left in place). *)
Definition casacore_unit_of (unit : ascii) : option string :=
  if Ascii.eqb unit "d" then Some "deg"
  else if Ascii.eqb unit "r" then Some "rad"
  else if Ascii.eqb unit "p" then Some "pixel"
  else if Ascii.eqb unit "i" then Some "pixel"
  else if Ascii.eqb unit dquote_char || Ascii.eqb unit squote_char then Some ""
  else None.

Lemma pop_back_append_char (s : string) (c : ascii) : pop_back (s ++ String c "") = s.
Proof.
  induction s as [|d s IH]; [reflexivity|].
  cbn [append pop_back]. rewrite IH. destruct (s ++ String c "") eqn:E; [|reflexivity].
  destruct s; discriminate E.
Qed.

Section TableFacts.

Context {collab : Collaborators}.

(** X10.  A parameter that is a number followed by one more character (the
    number being what [std::stod] converts) is valid exactly for the DS9
    unit characters [d], [r], [p], [i], the double and the single quote.
    [d] is replaced by "deg", [r] by "rad", [p] and [i] by "pixel"; the two
    quotes are left in place.  For any other character the parameter is
    left as it is and the message "<region> invalid parameter unit:
    <parameter>." is appended. *)
Theorem CheckAndConvertParameter_unit_character :
  forall (number : string) (unit : ascii) (region_type : string),
    stod (number ++ String unit "") = StodIdx (String.length number) ->
    CheckAndConvertParameter (number ++ String unit "") region_type
    = match casacore_unit_of unit with
      | Some casacore_unit =>
          Ok ((true,
               if is_empty casacore_unit then number ++ String unit ""
               else number ++ casacore_unit),
              mkEmit [] "")
      | None =>
          Ok ((false, number ++ String unit ""),
              mkEmit [] (region_type ++ " invalid parameter " ++ "unit: "
                         ++ (number ++ String unit "") ++ "." ++ nl))
      end.
Proof.
  intros number unit rt Hstod. unfold CheckAndConvertParameter. rewrite Hstod.
  rewrite length_append. cbn [String.length].
  assert (E1 : (String.length number + 1 =? String.length number)%nat = false)
    by (apply Nat.eqb_neq; lia).
  rewrite E1, Nat.eqb_refl, back_append_char, pop_back_append_char.
  unfold casacore_unit_of.
  destruct (Ascii.eqb unit "d"); [reflexivity|].
  destruct (Ascii.eqb unit "r"); [reflexivity|].
  destruct (Ascii.eqb unit "p"); [reflexivity|].
  destruct (Ascii.eqb unit "i"); [reflexivity|].
  destruct (Ascii.eqb unit dquote_char || Ascii.eqb unit squote_char); [reflexivity|].
  cbn [bind append_error ret new_regions new_errors app is_empty].
  rewrite append_nil_r, !append_assoc. reflexivity.
Qed.

(** X22.  The exporting constructor for pixel coordinates writes the
    coordinate line "physical".  For world coordinates it writes the DS9
    name of the image's direction frame: fk4 for B1950, fk5 for J2000,
    galactic, ecliptic and icrs for the frames of these names; for any other
    frame it leaves the file frame empty and writes "image".  (The frame is
    taken to be neither empty nor "UNSUPPORTED", for which the result
    depends on the order of the map's entries.) *)
Theorem new_export_frame :
  forall (file_id : Z),
    image_reference_frame <> "" ->
    image_reference_frame <> "UNSUPPORTED" ->
    (_file_ref_frame (new_export file_id true) = "physical"
     /\ _pixel_coord (new_export file_id true) = true
     /\ nth 1 (_export_regions (new_export file_id true)) "" = "physical" ++ nl)
    /\ (_file_ref_frame (new_export file_id false) = ds9_frame_of image_reference_frame
        /\ _pixel_coord (new_export file_id false) = false
        /\ nth 1 (_export_regions (new_export file_id false)) ""
           = (if is_empty (ds9_frame_of image_reference_frame) then "image"
              else ds9_frame_of image_reference_frame) ++ nl).
Proof.
  intros fid Hne Hun. split; [repeat split|].
  unfold new_export, AddHeader, ds9_frame_of. cbv zeta.
  set (t := InitDs9CoordMap
              (SetImageReferenceFrame (set_pixel_coord false (RegionImportExport_init fid)))).
  change (_image_ref_frame t) with image_reference_frame.
  change (_coord_map t)
    with [("physical", ""); ("image", ""); ("b1950", "B1950"); ("fk4", "B1950");
          ("j2000", "J2000"); ("fk5", "J2000"); ("galactic", "GALACTIC");
          ("ecliptic", "ECLIPTIC"); ("icrs", "ICRS"); ("wcs", "UNSUPPORTED");
          ("wcsa", "UNSUPPORTED"); ("linear", "UNSUPPORTED")].
  assert (Ht : _file_ref_frame t = "" /\ _pixel_coord t = false /\ _export_regions t = []
               /\ _image_ref_frame t = image_reference_frame)
    by (repeat split).
  clearbody t. destruct Ht as (Hf & Hp & He & Hi).
  remember image_reference_frame as f eqn:Ef. clear Ef.
  change (_image_ref_frame t) with (_image_ref_frame t) in Hi.
  apply String.eqb_neq in Hne. apply String.eqb_neq in Hun.
  rewrite String.eqb_sym in Hne. rewrite String.eqb_sym in Hun.
  cbn [find snd fst]. rewrite Hne, Hun.
  rewrite (String.eqb_sym "B1950" f), (String.eqb_sym "J2000" f),
    (String.eqb_sym "GALACTIC" f), (String.eqb_sym "ECLIPTIC" f), (String.eqb_sym "ICRS" f).
  destruct t as [fid' delim iframe fframe pix cmap regs errs exps].
  cbn [_file_ref_frame _pixel_coord _export_regions _image_ref_frame] in Hf, Hp, He, Hi.
  subst fframe pix exps iframe.
  destruct (String.eqb_spec f "B1950") as [->|H1]; [repeat split|].
  destruct (String.eqb_spec f "J2000") as [->|H2]; [repeat split|].
  destruct (String.eqb_spec f "GALACTIC") as [->|H3]; [repeat split|].
  destruct (String.eqb_spec f "ECLIPTIC") as [->|H4]; [repeat split|].
  destruct (String.eqb_spec f "ICRS") as [->|H5]; [repeat split|].
  apply String.eqb_neq in H1, H2.
  cbn [find snd fst]. rewrite ?Hne, ?Hun, ?H1, ?H2.
  cbn [set_file_ref_frame _image_ref_frame]. rewrite ?H1, ?H2.
  repeat split.
Qed.

End TableFacts.

(** *** The rotation of a rectangle *)

Section PlainFacts.

Import Ds9.Plain.

(** X26.  The rotation of a rectangle comes back from the exported line as
    it was: unlike for an ellipse, no offset is applied on either side, and
    negative rotations are written too.  The importer stores what it reads
    in a [float]: the rotation comes back as its single-precision value,
    which is the rotation itself when that is a single-precision value, as
    the field of a RegionState holds it.  The rotation has a finite decimal
    expansion, as every binary float has. *)
Theorem rectangle_rotation_round_trip :
  forall (rs : RegionState) (p s : Point) (exporter importer : Ds9ImportExport),
    type rs = RECTANGLE -> control_points rs = [p; s] ->
    finite_decimal (rotation rs) ->
    _parser_delim importer = " ,()#" -> _pixel_coord importer = true ->
    exists line rs',
      AddExportRegion rs exporter = Ok (true, push_export (line ++ nl) exporter)
      /\ SetRegion importer line = Ok (tt, mkEmit [rs'] "")
      /\ type rs' = RECTANGLE
      /\ (rotation rs' == to_float (rotation rs))%Q
      /\ (is_float (rotation rs) = true -> (rotation rs' == rotation rs)%Q).
Proof.
  intros [fid nm ty cps rot] p s exporter importer Hty Hcps Hfin Hdelim Hpix.
  cbn [type control_points rotation] in *. subst ty cps.
  destruct (import_box 2 importer p s rot nm Hdelim Hpix) as (rs' & Hset & Hty' & _ & Hrot).
  eexists. exists rs'. split; [|split; [exact Hset|split; [exact Hty'|]]].
  - apply AddExportRegion_line; [reflexivity|discriminate].
  - rewrite Hrot. pose proof (to_float_comp _ _ (parsed_exact rot Hfin)) as Hback.
    split; [exact Hback|]. intros Hfl.
    apply (Qeq_trans _ _ _ Hback). apply is_float_fixes. exact Hfl.
Qed.

End PlainFacts.

(** *** A file written by the exporter, read by the importer *)

Lemma prefix_nil (s : string) : String.prefix "" s = true.
Proof. destruct s; reflexivity. Qed.

Lemma prefix_absent (c : ascii) :
  forall (s1 needle s2 : string),
    mem_char c needle = false ->
    String.prefix needle (s1 ++ String c s2) = String.prefix needle s1.
Proof.
  induction s1 as [|b s1 IH]; intros needle s2 Hc.
  - destruct needle as [|a n']; [reflexivity|].
    cbn [mem_char] in Hc. apply orb_false_elim in Hc. destruct Hc as [Hca _].
    cbn [append String.prefix]. destruct (ascii_dec a c) as [->|Hne]; [|reflexivity].
    rewrite Ascii.eqb_refl in Hca. discriminate Hca.
  - destruct needle as [|a n']; [reflexivity|].
    cbn [mem_char] in Hc. apply orb_false_elim in Hc. destruct Hc as [_ Hn].
    cbn [append String.prefix]. destruct (ascii_dec a b); [|reflexivity].
    apply IH. exact Hn.
Qed.

Lemma str_find_eq (needle hay : string) :
  str_find needle hay
  = String.prefix needle hay
    || match hay with EmptyString => false | String _ t => str_find needle t end.
Proof. destruct hay; reflexivity. Qed.

(** A needle that does not hold [c] is found in [s1 c s2] within [s1] or
    within [s2]. *)
Lemma str_find_sep (c : ascii) (needle : string) :
  mem_char c needle = false ->
  forall (s1 s2 : string),
    str_find needle (s1 ++ String c s2) = str_find needle s1 || str_find needle s2.
Proof.
  intros Hc. induction s1 as [|b s1 IH]; intros s2.
  - cbn [append]. rewrite (str_find_eq needle (String c s2)), (str_find_eq needle "").
    change (String c s2) with ("" ++ String c s2) at 1.
    rewrite (prefix_absent c "" needle s2 Hc), orb_false_r. reflexivity.
  - cbn [append]. rewrite (str_find_eq needle (String b _)), (str_find_eq needle (String b s1)).
    change (String b (s1 ++ String c s2)) with (String b s1 ++ String c s2) at 1.
    rewrite (prefix_absent c (String b s1) needle s2 Hc), IH, orb_assoc. reflexivity.
Qed.

Lemma prefix_mem (c : ascii) :
  forall (hay needle : string),
    String.prefix needle hay = true -> mem_char c needle = true -> mem_char c hay = true.
Proof.
  induction hay as [|b hay IH]; intros needle Hp Hc.
  - destruct needle; [discriminate Hc|discriminate Hp].
  - destruct needle as [|a n']; [discriminate Hc|].
    cbn [String.prefix] in Hp. destruct (ascii_dec a b) as [->|]; [|discriminate Hp].
    cbn [mem_char] in Hc |- *. destruct (Ascii.eqb c b); [reflexivity|]. cbn [orb] in *.
    exact (IH n' Hp Hc).
Qed.

(** A needle that holds [c] is not found where [c] does not occur. *)
Lemma str_find_absent (c : ascii) (needle : string) :
  mem_char c needle = true ->
  forall (hay : string), mem_char c hay = false -> str_find needle hay = false.
Proof.
  intros Hc. induction hay as [|b hay IH]; intros Hh.
  - rewrite str_find_eq, orb_false_r.
    destruct (String.prefix needle "") eqn:Hp; [|reflexivity].
    rewrite (prefix_mem c "" needle Hp Hc) in Hh. discriminate Hh.
  - rewrite str_find_eq.
    destruct (String.prefix needle (String b hay)) eqn:Hp.
    + rewrite (prefix_mem c _ needle Hp Hc) in Hh. discriminate Hh.
    + cbn [orb]. apply IH. cbn [mem_char] in Hh. apply orb_false_elim in Hh. exact (proj2 Hh).
Qed.

Lemma mem_char_forall (c : ascii) (P : ascii -> bool) (s : string) :
  P c = false -> str_forall P s = true -> mem_char c s = false.
Proof.
  intros Hc. induction s as [|d s IH]; [reflexivity|].
  cbn [str_forall mem_char]. intros H. apply andb_prop in H. destruct H as [Hd Hs].
  rewrite (IH Hs), orb_false_r. destruct (Ascii.eqb_spec c d) as [->|]; [congruence|reflexivity].
Qed.

Lemma append_inj_r (t : string) :
  forall (s1 s2 : string), s1 ++ t = s2 ++ t -> s1 = s2.
Proof.
  induction s1 as [|a s1 IH]; intros s2 E.
  - destruct s2 as [|b s2]; [reflexivity|].
    apply (f_equal String.length) in E. cbn [append String.length] in E.
    rewrite length_append in E. lia.
  - destruct s2 as [|b s2].
    + apply (f_equal String.length) in E. cbn [append String.length] in E.
      rewrite length_append in E. lia.
    + cbn [append] in E. injection E as -> E. rewrite (IH s2 E). reflexivity.
Qed.

Section FileFacts.

Import Ds9.Plain.

Definition line_feed : ascii := ascii_of_nat 10.

(** The characters that end a line for [ReadRegionFile] as the importing
    constructor calls it. *)
Definition line_end (c : ascii) : bool := Ascii.eqb c line_feed || Ascii.eqb c ";".

(** The characters of which the exporter makes the text of a region. *)
Definition region_char (c : ascii) : bool := num_char c || mem_char c "pointbxcrlesyg, ()".

(** A name that comes back from a file: it holds no line end and no closing
    brace, and not the word that makes [ProcessFileLines] skip a line. *)
Definition name_char (c : ascii) : bool := negb (line_end c) && negb (Ascii.eqb c "}").

Definition name_ok (name : string) : Prop :=
  str_forall name_char name = true /\ str_find "global" name = false.

Lemma region_char_props (c : ascii) :
  region_char c = true ->
  Ascii.eqb c "#" = false /\ Ascii.eqb "a" c = false /\ line_end c = false.
Proof.
  destruct c as [[] [] [] [] [] [] [] []]; vm_compute; intros H; try discriminate H;
    repeat split.
Qed.

Lemma name_char_props (c : ascii) :
  name_char c = true -> line_end c = false /\ Ascii.eqb c "}" = false.
Proof.
  unfold name_char. intros H. apply andb_prop in H. destruct H as [H1 H2].
  apply negb_true_iff in H1. apply negb_true_iff in H2. auto.
Qed.

Lemma fmt_fixed_region_chars (n : nat) (v : Q) : str_forall region_char (fmt_fixed n v) = true.
Proof.
  apply (str_forall_impl num_char); [|apply fmt_fixed_chars].
  intros c Hc. unfold region_char. rewrite Hc. reflexivity.
Qed.

Lemma polygon_rest_chars (rest : list Point) :
  str_forall region_char
    (String.concat ""
       (map (fun p => "," ++ fmt_fixed 2 (x p) ++ "," ++ fmt_fixed 2 (y p)) rest)) = true.
Proof.
  induction rest as [|p rest IH]; [reflexivity|].
  cbn [map]. rewrite concat_cons, !str_forall_append, !fmt_fixed_region_chars, IH. reflexivity.
Qed.

(** The region words that the exporter writes, each with its bracket. *)
Definition region_words : list string := ["point("; "box("; "circle("; "ellipse("; "polygon("].

Lemma exportable_line (rs : RegionState) :
  exportable rs ->
  exists word rest,
    In word region_words
    /\ region_line_of rs = Ok (word ++ rest)
    /\ str_forall region_char rest = true.
Proof.
  destruct rs as [fid nm ty cps rot]. unfold exportable, region_line_of, region_words.
  cbn [type control_points rotation].
  destruct ty; try contradiction.
  - destruct cps as [|p [|p' cps]]; try discriminate.
    intros _. exists "point(". eexists. split; [cbn; auto|]. split; [reflexivity|].
    rewrite !str_forall_append, !fmt_fixed_region_chars. reflexivity.
  - destruct cps as [|p [|s [|p' cps]]]; try discriminate.
    intros _. exists "box(". eexists. split; [cbn; auto|]. split; [reflexivity|].
    rewrite fmt_general_eq, !str_forall_append, !fmt_fixed_region_chars. reflexivity.
  - destruct cps as [|p [|s [|p' cps]]]; try discriminate.
    intros _. destruct (Qeq_bool (x s) (y s)); [|destruct (Qlt_bool 0 _)].
    + exists "circle(". eexists. split; [cbn; auto|]. split; [reflexivity|].
      rewrite !str_forall_append, !fmt_fixed_region_chars. reflexivity.
    + exists "ellipse(". eexists. split; [cbn; auto 6|]. split; [reflexivity|].
      rewrite fmt_general_eq, !str_forall_append, !fmt_fixed_region_chars. reflexivity.
    + exists "ellipse(". eexists. split; [cbn; auto 6|]. split; [reflexivity|].
      rewrite !str_forall_append, !fmt_fixed_region_chars. reflexivity.
  - destruct cps as [|p rest]; [cbn; lia|].
    intros _. exists "polygon(". eexists. split; [cbn; auto 7|]. split; [reflexivity|].
    rewrite !str_forall_append, !fmt_fixed_region_chars, polygon_rest_chars. reflexivity.
Qed.

(** The line that [AddExportRegion] writes for a region, without its line
    end. *)
Definition export_line (rs : RegionState) : string :=
  match region_line_of rs with
  | Ok region => region ++ comment_of (name rs)
  | _ => ""
  end.

Lemma region_word_nonempty (word rest : string) : In word region_words -> word ++ rest <> "".
Proof.
  unfold region_words. cbn [In].
  intros [<-|[<-|[<-|[<-|[<-|[]]]]]]; discriminate.
Qed.

Lemma AddExportRegion_export_line (rs : RegionState) (exporter : Ds9ImportExport) :
  exportable rs ->
  AddExportRegion rs exporter = Ok (true, push_export (export_line rs ++ nl) exporter).
Proof.
  intros H. destruct (exportable_line rs H) as (w & rest & Hin & Hline & _).
  unfold export_line. rewrite Hline.
  apply AddExportRegion_line; [exact Hline|apply region_word_nonempty; exact Hin].
Qed.

Lemma export_line_import (rs : RegionState) (importer : Ds9ImportExport) :
  exportable rs -> Forall float_point (control_points rs) ->
  _parser_delim importer = " ,()#" -> _pixel_coord importer = true ->
  exists rs',
    SetRegion importer (export_line rs) = Ok (tt, mkEmit [rs'] "")
    /\ type rs' = type rs
    /\ Forall2 (within (1 # 100)) (control_points rs') (control_points rs).
Proof.
  intros Hexp Hfl Hdelim Hpix.
  destruct (state_export_then_import rs importer importer Hexp Hfl Hdelim Hpix)
    as (line & rs' & Hadd & Hset & Hty & Hcps).
  rewrite (AddExportRegion_export_line rs importer Hexp) in Hadd.
  injection Hadd as Hadd. apply app_inv_head in Hadd.
  injection Hadd as Hadd. apply append_inj_r in Hadd. subst line.
  exists rs'. auto.
Qed.

Lemma comment_no_line_end (name : string) :
  str_forall name_char name = true ->
  str_forall (fun c => negb (line_end c)) (comment_of name) = true.
Proof.
  intros Hn. unfold comment_of. destruct (negb (is_empty name)); [|reflexivity].
  rewrite !str_forall_append.
  rewrite (str_forall_impl name_char (fun c => negb (line_end c)) name); [reflexivity| |exact Hn].
  intros c Hc. rewrite (proj1 (name_char_props c Hc)). reflexivity.
Qed.

Lemma export_line_no_line_end (rs : RegionState) :
  exportable rs -> name_ok (name rs) ->
  str_forall (fun c => negb (line_end c)) (export_line rs) = true.
Proof.
  intros Hexp [Hn _]. destruct (exportable_line rs Hexp) as (w & rest & Hin & Hline & Hchars).
  unfold export_line. rewrite Hline, !str_forall_append, (comment_no_line_end _ Hn).
  rewrite (str_forall_impl region_char (fun c => negb (line_end c)) rest);
    [|intros c Hc; destruct (region_char_props c Hc) as (_ & _ & ->); reflexivity|exact Hchars].
  unfold region_words in Hin. cbn [In] in Hin.
  destruct Hin as [<-|[<-|[<-|[<-|[<-|[]]]]]]; reflexivity.
Qed.

Lemma no_global_in_region (word rest tail : string) :
  In word region_words -> str_forall region_char rest = true ->
  mem_char "a" tail = false ->
  str_find "global" ((word ++ rest) ++ tail) = false.
Proof.
  intros Hin Hrest Htail. apply (str_find_absent "a"); [reflexivity|].
  assert (Happ : forall a b, mem_char "a" a = false -> mem_char "a" b = false ->
                             mem_char "a" (a ++ b) = false).
  { induction a as [|c a IH]; intros b Ha Hb; [exact Hb|].
    cbn [append mem_char] in *. apply orb_false_elim in Ha. destruct Ha as [-> Ha].
    exact (IH b Ha Hb). }
  apply Happ; [apply Happ|exact Htail].
  - unfold region_words in Hin. cbn [In] in Hin.
    destruct Hin as [<-|[<-|[<-|[<-|[<-|[]]]]]]; reflexivity.
  - apply (mem_char_forall "a" region_char); [reflexivity|exact Hrest].
Qed.

Lemma export_line_no_global (rs : RegionState) :
  exportable rs -> name_ok (name rs) -> str_find "global" (export_line rs) = false.
Proof.
  intros Hexp [Hn Hg]. destruct (exportable_line rs Hexp) as (w & rest & Hin & Hline & Hchars).
  unfold export_line. rewrite Hline. unfold comment_of.
  destruct (name rs) as [|c nm] eqn:Ename; cbn [is_empty negb].
  - apply no_global_in_region; auto.
  - replace ((w ++ rest) ++ " # text={" ++ String c nm ++ "}")
      with (((w ++ rest) ++ " # text=") ++ String "{" (String c nm ++ String "}" ""))
      by (rewrite !append_assoc; reflexivity).
    rewrite (str_find_sep "{" "global" eq_refl), (str_find_sep "}" "global" eq_refl), Hg.
    rewrite (no_global_in_region w rest " # text=" Hin Hchars eq_refl). reflexivity.
Qed.

Lemma export_line_is_region_line (rs : RegionState) (importer : Ds9ImportExport) :
  exportable rs -> name_ok (name rs) ->
  _coord_map importer = ds9_keywords ->
  is_region_line importer (export_line rs) = true.
Proof.
  intros Hexp Hname Hmap. unfold is_region_line.
  rewrite (export_line_no_global rs Hexp Hname).
  destruct (exportable_line rs Hexp) as (w & rest & Hin & Hline & _).
  unfold export_line, IsDs9CoordSysKeyword. rewrite Hline, Hmap.
  unfold region_words in Hin. cbn [In] in Hin.
  destruct Hin as [<-|[<-|[<-|[<-|[<-|[]]]]]]; reflexivity.
Qed.

Lemma after_hash_skip (s rest : string) :
  str_forall region_char s = true -> after_hash (s ++ rest) = after_hash rest.
Proof.
  induction s as [|c s IH]; [reflexivity|].
  cbn [str_forall append after_hash]. intros H. apply andb_prop in H. destruct H as [Hc Hs].
  destruct (region_char_props c Hc) as (-> & _). exact (IH Hs).
Qed.

Lemma read_value (key : string) (value : string) :
  forall (acc : string),
    str_forall name_char value = true ->
    read_properties (value ++ "}") (InValue key "}" acc) = [(key, acc ++ value)].
Proof.
  induction value as [|c value IH]; intros acc Hv.
  - cbn. rewrite append_nil_r. reflexivity.
  - cbn [str_forall] in Hv. apply andb_prop in Hv. destruct Hv as [Hc Hv].
    destruct (name_char_props c Hc) as [_ Hb].
    cbn [append read_properties]. rewrite Hb, (IH _ Hv), append_assoc. reflexivity.
Qed.

Lemma export_line_name (rs : RegionState) (delim : string) :
  exportable rs -> name_ok (name rs) ->
  region_name_of (snd (Plain.ParseRegionParameters delim (export_line rs))) = name rs.
Proof.
  intros Hexp [Hn _]. destruct (exportable_line rs Hexp) as (w & rest & Hin & Hline & Hchars).
  unfold export_line, Plain.ParseRegionParameters. rewrite Hline. cbn [snd].
  assert (Hw : str_forall region_char (w ++ rest) = true).
  { rewrite str_forall_append, Hchars. unfold region_words in Hin. cbn [In] in Hin.
    destruct Hin as [<-|[<-|[<-|[<-|[<-|[]]]]]]; reflexivity. }
  rewrite (after_hash_skip _ _ Hw). unfold comment_of.
  destruct (name rs) as [|c nm] eqn:Ename; cbn [is_empty negb]; [reflexivity|].
  rewrite <- Ename in *.
  assert (Hhead : forall v,
             read_properties (after_hash (" # text={" ++ v ++ "}")) (InKey "")
             = read_properties (v ++ "}") (InValue "text" "}" "")) by (intros v; reflexivity).
  rewrite Hhead, (read_value _ _ _ Hn). reflexivity.
Qed.

Lemma split_lines_line (s : string) :
  forall (rest cur : string),
    str_forall (fun c => negb (line_end c)) s = true ->
    split_lines ";" (s ++ String line_feed rest) cur = (cur ++ s) :: split_lines ";" rest "".
Proof.
  induction s as [|c s IH]; intros rest cur Hs.
  - cbn [append split_lines]. rewrite append_nil_r. reflexivity.
  - cbn [str_forall] in Hs. apply andb_prop in Hs. destruct Hs as [Hc Hs].
    apply negb_true_iff in Hc. unfold line_end, line_feed in Hc.
    cbn [append split_lines]. rewrite Hc, (IH rest _ Hs), append_assoc. reflexivity.
Qed.

Lemma split_lines_lines (lines : list string) :
  Forall (fun l => str_forall (fun c => negb (line_end c)) l = true) lines ->
  split_lines ";" (String.concat "" (map (fun l => l ++ nl) lines)) "" = lines.
Proof.
  induction 1 as [|l lines Hl Hrest IH]; [reflexivity|].
  cbn [map]. rewrite concat_cons, append_assoc.
  change (nl ++ ?r) with (String line_feed r).
  rewrite (split_lines_line l _ "" Hl), IH. reflexivity.
Qed.

(** The settings of an importer that a region line reads. *)
Definition same_settings (a b : Ds9ImportExport) : Prop :=
  _file_id a = _file_id b /\ _parser_delim a = _parser_delim b
  /\ _file_ref_frame a = _file_ref_frame b /\ _pixel_coord a = _pixel_coord b
  /\ _coord_map a = _coord_map b.

Lemma process_region_lines (this0 : Ds9ImportExport) (lines : list string)
    (regions : list RegionState) :
  Forall2 (fun l r => is_region_line this0 l = true
                      /\ SetRegion this0 l = Ok (tt, mkEmit [r] "")) lines regions ->
  forall (this : Ds9ImportExport),
    same_settings this0 this ->
    process_lines lines true this = Ok (commit this (mkEmit regions "")).
Proof.
  induction 1 as [|l r lines regions [Hl Hset] Hrest IH]; intros this Hsame.
  - cbn [process_lines]. unfold commit. cbn. rewrite app_nil_r, append_nil_r.
    destruct this; reflexivity.
  - destruct Hsame as (H1 & H2 & H3 & H4 & H5).
    assert (Hl' : is_region_line this l = true).
    { unfold is_region_line, IsDs9CoordSysKeyword in *. rewrite <- H5. exact Hl. }
    rewrite (SetRegion_reads this0 this l H1 H2 H3 H4) in Hset.
    cbn [process_lines]. unfold is_region_line in Hl'.
    repeat (apply andb_prop in Hl'; destruct Hl' as [Hl' ?]).
    repeat match goal with
           | H : negb ?c = true |- _ => apply negb_true_iff in H; rewrite H; clear H
           end.
    rewrite Hset. cbn [run].
    rewrite (IH (commit this (mkEmit [r] ""))).
    + unfold commit. cbn. rewrite <- !app_assoc, !append_nil_r. reflexivity.
    + unfold same_settings, commit. cbn. auto.
Qed.

(** A region that a file returns: of an exported kind, with
    single-precision control points, as [CARTA::Point] holds them, and a
    name that the file keeps. *)
Definition returned (rs : RegionState) : Prop :=
  exportable rs /\ Forall float_point (control_points rs) /\ name_ok (name rs).

(** A region as it comes back from a file. *)
Definition read_back (file_id : Z) (rs' rs : RegionState) : Prop :=
  reference_file_id rs' = file_id /\ name rs' = name rs /\ type rs' = type rs
  /\ Forall2 (within (1 # 100)) (control_points rs') (control_points rs).

Lemma export_lines_read_back (importer : Ds9ImportExport) (regions : list RegionState) :
  _parser_delim importer = " ,()#" -> _pixel_coord importer = true ->
  _coord_map importer = ds9_keywords ->
  Forall returned regions ->
  exists regions',
    Forall2 (fun l r => is_region_line importer l = true
                        /\ SetRegion importer l = Ok (tt, mkEmit [r] ""))
      (map export_line regions) regions'
    /\ Forall2 (read_back (_file_id importer)) regions' regions.
Proof.
  intros Hdelim Hpix Hmap. induction 1 as [|rs regions (Hexp & Hfl & Hname) Hrest IH].
  - exists []. split; constructor.
  - destruct IH as (regions' & Hlines & Hback).
    destruct (export_line_import rs importer Hexp Hfl Hdelim Hpix)
      as (rs' & Hset & Hty & Hcps).
    exists (rs' :: regions'). split.
    + cbn [map]. constructor; [|exact Hlines].
      split; [exact (export_line_is_region_line rs importer Hexp Hname Hmap)|exact Hset].
    + constructor; [|exact Hback].
      pose proof (SetRegion_wf importer (export_line rs) tt _ Hset) as Hwf.
      cbn [new_regions] in Hwf. inversion Hwf as [|? ? (Hid & Hnm & _) _]; subst.
      split; [exact Hid|]. split; [|split; [exact Hty|exact Hcps]].
      rewrite Hnm. apply (export_line_name rs (_parser_delim importer) Hexp Hname).
Qed.

Lemma export_states (regions : list RegionState) :
  Forall returned regions ->
  forall (exporter : Ds9ImportExport),
    export_calls exporter (map CallAddState regions)
    = Ok (push_all (map (fun rs => export_line rs ++ nl) regions) exporter).
Proof.
  induction 1 as [|rs regions [Hexp _] Hrest IH]; intros exporter; [reflexivity|].
  cbn [map export_calls export_call].
  rewrite (AddExportRegion_export_line rs exporter Hexp). cbn [Res_bind snd].
  rewrite IH. reflexivity.
Qed.

Lemma export_file_import (regions : list RegionState) (export_file_id import_file_id : Z) :
  Forall returned regions ->
  exists exporter contents this,
    export_calls (new_export export_file_id true) (map CallAddState regions) = Ok exporter
    /\ ExportRegions exporter [] "" = (true, contents, "")
    /\ new_import import_file_id (String.concat "" contents) false = Ok this
    /\ _import_errors this = ""
    /\ Forall2 (read_back import_file_id) (_import_regions this) regions.
Proof.
  revert export_file_id import_file_id. intros efid ifid Hregions.
  set (lines := map export_line regions).
  exists (push_all (map (fun rs => export_line rs ++ nl) regions) (new_export efid true)).
  eexists. 
  set (this1 := mkDs9 ifid " ,()#" "" "" true ds9_keywords [] "" []).
  destruct (export_lines_read_back this1 regions eq_refl eq_refl eq_refl Hregions)
    as (regions' & Hlines & Hback).
  exists (commit this1 (mkEmit regions' "")).
  split; [apply export_states; exact Hregions|].
  split.
  { unfold ExportRegions. rewrite push_all_export_regions. reflexivity. }
  split; [|split; [reflexivity|exact Hback]].
  unfold new_import.
  change (Ds9.ReadRegionFile ?f false ?d) with (split_lines d f "").
  change (map (fun rs => export_line rs ++ nl) regions)
    with (map (fun rs => (fun l => l ++ nl) (export_line rs)) regions).
  rewrite <- (map_map export_line (fun l => l ++ nl)). fold lines.
  set (body := String.concat "" (map (fun l => l ++ nl) lines)).
  assert (Htext : String.concat ""
                    (app (_export_regions (new_export efid true))
                       (map (fun l => l ++ nl) lines))
                  = ("# Region file format: DS9 CARTA 1.2" ++ nl
                     ++ "global color=green delete=1 edit=1 fixed=0 font="
                     ++ dquote ++ "helvetica 10 normal roman" ++ dquote
                     ++ " highlite=1 include=1 move=1 select=1" ++ nl)
                    ++ ("physical" ++ nl) ++ body).
  { change (_export_regions (new_export efid true))
      with [("# Region file format: DS9 CARTA 1.2" ++ nl
             ++ "global color=green delete=1 edit=1 fixed=0 font="
             ++ dquote ++ "helvetica 10 normal roman" ++ dquote
             ++ " highlite=1 include=1 move=1 select=1" ++ nl); "physical" ++ nl].
    cbn [app]. rewrite !concat_cons. reflexivity. }
  rewrite Htext.
  assert (Hsplit : forall b,
             split_lines ";"
               (("# Region file format: DS9 CARTA 1.2" ++ nl
                 ++ "global color=green delete=1 edit=1 fixed=0 font="
                 ++ dquote ++ "helvetica 10 normal roman" ++ dquote
                 ++ " highlite=1 include=1 move=1 select=1" ++ nl)
                ++ ("physical" ++ nl) ++ b) ""
             = "# Region file format: DS9 CARTA 1.2"
               :: ("global color=green delete=1 edit=1 fixed=0 font="
                   ++ dquote ++ "helvetica 10 normal roman" ++ dquote
                   ++ " highlite=1 include=1 move=1 select=1")
               :: "physical" :: split_lines ";" b "")
    by (intros b; reflexivity).
  rewrite Hsplit. unfold body. rewrite split_lines_lines.
  - cbn [ProcessFileLines].
    assert (Hhead : forall ls,
               process_lines
                 ("# Region file format: DS9 CARTA 1.2"
                  :: ("global color=green delete=1 edit=1 fixed=0 font="
                      ++ dquote ++ "helvetica 10 normal roman" ++ dquote
                      ++ " highlite=1 include=1 move=1 select=1")
                  :: "physical" :: ls) true
                 (InitDs9CoordMap
                    (mkDs9 ifid " ,()#" "" "physical" true [] [] "" []))
               = process_lines ls true this1)
      by (intros ls; reflexivity).
    match goal with |- process_lines _ true ?t = _ =>
      change t with (InitDs9CoordMap (mkDs9 ifid " ,()#" "" "physical" true [] [] "" []))
    end.
    rewrite Hhead.
    apply (process_region_lines this1 lines regions' Hlines this1).
    unfold same_settings. auto.
  - unfold lines. apply Forall_map. revert Hregions. apply Forall_impl.
    intros rs (Hexp & _ & Hname). apply export_line_no_line_end; assumption.
Qed.

(** X27.  A whole file.  Regions of the four exported kinds are added to a
    pixel exporter, the lines that [ExportRegions] delivers are joined into
    a file, and the importing constructor is run on it.  The import reports
    nothing and yields as many RegionStates as were exported, in the same
    order: each with the importer's file id, the name and the kind of the
    original, and its control points within 1e-2.  The control points are
    single-precision values, as [CARTA::Point] holds them.  The names hold
    no line end, no semicolon, no closing brace and not the word "global";
    the header lines of the file are passed over, the line "physical"
    leaves the importer in pixel mode. *)
Theorem exported_file_is_read_back :
  forall (regions : list RegionState) (export_file_id import_file_id : Z),
    Forall (fun rs => exportable rs /\ Forall float_point (control_points rs)
                      /\ name_ok (name rs)) regions ->
    exists exporter contents this,
      export_calls (new_export export_file_id true) (map CallAddState regions) = Ok exporter
      /\ ExportRegions exporter [] "" = (true, contents, "")
      /\ new_import import_file_id (String.concat "" contents) false = Ok this
      /\ _import_errors this = ""
      /\ Forall2 (read_back import_file_id) (_import_regions this) regions.
Proof.
  intros regions efid ifid Hregions. exact (export_file_import regions efid ifid Hregions).
Qed.

End FileFacts.

(** *** Export, then import: the control points *)

Section RoundTrip.

Import Ds9.Plain.

(** C2, as amended.  A region of one of the four exported kinds, written in
    pixel coordinates by either overload of [AddExportRegion], is read back
    by [SetRegion] from the line written as one RegionState of the same
    kind, without a message, with as many control points as the original
    and each coordinate within 1e-2 of the original.  For the overload that
    takes a RegionState (two decimals) the original coordinates are
    single-precision values, as [CARTA::Point] holds them; for the overload
    that takes the quantities x, y of the control points in turn (four
    decimals, stored in single precision by the importer) they are at most
    262143 in magnitude.  Through a whole file, from [ExportRegions] to the
    importing constructor, the same holds for a RegionState whose name
    holds no line end, no semicolon, no closing brace and not the word
    "global".  The importer of the first two parts is any object in pixel
    mode with the delimiters of the importing constructor. *)
Theorem export_then_import_control_points :
  (forall (rs : RegionState) (exporter importer : Ds9ImportExport),
      exportable rs -> Forall float_point (control_points rs) ->
      _parser_delim importer = " ,()#" -> _pixel_coord importer = true ->
      exists line rs',
        AddExportRegion rs exporter = Ok (true, push_export (line ++ nl) exporter)
        /\ SetRegion importer line = Ok (tt, mkEmit [rs'] "")
        /\ type rs' = type rs
        /\ Forall2 (within (1 # 100)) (control_points rs') (control_points rs))
  /\ (forall (name : string) (type : RegionType) (control_points : list Quantity)
             (rotation : Quantity) (exporter importer : Ds9ImportExport),
         _pixel_coord exporter = true ->
         exportable_quantities type control_points ->
         Forall (fun q => (Qabs (getValue q) <= 262143)%Q) control_points ->
         _parser_delim importer = " ,()#" -> _pixel_coord importer = true ->
         exists line rs',
           AddExportRegion_Quantity name type control_points rotation exporter
           = Ok (true, push_export (line ++ nl) exporter)
           /\ SetRegion importer line = Ok (tt, mkEmit [rs'] "")
           /\ Ds9.type rs' = type
           /\ Forall2 (within (1 # 100)) (Ds9.control_points rs')
                (points_of control_points))
  /\ (forall (rs : RegionState) (export_file_id import_file_id : Z),
         exportable rs -> Forall float_point (control_points rs) -> name_ok (name rs) ->
         exists exporter contents this rs',
           AddExportRegion rs (new_export export_file_id true) = Ok (true, exporter)
           /\ ExportRegions exporter [] "" = (true, contents, "")
           /\ new_import import_file_id (String.concat "" contents) false = Ok this
           /\ _import_errors this = ""
           /\ _import_regions this = [rs']
           /\ type rs' = type rs
           /\ Forall2 (within (1 # 100)) (control_points rs') (control_points rs)).
Proof.
  split; [exact state_export_then_import|]. split; [exact quantity_export_then_import|].
  intros rs efid ifid Hexp Hfl Hname.
  destruct (export_file_import [rs] efid ifid
              (Forall_cons _ (conj Hexp (conj Hfl Hname)) (Forall_nil _)))
    as (exporter & contents & this & Hcalls & Hout & Hin & Herr & Hback).
  cbn [map export_calls export_call] in Hcalls.
  rewrite (AddExportRegion_export_line rs _ Hexp) in Hcalls. cbn [Res_bind snd] in Hcalls.
  injection Hcalls as <-.
  inversion Hback as [|rs' ? regions' ? (_ & _ & Hty & Hcps) Hnil Hregs]; subst.
  inversion Hnil; subst.
  eexists. exists contents, this, rs'.
  split; [apply AddExportRegion_export_line; exact Hexp|].
  split; [exact Hout|]. split; [exact Hin|]. split; [exact Herr|].
  split; [symmetry; assumption|]. split; [exact Hty|exact Hcps].
Qed.

Lemma export_then_import_control_points_witness :
  (exists line rs',
      AddExportRegion sample_polygon (new_export 0 true)
      = Ok (true, push_export (line ++ nl) (new_export 0 true))
      /\ SetRegion (importer 1) line = Ok (tt, mkEmit [rs'] "")
      /\ type rs' = type sample_polygon
      /\ Forall2 (within (1 # 100)) (control_points rs') (control_points sample_polygon))
  /\ (exists line rs',
         AddExportRegion_Quantity "" RECTANGLE sample_box (mkQuantity 45 "deg")
           (new_export 0 true)
         = Ok (true, push_export (line ++ nl) (new_export 0 true))
         /\ SetRegion (importer 1) line = Ok (tt, mkEmit [rs'] "")
         /\ type rs' = RECTANGLE
         /\ Forall2 (within (1 # 100)) (control_points rs') (points_of sample_box))
  /\ (exists exporter contents this rs',
         AddExportRegion sample_polygon (new_export 0 true) = Ok (true, exporter)
         /\ ExportRegions exporter [] "" = (true, contents, "")
         /\ new_import 1 (String.concat "" contents) false = Ok this
         /\ _import_errors this = ""
         /\ _import_regions this = [rs']
         /\ type rs' = type sample_polygon
         /\ Forall2 (within (1 # 100)) (control_points rs') (control_points sample_polygon)).
Proof.
  assert (Hexp : exportable sample_polygon) by (unfold exportable, sample_polygon; simpl; lia).
  assert (Hfl : Forall float_point (control_points sample_polygon)).
  { repeat (apply Forall_cons; [split; vm_compute; reflexivity|]). apply Forall_nil. }
  split; [|split].
  - apply (proj1 export_then_import_control_points
             sample_polygon (new_export 0 true) (importer 1) Hexp Hfl); reflexivity.
  - apply (proj1 (proj2 export_then_import_control_points)
             "" RECTANGLE sample_box (mkQuantity 45 "deg") (new_export 0 true) (importer 1)).
    + reflexivity.
    + reflexivity.
    + repeat (apply Forall_cons; [vm_compute; discriminate|]). apply Forall_nil.
    + reflexivity.
    + reflexivity.
  - apply (proj2 (proj2 export_then_import_control_points) sample_polygon 0 1 Hexp Hfl).
    split; reflexivity.
Defined.

(** C2, counterexamples.  (1) A point named "global view" is written as the
    line [point(1.00, 2.00) # text={global view}]; [ProcessFileLines] skips
    every line that holds the word "global", so the importing constructor
    returns no RegionState for the file, and no message.  (2) The quantity
    300000 + 1/64 is written with four decimals as 300000.0156; the importer
    stores it in single precision, where the numbers next to it are 1/32
    apart, as 300000: 1/64 from the original, more than 1e-2. *)
Lemma control_points_not_recovered :
  match AddExportRegion (mkRegionState 0 "global view" POINT [mkPoint 1 2] 0)
          (new_export 0 true) with
  | Ok (true, exporter) =>
      match ExportRegions exporter [] "" with
      | (true, contents, _) =>
          nth 2 contents "" = "point(1.00, 2.00) # text={global view}" ++ nl
          /\ match new_import 1 (String.concat "" contents) false with
             | Ok this => _import_regions this = [] /\ _import_errors this = ""
             | _ => False
             end
      | _ => False
      end
  | _ => False
  end
  /\ (AddExportRegion_Quantity "" POINT
        [mkQuantity (19200001 # 64) "pixel"; mkQuantity 0 "pixel"] (mkQuantity 0 "deg")
        (new_export 0 true)
      = Ok (true, push_export ("point(300000.0156, 0.0000)" ++ nl) (new_export 0 true))
      /\ SetRegion (importer 1) "point(300000.0156, 0.0000)"
         = Ok (tt, mkEmit [mkRegionState 1 "" POINT [mkPoint 300000 0] 0] "")
      /\ ~ (Qabs (300000 - (19200001 # 64)) <= 1 # 100)%Q).
Proof.
  split.
  - vm_compute. repeat split.
  - split; [vm_compute; reflexivity|]. split; [vm_compute; reflexivity|].
    vm_compute. intros H. apply H. reflexivity.
Qed.

End RoundTrip.

(** *** Concrete runs on the reference collaborators *)

Section Runs.

Import Ds9.Plain.

Lemma SetRegion_regions_are_well_formed_witness :
  (List.length [mkRegionState 4 "area" POLYGON [mkPoint 1 2; mkPoint 3 4; mkPoint 5 6] 0] <= 1)%nat
  /\ Forall
       (well_formed (importer 4)
          (fst (Ds9.ParseRegionParameters " ,()#" "polygon(1, 2, 3, 4, 5, 6) # text={area}"))
          (region_name_of
             (snd (Ds9.ParseRegionParameters " ,()#"
                     "polygon(1, 2, 3, 4, 5, 6) # text={area}"))))
       [mkRegionState 4 "area" POLYGON [mkPoint 1 2; mkPoint 3 4; mkPoint 5 6] 0].
Proof.
  apply (SetRegion_regions_are_well_formed (importer 4)
           "polygon(1, 2, 3, 4, 5, 6) # text={area}"
           (mkEmit [mkRegionState 4 "area" POLYGON [mkPoint 1 2; mkPoint 3 4; mkPoint 5 6] 0]
              "")).
  vm_compute. reflexivity.
Defined.

Lemma import_only_appends_witness :
  exists this',
    ProcessFileLines ["point(1, 2)"; "box(1, 2)"] (importer 7) = Ok this'
    /\ _file_id this' = 7 /\ _parser_delim this' = " ,()#"
    /\ _export_regions this' = []
    /\ (exists regions,
           _import_regions this' = ([] ++ regions)%list /\ Forall (imported 7) regions)
    /\ (exists messages, _import_errors this' = "" ++ messages)
    /\ (true = false -> _pixel_coord this' = false).
Proof.
  eexists. split; [vm_compute; reflexivity|].
  apply (import_only_appends ["point(1, 2)"; "box(1, 2)"] (importer 7)).
  vm_compute. reflexivity.
Defined.

Lemma importer_has_nothing_to_export_witness :
  exists this,
    new_import 0 "point(1, 2)" false = Ok this
    /\ ExportRegions this ["kept"] "" = (false, ["kept"], "Export region failed: no regions to export.")
    /\ ExportRegions_file this "regions.reg" ""
       = (false, None, "Export region failed: no regions to export.").
Proof.
  eexists. split; [vm_compute; reflexivity|].
  apply (importer_has_nothing_to_export 0 "point(1, 2)" false).
  vm_compute. reflexivity.
Defined.

Lemma SetRegion_reads_out_of_range_only_for_witness :
  fst (Ds9.ParseRegionParameters (_parser_delim (importer 0)) "point point 5") = []
  \/ (List.length (fst (Ds9.ParseRegionParameters (_parser_delim (importer 0)) "point point 5"))
      = 3%nat
      /\ nth 1 (fst (Ds9.ParseRegionParameters (_parser_delim (importer 0)) "point point 5")) ""
         = "point"
      /\ _pixel_coord (importer 0) = true).
Proof.
  apply (SetRegion_reads_out_of_range_only_for (importer 0) "point point 5").
  vm_compute. reflexivity.
Defined.

Lemma SetRegion_throws_only_out_of_range_witness :
  "std::out_of_range" = "std::out_of_range"
  /\ exists p,
       In p (fst (@Ds9.ParseRegionParameters ranged_collaborators " ,()#" "point(1e999, 2)"))
       /\ @Ds9.stod ranged_collaborators p = StodOutOfRange.
Proof.
  apply (@SetRegion_throws_only_out_of_range ranged_collaborators (Plain.importer 0)
           "point(1e999, 2)" "std::out_of_range").
  vm_compute. reflexivity.
Defined.

Lemma unsupported_coord_sys_drops_region_lines_witness :
  exists this',
    process_lines ["WCS"; "circle(1, 2, 3)"; "point(1, 2)"] true (InitDs9CoordMap (importer 0))
    = Ok this'
    /\ _import_regions this' = []
    /\ _import_errors this' = "" ++ "coord sys " ++ tolower "WCS" ++ " not supported." ++ nl
    /\ _file_ref_frame this' = "UNSUPPORTED"
    /\ _pixel_coord this' = false.
Proof.
  apply (unsupported_coord_sys_drops_region_lines "WCS" ["circle(1, 2, 3)"; "point(1, 2)"]
           true (InitDs9CoordMap (importer 0))).
  - reflexivity.
  - reflexivity.
  - reflexivity.
  - repeat constructor.
Defined.

Lemma export_of_other_kinds_witness :
  AddExportRegion (mkRegionState 0 "arm" LINE [] 0) (new_export 0 true)
  = Ok (true, push_export (" # text={" ++ "arm" ++ "}" ++ nl) (new_export 0 true))
  /\ AddExportRegion_Quantity "" ANNULUS [] (mkQuantity 0 "deg") (new_export 0 true)
     = Ok (false, new_export 0 true).
Proof.
  apply (export_of_other_kinds (mkRegionState 0 "arm" LINE [] 0) "" ANNULUS []
           (mkQuantity 0 "deg") (new_export 0 true)); reflexivity.
Defined.

Lemma exported_lines_after_header_witness :
  exists header csys added,
    _export_regions (new_export 0 true) = [header; csys]
    /\ String.prefix "# Region file format: DS9 CARTA " header = true
    /\ push_export ("circle(10.00, 10.00, 5.00)" ++ nl) (new_export 0 true)
       = push_all added (new_export 0 true)
    /\ _export_regions (push_export ("circle(10.00, 10.00, 5.00)" ++ nl) (new_export 0 true))
       = header :: csys :: added
    /\ Forall ends_with_newline (header :: csys :: added)
    /\ (List.length added
        <= List.length
             [CallAddState (mkRegionState 0 "" ELLIPSE [mkPoint 10 10; mkPoint 5 5] 0)])%nat.
Proof.
  apply (exported_lines_after_header 0 true
           [CallAddState (mkRegionState 0 "" ELLIPSE [mkPoint 10 10; mkPoint 5 5] 0)]
           (push_export ("circle(10.00, 10.00, 5.00)" ++ nl) (new_export 0 true))).
  reflexivity.
Defined.

Lemma CheckAndConvertParameter_unit_character_witness :
  CheckAndConvertParameter ("3.5" ++ String "d" "") "box"
  = Ok ((true, "3.5" ++ "deg"), mkEmit [] "").
Proof.
  apply (CheckAndConvertParameter_unit_character "3.5" "d" "box"). reflexivity.
Defined.

Lemma new_export_frame_witness :
  (_file_ref_frame (new_export 3 true) = "physical"
   /\ _pixel_coord (new_export 3 true) = true
   /\ nth 1 (_export_regions (new_export 3 true)) "" = "physical" ++ nl)
  /\ (_file_ref_frame (new_export 3 false) = ds9_frame_of "physical"
      /\ _pixel_coord (new_export 3 false) = false
      /\ nth 1 (_export_regions (new_export 3 false)) ""
         = (if is_empty (ds9_frame_of "physical") then "image"
            else ds9_frame_of "physical") ++ nl).
Proof.
  assert (H1 : @image_reference_frame collaborators <> "") by (vm_compute; discriminate).
  assert (H2 : @image_reference_frame collaborators <> "UNSUPPORTED")
    by (vm_compute; discriminate).
  exact (new_export_frame 3 H1 H2).
Defined.

Definition sample_rectangle : RegionState :=
  mkRegionState 0 "" RECTANGLE [mkPoint 10 20; mkPoint 4 (5 # 2)] (-45 # 2).

Lemma rectangle_rotation_round_trip_witness :
  exists line rs',
    AddExportRegion sample_rectangle (new_export 0 true)
    = Ok (true, push_export (line ++ nl) (new_export 0 true))
    /\ SetRegion (importer 1) line = Ok (tt, mkEmit [rs'] "")
    /\ type rs' = RECTANGLE
    /\ (rotation rs' == to_float (rotation sample_rectangle))%Q
    /\ (is_float (rotation sample_rectangle) = true ->
        (rotation rs' == rotation sample_rectangle)%Q).
Proof.
  apply (rectangle_rotation_round_trip sample_rectangle (mkPoint 10 20) (mkPoint 4 (5 # 2))
           (new_export 0 true) (importer 1)).
  - reflexivity.
  - reflexivity.
  - exists 1%nat. split; [vm_compute; lia|reflexivity].
  - reflexivity.
  - reflexivity.
Defined.

Definition sample_regions : list RegionState :=
  [mkRegionState 0 "field A" POLYGON
     [mkPoint (1001 # 8) (-3 # 4); mkPoint 20 (41 # 2); mkPoint (7 # 16) 33] 0;
   mkRegionState 0 "" ELLIPSE [mkPoint 10 10; mkPoint 5 5] 0;
   mkRegionState 0 "a # b" POINT [mkPoint 1 2] 0].

Lemma exported_file_is_read_back_witness :
  exists exporter contents this,
    export_calls (new_export 0 true) (map CallAddState sample_regions) = Ok exporter
    /\ ExportRegions exporter [] "" = (true, contents, "")
    /\ new_import 1 (String.concat "" contents) false = Ok this
    /\ _import_errors this = ""
    /\ Forall2 (read_back 1) (_import_regions this) sample_regions.
Proof.
  apply (exported_file_is_read_back sample_regions 0 1).
  repeat (apply Forall_cons;
          [split; [unfold exportable; cbn; lia|];
           split; [|split; reflexivity];
           repeat (apply Forall_cons; [split; vm_compute; reflexivity|]); apply Forall_nil|]).
  apply Forall_nil.
Defined.

Lemma import_box_and_ellipse_in_pixels_witness :
  ImportRectangleRegion (importer 2) ["box"; "1"; "2"; "3"; "4"; "30"] "b" false
  = Ok (tt, mkEmit [mkRegionState 2 "b" RECTANGLE [mkPoint 1 2; mkPoint 3 4] 30] "")
  /\ ImportRectangleRegion (importer 2) ["box"; "1"; "2"; "3"; "4"] "b" false
     = Ok (tt, mkEmit [mkRegionState 2 "b" RECTANGLE [mkPoint 1 2; mkPoint 3 4] 0] "")
  /\ ImportEllipseRegion (importer 2) ["box"; "1"; "2"; "3"; "4"; "30"] "b" false
     = Ok (tt, mkEmit [mkRegionState 2 "b" ELLIPSE [mkPoint 1 2; mkPoint 3 4]
                         (ellipse_rotation 30 (String.eqb "3" "4"))] "")
  /\ ImportEllipseRegion (importer 2) ["box"; "1"; "2"; "3"; "4"] "b" false
     = Ok (tt, mkEmit [mkRegionState 2 "b" ELLIPSE [mkPoint 1 2; mkPoint 3 4]
                         (ellipse_rotation 0 (String.eqb "3" "4"))] "")
  /\ ImportCircleRegion (importer 2) ["box"; "1"; "2"; "3"] "b" false
     = Ok (tt, mkEmit [mkRegionState 2 "b" ELLIPSE [mkPoint 1 2; mkPoint 3 3] 0] "").
Proof.
  apply (import_box_and_ellipse_in_pixels (importer 2) "box" "1" "2" "3" "4" "30" "b"
           1 2 3 4 30 false); repeat split.
Defined.

Lemma import_point_and_polygon_in_pixels_witness :
  ImportPointRegion (importer 2) ["point"; "1"; "2"] "p" false
  = Ok (tt, mkEmit [mkRegionState 2 "p" POINT [mkPoint 1 2] 0] "")
  /\ ImportPolygonRegion (importer 2) ["polygon"; "1"; "2"; "3"; "4"] "p" false
     = Ok (tt, mkEmit [mkRegionState 2 "p" POLYGON [mkPoint 1 2; mkPoint 3 4] 0] "")
  /\ ImportPolygonRegion (importer 2) ["polygon"] "p" false
     = Ok (tt, mkEmit [mkRegionState 2 "p" POLYGON [] 0] "").
Proof.
  apply (import_point_and_polygon_in_pixels (importer 2) "polygon" "1" "2" "p" ["3"; "4"]
           1 2 [mkPoint 3 4] false).
  - reflexivity.
  - repeat split.
  - repeat split.
  - discriminate.
  - cbn [flat_values x y]. repeat (apply Forall2_cons; [repeat split|]). apply Forall2_nil.
Defined.

Lemma indicator_is_ignored_but_for_point_witness :
  SetRegion (importer 0) "+circle(1, 2, 3)" = SetRegion (importer 0) "circle(1, 2, 3)".
Proof.
  apply (indicator_is_ignored_but_for_point (importer 0) "+circle(1, 2, 3)" "circle(1, 2, 3)"
           "+" "circle" ["1"; "2"; "3"] []).
  - left. reflexivity.
  - reflexivity.
  - reflexivity.
  - reflexivity.
  - reflexivity.
Defined.

Lemma region_line_gives_region_or_message_witness :
  if recognised (strip_indicator "box")
  then region_or_message (mkEmit [] ("box syntax error." ++ nl))
  else silent (mkEmit [] ("box syntax error." ++ nl)).
Proof.
  apply (region_line_gives_region_or_message (importer 0) "box(1, 2)" "box" ["1"; "2"] []
           (mkEmit [] ("box syntax error." ++ nl))).
  - reflexivity.
  - reflexivity.
Defined.

End Runs.

End Ds9Facts.
